(** * Volleyball match scouting: rotation engine, score/serve ledger,
      trajectory capture on the court and the statistics aggregator.

    The development follows the components of the repository:
    - [Types]        the shared declarations the components import;
    - [GameView]     the interaction state machine with the score/serve
                     ledger and the rotation engine (second component of
                     [src/components/SetupView.tsx]);
    - [Owner]        the orchestrating layer that applies the deltas;
    - [Court]        the coordinate helpers and pointer handlers of
                     [src/components/Court.tsx];
    - [CourtEarly]   the pointer handlers of the other Court component kept
                     in the repository ([src/unnamed/part_000]);
    - [Screen]       [GameView] rendering one of the two Courts, as a step
                     function over the operator's inputs;
    - [StatsOverlay] the statistics aggregator (second component of
                     [src/components/Court.tsx]);
    - [Scenario]     concrete matches and gestures;
    - [LedgerFacts], [CourtFacts], [StatsFacts]  the properties.

    JavaScript numbers are modelled exactly: scores, set numbers, counters
    and time stamps as [Z], court coordinates as real numbers [R] and the
    quotient of two counters as a rational [Q] (the idealisation of IEEE
    doubles, without rounding). *)

From Stdlib Require Import ZArith List String Bool Lia DecimalString.
From Stdlib Require Import QArith Qround Lqa Reals Lra.
From Stdlib Require Import Permutation.
Import ListNotations.

(* ================================================================== *)
(** ** Shared declarations *)

(** Modelled from the spec: the declarations of [../types] (TeamSide,
    Position, ActionType, ResultType, ActionQuality, Coordinate, Lineup,
    TeamConfig, LogEntry), which every component imports and which are not
    among the sources.  The enumerations follow the spec's data model (two
    sides, six rotation slots plus the Libero marker ['L'], six action kinds,
    three outcomes); the record fields are the ones the components read and
    write.  At run time a side is ['me'] or ['op'], a position is one of the
    keys 1..6 or ['L'] and an action kind is a non-empty string (it serves as
    a React key and as an index of the label table), so every member is
    truthy. *)
Module Types.

Inductive TeamSide : Type := me | op.

Inductive Position : Type := P1 | P2 | P3 | P4 | P5 | P6.

(** [Position | 'L'] *)
Inductive PlayerPos : Type :=
| Slot (p : Position)
| L.

Inductive ActionType : Type := SERVE | ATTACK | BLOCK | DIG | SET | RECEIVE.

Inductive ResultType : Type := POINT | ERROR | NORMAL.

Inductive ActionQuality : Type := QUALITY_NORMAL.

(** [{ x: number, y: number }]: the type [Coordinate] of [../types] and the
    local type [Point] of the Court component are structurally the same. *)
Record Coordinate : Type := mkCoordinate { x : R; y : R }.

(** An object with the six keys 1..6, each holding a player identifier. *)
Record Lineup : Type := mkLineup {
  at1 : string; at2 : string; at3 : string;
  at4 : string; at5 : string; at6 : string
}.

(** [lineup[pos]] *)
Definition lineupAt (lineup : Lineup) (pos : Position) : string :=
  match pos with
  | P1 => at1 lineup | P2 => at2 lineup | P3 => at3 lineup
  | P4 => at4 lineup | P5 => at5 lineup | P6 => at6 lineup
  end.

Record TeamConfig : Type := mkTeamConfig {
  matchName : string; myName : string; opName : string
}.

Module Log.
Record LogEntry : Type := mkLogEntry {
  id : string;
  timestamp : Z;
  setNumber : Z;
  myScore : Z;
  opScore : Z;
  playerNumber : string;
  position : PlayerPos;
  action : ActionType;
  quality : ActionQuality;
  result : ResultType;
  startCoord : option Coordinate;
  endCoord : option Coordinate;
  note : string;
  servingTeam : TeamSide
}.
End Log.

Definition TeamSide_eqb (a b : TeamSide) : bool :=
  match a, b with
  | me, me | op, op => true
  | _, _ => false
  end.

Definition ActionType_eqb (a b : ActionType) : bool :=
  match a, b with
  | SERVE, SERVE | ATTACK, ATTACK | BLOCK, BLOCK
  | DIG, DIG | SET, SET | RECEIVE, RECEIVE => true
  | _, _ => false
  end.

Definition ResultType_eqb (a b : ResultType) : bool :=
  match a, b with
  | POINT, POINT | ERROR, ERROR | NORMAL, NORMAL => true
  | _, _ => false
  end.

(** [a || b] on a value that is either absent or truthy. *)
Definition orElse {A : Type} (a : option A) (b : A) : A :=
  match a with
  | Some v => v
  | None => b
  end.

(** [n.toString()] and [`${n}`] for an integral number. *)
Definition toString (n : Z) : string := NilZero.string_of_int (Z.to_int n).

End Types.

(* ================================================================== *)
(** ** The interaction state machine, the score/serve ledger and the
       rotation engine (component [GameView]) *)

Module GameView.
Import Types.

Inductive InteractionState : Type :=
  IDLE | PLAYER_SELECTED | DRAWING | RESULT_PENDING.

(** The arguments of one call of the [onGameAction] callback. *)
Record ScoreUpdate : Type := mkScoreUpdate { myDelta : Z; opDelta : Z }.

Record LineupUpdate : Type := mkLineupUpdate {
  isMyTeam : bool;
  newLineup : Lineup;
  newLibero : option string
}.

Record GameAction : Type := onGameAction {
  newLog : option Log.LogEntry;
  scoreUpdate : option ScoreUpdate;
  lineupUpdate : option LineupUpdate;
  servingTeamUpdate : option TeamSide
}.

(** The props the component reads (the current MatchSnapshot, handed in by
    the owner on every render). *)
Record GameViewProps : Type := mkProps {
  teamConfig : TeamConfig;
  currentSet : Z;
  initialMyLineup : Lineup;
  initialOpLineup : Lineup;
  initialMyLibero : string;
  initialOpLibero : string;
  myScore : Z;
  opScore : Z;
  servingTeam : TeamSide;
  logs : list Log.LogEntry
}.

(** The [useState] cells of the capture sequence. *)
Record Hooks : Type := mkHooks {
  state : InteractionState;
  activeSide : TeamSide;
  selectedPos : option PlayerPos;
  selectedAction : option ActionType;
  startCoord : option Coordinate;
  endCoord : option Coordinate
}.

Definition initialHooks : Hooks :=
  {| state := IDLE; activeSide := me; selectedPos := None;
     selectedAction := None; startCoord := None; endCoord := None |}.

(** *** Helpers *)

Definition getRotatedLineup (lineup : Lineup) : Lineup :=
  {| at1 := lineupAt lineup P2; at6 := lineupAt lineup P1;
     at5 := lineupAt lineup P6; at4 := lineupAt lineup P5;
     at3 := lineupAt lineup P4; at2 := lineupAt lineup P3 |}.

Section Handlers.

Variable props : GameViewProps.

Definition handleRotation (isMyTeam : bool) : GameAction :=
  let currentLineup :=
    if isMyTeam then initialMyLineup props else initialOpLineup props in
  let newLineup := getRotatedLineup currentLineup in
  onGameAction None None
    (Some {| isMyTeam := isMyTeam; newLineup := newLineup;
             newLibero := None |})
    None.

(** [now1], [now2]: the values of the two [Date.now()] calls. *)
Definition handleScoreAdjust (now1 now2 : Z) (isMyTeam : bool) (delta : Z)
  : GameAction :=
  let scoreUpdate :=
    {| myDelta := if isMyTeam then delta else 0;
       opDelta := if negb isMyTeam then delta else 0 |} in
  let '(lineupUpdate, newServingTeam) :=
    if (delta >? 0)%Z then
      (* winning a point logic *)
      let pointWinner := if isMyTeam then me else op in
      if negb (TeamSide_eqb pointWinner (servingTeam props)) then
        let lineToRotate :=
          if TeamSide_eqb pointWinner me
          then initialMyLineup props else initialOpLineup props in
        (Some {| isMyTeam := TeamSide_eqb pointWinner me;
                 newLineup := getRotatedLineup lineToRotate;
                 newLibero := None |},
         Some pointWinner)
      else (None, None)
    else (None, None) in
  let newLog : Log.LogEntry :=
    {| Log.id := toString now1;
       Log.timestamp := now2;
       Log.setNumber := currentSet props;
       Log.myScore :=
         if isMyTeam then (myScore props + delta)%Z else myScore props;
       Log.opScore :=
         if negb isMyTeam then (opScore props + delta)%Z else opScore props;
       Log.playerNumber := EmptyString;
       Log.position := Slot P1;
       Log.action := ATTACK;
       Log.quality := QUALITY_NORMAL;
       Log.result := if (delta >? 0)%Z then POINT else NORMAL;
       Log.startCoord := None;
       Log.endCoord := None;
       Log.note :=
         ("Manual Adjust " ++ (if (delta >? 0)%Z then "+" else "")
            ++ toString delta)%string;
       Log.servingTeam := orElse newServingTeam (servingTeam props) |} in
  onGameAction (Some newLog) (Some scoreUpdate) lineupUpdate newServingTeam.

Definition resetFlow (h : Hooks) : Hooks :=
  {| state := IDLE; activeSide := activeSide h; selectedPos := None;
     selectedAction := None; startCoord := None; endCoord := None |}.

(** Step 1: player selected. *)
Definition handlePlayerSelect (h : Hooks) (side : TeamSide) (pos : PlayerPos)
  : Hooks :=
  {| state := PLAYER_SELECTED; activeSide := side; selectedPos := Some pos;
     selectedAction := None; startCoord := None; endCoord := None |}.

(** Step 2: action selected. *)
Definition handleActionSelect (h : Hooks) (action : ActionType) : Hooks :=
  {| state := DRAWING; activeSide := activeSide h;
     selectedPos := selectedPos h; selectedAction := Some action;
     startCoord := startCoord h; endCoord := endCoord h |}.

(** Step 3: drawing complete (called by the Court). *)
Definition handleDrawingComplete (h : Hooks) (start end_ : Coordinate)
  : Hooks :=
  {| state := RESULT_PENDING; activeSide := activeSide h;
     selectedPos := selectedPos h; selectedAction := selectedAction h;
     startCoord := Some start; endCoord := Some end_ |}.

(** Step 4: result.  Returns the hooks after the handler and the call of
    [onGameAction] it made, if any. *)
Definition handleResult (now1 now2 : Z) (h : Hooks) (result : ResultType)
  : Hooks * option GameAction :=
  match selectedPos h, selectedAction h with
  | Some selectedPos, Some selectedAction =>
      let isMyTeam := TeamSide_eqb (activeSide h) me in
      let lineup :=
        if isMyTeam then initialMyLineup props else initialOpLineup props in
      let playerNumber :=
        match selectedPos with
        | L => if isMyTeam then initialMyLibero props
               else initialOpLibero props
        | Slot p => lineupAt lineup p
        end in
      let '(scoreUpdate, newServingTeam, lineupUpdate) :=
        match result with
        | POINT =>
            (* the team that executed the action wins the point *)
            let scoreUpdate :=
              Some {| myDelta := if isMyTeam then 1 else 0;
                      opDelta := if negb isMyTeam then 1 else 0 |} in
            let pointWinner := if isMyTeam then me else op in
            if negb (TeamSide_eqb pointWinner (servingTeam props)) then
              let lineToRotate :=
                if TeamSide_eqb pointWinner me
                then initialMyLineup props else initialOpLineup props in
              (scoreUpdate, Some pointWinner,
               Some {| isMyTeam := TeamSide_eqb pointWinner me;
                       newLineup := getRotatedLineup lineToRotate;
                       newLibero := None |})
            else (scoreUpdate, None, None)
        | ERROR =>
            (* the opposing team wins the point *)
            let scoreUpdate :=
              Some {| myDelta := if negb isMyTeam then 1 else 0;
                      opDelta := if isMyTeam then 1 else 0 |} in
            let pointWinner := if negb isMyTeam then me else op in
            if negb (TeamSide_eqb pointWinner (servingTeam props)) then
              let lineToRotate :=
                if TeamSide_eqb pointWinner me
                then initialMyLineup props else initialOpLineup props in
              (scoreUpdate, Some pointWinner,
               Some {| isMyTeam := TeamSide_eqb pointWinner me;
                       newLineup := getRotatedLineup lineToRotate;
                       newLibero := None |})
            else (scoreUpdate, None, None)
        | NORMAL => (None, None, None)
        end in
      let nextMyScore :=
        match scoreUpdate with
        | Some u => (myScore props + myDelta u)%Z
        | None => myScore props
        end in
      let nextOpScore :=
        match scoreUpdate with
        | Some u => (opScore props + opDelta u)%Z
        | None => opScore props
        end in
      let newLog : Log.LogEntry :=
        {| Log.id := toString now1;
           Log.timestamp := now2;
           Log.setNumber := currentSet props;
           Log.myScore := nextMyScore;
           Log.opScore := nextOpScore;
           Log.playerNumber := playerNumber;
           Log.position := selectedPos;
           Log.action := selectedAction;
           Log.quality := QUALITY_NORMAL;
           Log.result := result;
           Log.startCoord := startCoord h;
           Log.endCoord := endCoord h;
           Log.note :=
             if isMyTeam then myName (teamConfig props)
             else opName (teamConfig props);
           Log.servingTeam := orElse newServingTeam (servingTeam props) |} in
      (resetFlow h,
       Some (onGameAction (Some newLog) scoreUpdate lineupUpdate
               newServingTeam))
  | _, _ => (h, None)
  end.

End Handlers.

End GameView.

(* ================================================================== *)
(** ** The owner of the MatchSnapshot *)

Module Owner.
Import Types GameView.

(** Modelled from the spec: the implementation of the [onGameAction]
    callback, which belongs to the orchestrating layer and is not among the
    sources.  Per the data model every mutation of the MatchSnapshot is one
    of the named deltas, applied by the owner: the score delta is added to
    the running score, the lineup update replaces the lineup of the team it
    names (and that team's Libero only when the update carries one), the
    serve-team update replaces the serving team, and the event, when there is
    one, is appended to the log. *)
Definition applyGameAction (s : GameViewProps) (a : GameAction)
  : GameViewProps :=
  let upd := lineupUpdate a in
  {| teamConfig := teamConfig s;
     currentSet := currentSet s;
     initialMyLineup :=
       match upd with
       | Some u => if isMyTeam u then newLineup u else initialMyLineup s
       | None => initialMyLineup s
       end;
     initialOpLineup :=
       match upd with
       | Some u => if isMyTeam u then initialOpLineup s else newLineup u
       | None => initialOpLineup s
       end;
     initialMyLibero :=
       match upd with
       | Some u =>
           if isMyTeam u then orElse (newLibero u) (initialMyLibero s)
           else initialMyLibero s
       | None => initialMyLibero s
       end;
     initialOpLibero :=
       match upd with
       | Some u =>
           if isMyTeam u then initialOpLibero s
           else orElse (newLibero u) (initialOpLibero s)
       | None => initialOpLibero s
       end;
     myScore :=
       match scoreUpdate a with
       | Some u => (myScore s + myDelta u)%Z
       | None => myScore s
       end;
     opScore :=
       match scoreUpdate a with
       | Some u => (opScore s + opDelta u)%Z
       | None => opScore s
       end;
     servingTeam := orElse (servingTeamUpdate a) (servingTeam s);
     logs :=
       match newLog a with
       | Some e => logs s ++ [e]
       | None => logs s
       end |}.

(** A handler that made no call leaves the snapshot as it is. *)
Definition applyCall (s : GameViewProps) (call : option GameAction)
  : GameViewProps :=
  match call with
  | Some a => applyGameAction s a
  | None => s
  end.

(** Views of the snapshot by side. *)
Definition opponent (side : TeamSide) : TeamSide :=
  match side with me => op | op => me end.

Definition lineupOf (s : GameViewProps) (side : TeamSide) : Lineup :=
  match side with me => initialMyLineup s | op => initialOpLineup s end.

Definition liberoOf (s : GameViewProps) (side : TeamSide) : string :=
  match side with me => initialMyLibero s | op => initialOpLibero s end.

Definition scoreOf (s : GameViewProps) (side : TeamSide) : Z :=
  match side with me => myScore s | op => opScore s end.

(** The side that wins the rally: the acting side for Point, the opposing
    side for Error. *)
Definition pointWinnerOf (acting : TeamSide) (r : ResultType)
  : option TeamSide :=
  match r with
  | POINT => Some acting
  | ERROR => Some (opponent acting)
  | NORMAL => None
  end.

(** The deltas of a serve transfer to [winner]: serve goes to [winner] and
    its lineup is replaced by one rotation of its current lineup. *)
Definition transfersServe (s : GameViewProps) (winner : TeamSide)
  (a : GameAction) : Prop :=
  servingTeamUpdate a = Some winner /\
  lineupUpdate a =
    Some {| isMyTeam := TeamSide_eqb winner me;
            newLineup := getRotatedLineup (lineupOf s winner);
            newLibero := None |}.

(** No serve delta and no lineup delta. *)
Definition keepsServe (a : GameAction) : Prop :=
  servingTeamUpdate a = None /\ lineupUpdate a = None.

(** What a serve decision for [winner] must look like, on the deltas and on
    the snapshot after the owner has applied them. *)
Definition serveRule (s : GameViewProps) (winner : TeamSide)
  (a : GameAction) : Prop :=
  let s' := applyGameAction s a in
  (transfersServe s winner a <-> winner <> servingTeam s) /\
  (winner <> servingTeam s ->
     servingTeam s' = winner /\
     lineupOf s' winner = getRotatedLineup (lineupOf s winner) /\
     lineupOf s' (opponent winner) = lineupOf s (opponent winner)) /\
  (winner = servingTeam s ->
     keepsServe a /\
     servingTeam s' = servingTeam s /\
     lineupOf s' me = lineupOf s me /\ lineupOf s' op = lineupOf s op).

(** A call whose lineup update, if any, carries no Libero. *)
Definition leavesLibero (a : GameAction) : Prop :=
  match lineupUpdate a with
  | Some u => newLibero u = None
  | None => True
  end.

(** The four score buttons of the header and the call each one makes. *)
Inductive ScoreButton : Type := MyMinus | MyPlus | OpPlus | OpMinus.

Definition clickScoreButton (s : GameViewProps) (now1 now2 : Z)
  (b : ScoreButton) : GameAction :=
  match b with
  | MyMinus => handleScoreAdjust s now1 now2 true (-1)
  | MyPlus => handleScoreAdjust s now1 now2 true 1
  | OpPlus => handleScoreAdjust s now1 now2 false 1
  | OpMinus => handleScoreAdjust s now1 now2 false (-1)
  end.

End Owner.

(* ================================================================== *)
(** ** The Court component: coordinate helpers and pointer handlers *)

Module Court.
Import Types.
Local Open Scope R_scope.

(** [type Point = { x: number, y: number }] *)
Definition Point : Type := Coordinate.

(** ['start' | 'end' | 'draw_new'] *)
Inductive DragMode : Type := DragStart | DragEnd | DrawNew.

(** The props the handlers and the effect read (lineups and roles are only
    rendered). *)
Record CourtProps : Type := mkCourtProps {
  state : GameView.InteractionState;
  activeSide : option TeamSide;
  selectedPos : option PlayerPos;
  action : option ActionType
}.

(** The trajectory state of the component. *)
Record Trajectory : Type := mkTrajectory {
  startPos : option Point;
  endPos : option Point;
  dragMode : option DragMode
}.

Definition noTrajectory : Trajectory :=
  {| startPos := None; endPos := None; dragMode := None |}.

(** One call [onDrawingComplete(start, end)]. *)
Definition Commit : Type := (Coordinate * Coordinate)%type.

(** [a < b] as a test. *)
Definition Rltb (a b : R) : bool := if Rlt_dec a b then true else false.

Definition isServe (action : option ActionType) : bool :=
  match action with
  | Some a => ActionType_eqb a SERVE
  | None => false
  end.

(** Normalize an SVG point (18x9) to percentages for storage. *)
Definition normalize (pt : Point) : Coordinate :=
  {| x := (x pt / 18) * 100;
     y := (y pt / 9) * 100 |}.

(** The centre of a rotation position.  [posNum] ranges over the six slots,
    so the initial value [{x: 9, y: 4.5}] of [p] is always overwritten. *)
Definition getPositionCenter (action : option ActionType)
  (side : TeamSide) (pos : PlayerPos) (ignoreAction : bool) : Point :=
  let posNum := match pos with L => P6 | Slot p => p end in
  match side with
  | me =>
      let p :=
        match posNum with
        | P4 => {| x := 7.5; y := 1.5 |}
        | P3 => {| x := 7.5; y := 4.5 |}
        | P2 => {| x := 7.5; y := 7.5 |}
        | P5 => {| x := 3.0; y := 1.5 |}
        | P6 => {| x := 3.0; y := 4.5 |}
        | P1 => {| x := 3.0; y := 7.5 |}
        end in
      if negb ignoreAction && isServe action
      then {| x := -0.5; y := y p |} else p
  | op =>
      let p :=
        match posNum with
        | P2 => {| x := 10.5; y := 1.5 |}
        | P3 => {| x := 10.5; y := 4.5 |}
        | P4 => {| x := 10.5; y := 7.5 |}
        | P1 => {| x := 15.0; y := 1.5 |}
        | P6 => {| x := 15.0; y := 4.5 |}
        | P5 => {| x := 15.0; y := 7.5 |}
        end in
      if negb ignoreAction && isServe action
      then {| x := 18.5; y := y p |} else p
  end.

Definition getDistance (p1 p2 : Point) : R :=
  sqrt ((x p1 - x p2) ^ 2 + (y p1 - y p2) ^ 2).

Definition HIT_RADIUS : R := 1.5.

(** [candidate && getDistance(pt, candidate) < HIT_RADIUS] *)
Definition hits (pt : Point) (candidate : option Point) : bool :=
  match candidate with
  | Some c => Rltb (getDistance pt c) HIT_RADIUS
  | None => false
  end.

Definition capturing (s : GameView.InteractionState) : bool :=
  match s with
  | GameView.DRAWING | GameView.RESULT_PENDING => true
  | _ => false
  end.

(** The auto-start effect, run when one of [state], [activeSide],
    [selectedPos], [action] has changed. *)
Definition autoStart (props : CourtProps) (t : Trajectory) : Trajectory :=
  match state props, activeSide props, selectedPos props with
  | GameView.DRAWING, Some side, Some pos =>
      {| startPos := Some (getPositionCenter (action props) side pos false);
         endPos := endPos t; dragMode := dragMode t |}
  | GameView.IDLE, _, _ =>
      {| startPos := None; endPos := None; dragMode := dragMode t |}
  | _, _, _ => t
  end.

(** [pt] is the pointer position in SVG units ([getSVGPoint] of the event). *)
Definition handlePointerDown (props : CourtProps) (t : Trajectory)
  (pt : Point) : Trajectory * list Commit :=
  if negb (capturing (state props)) then (t, [])
  else if hits pt (endPos t) then
    ({| startPos := startPos t; endPos := endPos t;
        dragMode := Some DragEnd |}, [])
  else if hits pt (startPos t) then
    ({| startPos := startPos t; endPos := endPos t;
        dragMode := Some DragStart |}, [])
  else
    (* tapping on empty space: set the end point *)
    ({| startPos := startPos t; endPos := Some pt;
        dragMode := Some DragEnd |}, []).

Definition handlePointerMove (props : CourtProps) (t : Trajectory)
  (pt : Point) : Trajectory * list Commit :=
  match dragMode t with
  | None => (t, [])
  | Some DragStart =>
      ({| startPos := Some pt; endPos := endPos t;
          dragMode := dragMode t |}, [])
  | Some DragEnd | Some DrawNew =>
      ({| startPos := startPos t; endPos := Some pt;
          dragMode := dragMode t |}, [])
  end.

(** The parent is notified only on release. *)
Definition handlePointerUp (props : CourtProps) (t : Trajectory)
  : Trajectory * list Commit :=
  ({| startPos := startPos t; endPos := endPos t; dragMode := None |},
   match startPos t, endPos t with
   | Some s, Some e => [(normalize s, normalize e)]
   | _, _ => []
   end).

(** Modelled from the spec: [denormalize], the inverse scaling the spec
    requires of the coordinate engine; no component among the sources defines
    it (the overlay maps the percentages to its own chart units instead). *)
Definition denormalize (c : Coordinate) : Point :=
  {| x := (x c / 100) * 18;
     y := (y c / 100) * 9 |}.

(** The court rectangle in SVG units, the percentage square, and the drawable
    surface [viewBox="-1 -0.5 20 10"] a pointer position comes from. *)
Definition inCourtBounds (pt : Point) : Prop :=
  0 <= x pt <= 18 /\ 0 <= y pt <= 9.

Definition inPercentRange (c : Coordinate) : Prop :=
  0 <= x c <= 100 /\ 0 <= y c <= 100.

Definition inViewBox (pt : Point) : Prop :=
  -1 <= x pt <= 19 /\ -0.5 <= y pt <= 9.5.

Definition withinRadius (pt c : Point) : Prop :=
  getDistance pt c < HIT_RADIUS.

End Court.

(* ================================================================== *)
(** ** The other Court component of the repository ([unnamed/part_000]),
       the one whose props are those [GameView] passes *)

Module CourtEarly.
Import Types.
Import Court.
Local Open Scope R_scope.

(** [normalize] and [getDistance] are the same functions as in [Court]. *)
Definition normalize : Point -> Coordinate := Court.normalize.
Definition getDistance : Point -> Point -> R := Court.getDistance.

Definition getPositionCenter (action : option ActionType)
  (side : TeamSide) (pos : PlayerPos) (ignoreAction : bool) : Point :=
  let posNum := match pos with L => P6 | Slot p => p end in
  match side with
  | me =>
      let p :=
        match posNum with
        | P4 => {| x := 7.5; y := 1.5 |}
        | P3 => {| x := 7.5; y := 4.5 |}
        | P2 => {| x := 7.5; y := 7.5 |}
        | P5 => {| x := 3.0; y := 1.5 |}
        | P6 => {| x := 3.0; y := 4.5 |}
        | P1 => {| x := 3.0; y := 7.5 |}
        end in
      if negb ignoreAction && isServe action
      then {| x := -2.0; y := y p |} else p
  | op =>
      let p :=
        match posNum with
        | P2 => {| x := 10.5; y := 1.5 |}
        | P3 => {| x := 10.5; y := 4.5 |}
        | P4 => {| x := 10.5; y := 7.5 |}
        | P1 => {| x := 15.0; y := 1.5 |}
        | P6 => {| x := 15.0; y := 4.5 |}
        | P5 => {| x := 15.0; y := 7.5 |}
        end in
      if negb ignoreAction && isServe action
      then {| x := 20.0; y := y p |} else p
  end.

Definition autoStart (props : CourtProps) (t : Trajectory) : Trajectory :=
  match state props, activeSide props, selectedPos props with
  | GameView.DRAWING, Some side, Some pos =>
      {| startPos := Some (getPositionCenter (action props) side pos false);
         endPos := endPos t; dragMode := dragMode t |}
  | GameView.IDLE, _, _ =>
      {| startPos := None; endPos := None; dragMode := dragMode t |}
  | _, _, _ => t
  end.

Definition handlePointerDown (props : CourtProps) (t : Trajectory)
  (pt : Point) : Trajectory * list Commit :=
  if negb (capturing (state props)) then (t, [])
  else if hits pt (endPos t) then
    ({| startPos := startPos t; endPos := endPos t;
        dragMode := Some DragEnd |}, [])
  else if hits pt (startPos t) then
    ({| startPos := startPos t; endPos := endPos t;
        dragMode := Some DragStart |}, [])
  else
    (* tapping on empty space: set the end point, notify the parent
       immediately *)
    ({| startPos := startPos t; endPos := Some pt;
        dragMode := Some DragEnd |},
     match startPos t with
     | Some s => [(normalize s, normalize pt)]
     | None => []
     end).

Definition handlePointerMove (props : CourtProps) (t : Trajectory)
  (pt : Point) : Trajectory * list Commit :=
  match dragMode t with
  | None => (t, [])
  | Some DragStart =>
      ({| startPos := Some pt; endPos := endPos t;
          dragMode := dragMode t |},
       match endPos t with
       | Some e => [(normalize pt, normalize e)]
       | None => []
       end)
  | Some DragEnd | Some DrawNew =>
      ({| startPos := startPos t; endPos := Some pt;
          dragMode := dragMode t |},
       match startPos t with
       | Some s => [(normalize s, normalize pt)]
       | None => []
       end)
  end.

Definition handlePointerUp (props : CourtProps) (t : Trajectory)
  : Trajectory * list Commit :=
  ({| startPos := startPos t; endPos := endPos t; dragMode := None |}, []).

End CourtEarly.

(* ================================================================== *)
(** ** The screen: [GameView] rendering a Court, with the owner behind it *)

Module Screen.
Import Types.

(** The Court as [GameView] sees it: the handlers bound to the pointer
    events of the SVG element and the effect run after a render. *)
Record CourtImpl : Type := mkCourtImpl {
  onEffect : Court.CourtProps -> Court.Trajectory -> Court.Trajectory;
  onPointerDown :
    Court.CourtProps -> Court.Trajectory -> Court.Point ->
    Court.Trajectory * list Court.Commit;
  onPointerMove :
    Court.CourtProps -> Court.Trajectory -> Court.Point ->
    Court.Trajectory * list Court.Commit;
  onPointerUp :
    Court.CourtProps -> Court.Trajectory ->
    Court.Trajectory * list Court.Commit
}.

Definition currentCourt : CourtImpl :=
  {| onEffect := Court.autoStart;
     onPointerDown := Court.handlePointerDown;
     onPointerMove := Court.handlePointerMove;
     onPointerUp := Court.handlePointerUp |}.

Definition earlyCourt : CourtImpl :=
  {| onEffect := CourtEarly.autoStart;
     onPointerDown := CourtEarly.handlePointerDown;
     onPointerMove := CourtEarly.handlePointerMove;
     onPointerUp := CourtEarly.handlePointerUp |}.

(** The inputs of the operator.  [PressPlayer] is a short press on a player
    button; the buttons of the action modal exist only in PLAYER_SELECTED and
    the result buttons are disabled outside RESULT_PENDING.  [PointerUp] is
    the release of the pointer on the court ([onMouseUp], [onTouchEnd]) and
    [PointerLeave] is the mouse leaving the court without a release
    ([onMouseLeave]); the SVG element binds all three to the release
    handler. *)
Inductive Input : Type :=
| PressPlayer (side : TeamSide) (pos : PlayerPos)
| ChooseAction (a : ActionType)
| CancelAction
| PointerDown (pt : Court.Point)
| PointerMove (pt : Court.Point)
| PointerUp
| PointerLeave
| ChooseResult (now1 now2 : Z) (r : ResultType)
| PressScore (now1 now2 : Z) (isMyTeam : bool) (delta : Z)
| PressRotate (isMyTeam : bool).

(** What a step lets out: calls of [onDrawingComplete] (Court to GameView)
    and calls of [onGameAction] (GameView to the owner). *)
Inductive Output : Type :=
| DrawingComplete (start end_ : Coordinate)
| GameActionCall (a : GameView.GameAction).

Record Screen : Type := mkScreen {
  snapshot : GameView.GameViewProps;
  hooks : GameView.Hooks;
  court : Court.Trajectory
}.

Definition courtProps (h : GameView.Hooks) : Court.CourtProps :=
  {| Court.state := GameView.state h;
     Court.activeSide := Some (GameView.activeSide h);
     Court.selectedPos := GameView.selectedPos h;
     Court.action := GameView.selectedAction h |}.

Definition CourtProps_eq_dec (a b : Court.CourtProps) : {a = b} + {a <> b}.
Proof. repeat decide equality. Defined.

(** After a render the effect runs when one of its dependencies changed. *)
Definition rerender (impl : CourtImpl) (old new : GameView.Hooks)
  (t : Court.Trajectory) : Court.Trajectory :=
  if CourtProps_eq_dec (courtProps old) (courtProps new) then t
  else onEffect impl (courtProps new) t.

(** [onDrawingComplete={handleDrawingComplete}] *)
Definition deliver (h : GameView.Hooks) (commits : list Court.Commit)
  : GameView.Hooks :=
  fold_left (fun h c => GameView.handleDrawingComplete h (fst c) (snd c))
    commits h.

Definition drawn (commits : list Court.Commit) : list Output :=
  map (fun c => DrawingComplete (fst c) (snd c)) commits.

Definition called (call : option GameView.GameAction) : list Output :=
  match call with
  | Some a => [GameActionCall a]
  | None => []
  end.

Definition pointer (impl : CourtImpl) (s : Screen)
  (r : Court.Trajectory * list Court.Commit) : Screen * list Output :=
  let h := deliver (hooks s) (snd r) in
  ({| snapshot := snapshot s; hooks := h;
      court := rerender impl (hooks s) h (fst r) |},
   drawn (snd r)).

Definition setHooks (impl : CourtImpl) (s : Screen) (h : GameView.Hooks)
  : Screen :=
  {| snapshot := snapshot s; hooks := h;
     court := rerender impl (hooks s) h (court s) |}.

Definition step (impl : CourtImpl) (s : Screen) (i : Input)
  : Screen * list Output :=
  match i with
  | PressPlayer side pos =>
      (setHooks impl s (GameView.handlePlayerSelect (hooks s) side pos), [])
  | ChooseAction a =>
      match GameView.state (hooks s) with
      | GameView.PLAYER_SELECTED =>
          (setHooks impl s (GameView.handleActionSelect (hooks s) a), [])
      | _ => (s, [])
      end
  | CancelAction =>
      match GameView.state (hooks s) with
      | GameView.PLAYER_SELECTED =>
          (setHooks impl s (GameView.resetFlow (hooks s)), [])
      | _ => (s, [])
      end
  | PointerDown pt =>
      pointer impl s (onPointerDown impl (courtProps (hooks s)) (court s) pt)
  | PointerMove pt =>
      pointer impl s (onPointerMove impl (courtProps (hooks s)) (court s) pt)
  | PointerUp | PointerLeave =>
      pointer impl s (onPointerUp impl (courtProps (hooks s)) (court s))
  | ChooseResult now1 now2 r =>
      match GameView.state (hooks s) with
      | GameView.RESULT_PENDING =>
          let '(h, call) :=
            GameView.handleResult (snapshot s) now1 now2 (hooks s) r in
          let s' := setHooks impl s h in
          ({| snapshot := Owner.applyCall (snapshot s) call;
              hooks := hooks s'; court := court s' |},
           called call)
      | _ => (s, [])
      end
  | PressScore now1 now2 isMyTeam delta =>
      let a := GameView.handleScoreAdjust (snapshot s) now1 now2
                 isMyTeam delta in
      ({| snapshot := Owner.applyGameAction (snapshot s) a;
          hooks := hooks s; court := court s |},
       [GameActionCall a])
  | PressRotate isMyTeam =>
      let a := GameView.handleRotation (snapshot s) isMyTeam in
      ({| snapshot := Owner.applyGameAction (snapshot s) a;
          hooks := hooks s; court := court s |},
       [GameActionCall a])
  end.

Fixpoint run (impl : CourtImpl) (s : Screen) (inputs : list Input)
  : Screen * list Output :=
  match inputs with
  | [] => (s, [])
  | i :: rest =>
      let '(s1, out1) := step impl s i in
      let '(s2, out2) := run impl s1 rest in
      (s2, out1 ++ out2)
  end.

Definition start (snapshot : GameView.GameViewProps) : Screen :=
  {| snapshot := snapshot; hooks := GameView.initialHooks;
     court := Court.noTrajectory |}.

End Screen.

(* ================================================================== *)
(** ** The statistics aggregator (component [StatsOverlay]) *)

Module StatsOverlay.
Import Types.
Local Open Scope Z_scope.

Record StatSummary : Type := mkStatSummary {
  attackKills : Z;
  attackTotal : Z;
  blocks : Z;
  serveAces : Z;
  serveErrors : Z;
  digs : Z;
  totalPoints : Z
}.

Section Overlay.

Variable logs : list Log.LogEntry.
Variable teamConfig : TeamConfig.

(** Filter logs for a specific team. *)
Definition getTeamLogs (side : TeamSide) : list Log.LogEntry :=
  filter
    (fun l =>
       let isMyAction := String.eqb (Log.note l) (myName teamConfig) in
       let logTeam := if isMyAction then me else op in
       TeamSide_eqb logTeam side)
    logs.

(** Filter logs for a specific player. *)
Definition getPlayerLogs (playerNum : string) (side : TeamSide)
  : list Log.LogEntry :=
  filter (fun l => String.eqb (Log.playerNumber l) playerNum)
    (getTeamLogs side).

End Overlay.

(** The increments [stats.attackTotal++], [stats.attackKills++], ... *)
Definition incAttackTotal (stats : StatSummary) : StatSummary :=
  {| attackKills := attackKills stats;
     attackTotal := attackTotal stats + 1;
     blocks := blocks stats; serveAces := serveAces stats;
     serveErrors := serveErrors stats; digs := digs stats;
     totalPoints := totalPoints stats |}.

Definition incAttackKills (stats : StatSummary) : StatSummary :=
  {| attackKills := attackKills stats + 1;
     attackTotal := attackTotal stats;
     blocks := blocks stats; serveAces := serveAces stats;
     serveErrors := serveErrors stats; digs := digs stats;
     totalPoints := totalPoints stats |}.

Definition incBlocks (stats : StatSummary) : StatSummary :=
  {| attackKills := attackKills stats; attackTotal := attackTotal stats;
     blocks := blocks stats + 1; serveAces := serveAces stats;
     serveErrors := serveErrors stats; digs := digs stats;
     totalPoints := totalPoints stats |}.

Definition incServeAces (stats : StatSummary) : StatSummary :=
  {| attackKills := attackKills stats; attackTotal := attackTotal stats;
     blocks := blocks stats; serveAces := serveAces stats + 1;
     serveErrors := serveErrors stats; digs := digs stats;
     totalPoints := totalPoints stats |}.

Definition incServeErrors (stats : StatSummary) : StatSummary :=
  {| attackKills := attackKills stats; attackTotal := attackTotal stats;
     blocks := blocks stats; serveAces := serveAces stats;
     serveErrors := serveErrors stats + 1; digs := digs stats;
     totalPoints := totalPoints stats |}.

Definition incDigs (stats : StatSummary) : StatSummary :=
  {| attackKills := attackKills stats; attackTotal := attackTotal stats;
     blocks := blocks stats; serveAces := serveAces stats;
     serveErrors := serveErrors stats; digs := digs stats + 1;
     totalPoints := totalPoints stats |}.

(** The body of the [forEach] callback: the counters after one entry. *)
Definition tally (stats : StatSummary) (l : Log.LogEntry) : StatSummary :=
  let stats :=
    if ActionType_eqb (Log.action l) ATTACK then
      let stats := incAttackTotal stats in
      if ResultType_eqb (Log.result l) POINT then incAttackKills stats
      else stats
    else stats in
  let stats :=
    if ActionType_eqb (Log.action l) BLOCK
       && ResultType_eqb (Log.result l) POINT
    then incBlocks stats
    else stats in
  let stats :=
    if ActionType_eqb (Log.action l) SERVE then
      let stats :=
        if ResultType_eqb (Log.result l) POINT then incServeAces stats
        else stats in
      if ResultType_eqb (Log.result l) ERROR then incServeErrors stats
      else stats
    else stats in
  if ActionType_eqb (Log.action l) DIG then incDigs stats else stats.

Definition calculateStats (filteredLogs : list Log.LogEntry) : StatSummary :=
  let stats :=
    {| attackKills := 0; attackTotal := 0; blocks := 0; serveAces := 0;
       serveErrors := 0; digs := 0; totalPoints := 0 |} in
  let stats := fold_left tally filteredLogs stats in
  {| attackKills := attackKills stats; attackTotal := attackTotal stats;
     blocks := blocks stats; serveAces := serveAces stats;
     serveErrors := serveErrors stats; digs := digs stats;
     totalPoints := attackKills stats + blocks stats + serveAces stats |}.

(** [Math.round] on an exact quotient: the nearest integer, halves up.  The
    quotient is evaluated exactly here; the doubles of the source round it
    before [Math.round] sees it, which matters only for a quotient that is
    an exact half, where the source may give either neighbour. *)
Definition Math_round (q : Q) : Z := Qfloor (q + (1 # 2))%Q.

(** The attack rate shown by the overlay, a whole percentage:
    [attackTotal > 0 ? Math.round((attackKills/attackTotal)*100) : 0]. *)
Definition attackRate (stats : StatSummary) : Z :=
  if attackTotal stats >? 0 then
    Math_round
      ((inject_Z (attackKills stats) / inject_Z (attackTotal stats)) * 100)%Q
  else 0.

(** The counts written the way the spec words them. *)
Definition countIf (f : Log.LogEntry -> bool) (l : list Log.LogEntry) : Z :=
  Z.of_nat (List.length (filter f l)).

Definition bump (b : bool) : Z := if b then 1 else 0.

Definition isAction (a : ActionType) (l : Log.LogEntry) : bool :=
  ActionType_eqb (Log.action l) a.

Definition isOutcome (a : ActionType) (r : ResultType) (l : Log.LogEntry)
  : bool :=
  ActionType_eqb (Log.action l) a && ResultType_eqb (Log.result l) r.

End StatsOverlay.

(* ================================================================== *)
(** ** Concrete matches used to exercise the definitions *)

Module Scenario.
Import Types.
Local Open Scope string_scope.

Definition myLineup : Lineup :=
  {| at1 := "5"; at2 := "4"; at3 := "3"; at4 := "2"; at5 := "7"; at6 := "6" |}.

Definition opLineup : Lineup :=
  {| at1 := "11"; at2 := "12"; at3 := "13";
     at4 := "14"; at5 := "15"; at6 := "16" |}.

Definition config : TeamConfig :=
  {| matchName := "G1"; myName := "Home"; opName := "Guest" |}.

(** The match right after setup, with [serving] holding serve. *)
Definition kickoff (serving : TeamSide) : GameView.GameViewProps :=
  {| GameView.teamConfig := config;
     GameView.currentSet := 1;
     GameView.initialMyLineup := myLineup;
     GameView.initialOpLineup := opLineup;
     GameView.initialMyLibero := "9";
     GameView.initialOpLibero := "19";
     GameView.myScore := 0;
     GameView.opScore := 0;
     GameView.servingTeam := serving;
     GameView.logs := [] |}.

(** The capture of an attack by my slot 3, waiting for its outcome. *)
Definition attackPending : GameView.Hooks :=
  {| GameView.state := GameView.RESULT_PENDING;
     GameView.activeSide := me;
     GameView.selectedPos := Some (Slot P3);
     GameView.selectedAction := Some ATTACK;
     GameView.startCoord := Some {| x := 10; y := 10 |};
     GameView.endCoord := Some {| x := 90; y := 90 |} |}.

(** The same capture as a sequence of inputs: my slot 3 attacks and the
    operator taps once at [target]. *)
Definition attackTo (target : Court.Point) : list Screen.Input :=
  [Screen.PressPlayer me (Slot P3); Screen.ChooseAction ATTACK;
   Screen.PointerDown target; Screen.PointerUp].

(** A pointer position in the out-of-bounds margin behind the opponent's end
    line, inside the drawable surface. *)
Definition behindEndLine : Court.Point := {| x := 18.5; y := 4.5 |}.

(** A pointer position inside the opponent's court. *)
Definition deepCorner : Court.Point := {| x := 16.2; y := 8.1 |}.

(** A Court in the drawing state with a short trajectory, and a point that
    lies within the hit radius of both of its ends. *)
Definition drawingProps : Court.CourtProps :=
  {| Court.state := GameView.DRAWING; Court.activeSide := Some me;
     Court.selectedPos := Some (Slot P3); Court.action := Some ATTACK |}.

Definition shortArrow : Court.Trajectory :=
  {| Court.startPos := Some {| x := 7.5; y := 4.5 |};
     Court.endPos := Some {| x := 8; y := 4.5 |};
     Court.dragMode := None |}.

Definition betweenEnds : Court.Point := {| x := 7.7; y := 4.5 |}.

(** The centre of my slot 3, where an attack starts, and the screen once the
    attack to [target] has been handed to [GameView]. *)
Definition slot3Center : Court.Point := {| x := 7.5; y := 4.5 |}.

Definition attackDrawn (snap : GameView.GameViewProps)
  (target : Court.Point) (drag : option Court.DragMode) : Screen.Screen :=
  {| Screen.snapshot := snap;
     Screen.hooks :=
       {| GameView.state := GameView.RESULT_PENDING;
          GameView.activeSide := me;
          GameView.selectedPos := Some (Slot P3);
          GameView.selectedAction := Some ATTACK;
          GameView.startCoord := Some (Court.normalize slot3Center);
          GameView.endCoord := Some (Court.normalize target) |};
     Screen.court :=
       {| Court.startPos := Some slot3Center;
          Court.endPos := Some target;
          Court.dragMode := drag |} |}.

(** A tap at [target] misses the start point seeded at that centre. *)
Definition farFromSlot3 (target : Court.Point) : Prop :=
  (Court.HIT_RADIUS ^ 2 <= (x target - 7.5) ^ 2 + (y target - 4.5) ^ 2)%R.

(** The same attack while the pointer is still down and nothing has been
    handed over. *)
Definition attackDragging (snap : GameView.GameViewProps)
  (target : Court.Point) : Screen.Screen :=
  {| Screen.snapshot := snap;
     Screen.hooks :=
       {| GameView.state := GameView.DRAWING;
          GameView.activeSide := me;
          GameView.selectedPos := Some (Slot P3);
          GameView.selectedAction := Some ATTACK;
          GameView.startCoord := None;
          GameView.endCoord := None |};
     Screen.court :=
       {| Court.startPos := Some slot3Center;
          Court.endPos := Some target;
          Court.dragMode := Some Court.DragEnd |} |}.

(** Tap, then drag without releasing. *)
Definition dragTo (first next : Court.Point) : list Screen.Input :=
  [Screen.PressPlayer me (Slot P3); Screen.ChooseAction ATTACK;
   Screen.PointerDown first; Screen.PointerMove next].

(** A capture started again after a first one was handed over but not
    resolved: the end point of the first capture is still on the court. *)
Definition redrawTo (first : Court.Point) : list Screen.Input :=
  attackTo first ++
  [Screen.PressPlayer me (Slot P3); Screen.ChooseAction ATTACK;
   Screen.PointerDown first].

Definition redrawGrabbed (snap : GameView.GameViewProps)
  (first : Court.Point) : Screen.Screen :=
  attackDragging snap first.

End Scenario.

(* ================================================================== *)
(** ** The setup form (component [SetupView], first component of
       [src/components/SetupView.tsx]) *)

Module SetupView.
Import Types.
Local Open Scope string_scope.

(** A character of the class [[0-9]]. *)
Definition isDigit (c : Ascii.ascii) : bool :=
  (48 <=? Ascii.nat_of_ascii c)%nat && (Ascii.nat_of_ascii c <=? 57)%nat.

(** [value.replace(/[^0-9]/g, '')].  Strings are byte strings (UTF-8); a
    byte of a character outside ASCII is never a digit, so deleting the
    non-digit bytes leaves the same digits as deleting the non-digit
    characters does. *)
Fixpoint keepDigits (value : string) : string :=
  match value with
  | EmptyString => EmptyString
  | String c rest =>
      if isDigit c then String c (keepDigits rest) else keepDigits rest
  end.

(** [null] is [None]. *)
Definition sanitizeInput (value : string) : option string :=
  let numericValue := keepDigits value in
  let numericValue :=
    if (2 <? String.length numericValue)%nat
    then substring 0 2 numericValue else numericValue in
  if (0 <? String.length numericValue)%nat && prefix "0" numericValue
  then None (* invalid *)
  else Some numericValue.

(** [{ ...prev, [pos]: val }] *)
Definition setAt (lineup : Lineup) (pos : Position) (val : string) : Lineup :=
  match pos with
  | P1 => {| at1 := val; at2 := at2 lineup; at3 := at3 lineup;
             at4 := at4 lineup; at5 := at5 lineup; at6 := at6 lineup |}
  | P2 => {| at1 := at1 lineup; at2 := val; at3 := at3 lineup;
             at4 := at4 lineup; at5 := at5 lineup; at6 := at6 lineup |}
  | P3 => {| at1 := at1 lineup; at2 := at2 lineup; at3 := val;
             at4 := at4 lineup; at5 := at5 lineup; at6 := at6 lineup |}
  | P4 => {| at1 := at1 lineup; at2 := at2 lineup; at3 := at3 lineup;
             at4 := val; at5 := at5 lineup; at6 := at6 lineup |}
  | P5 => {| at1 := at1 lineup; at2 := at2 lineup; at3 := at3 lineup;
             at4 := at4 lineup; at5 := val; at6 := at6 lineup |}
  | P6 => {| at1 := at1 lineup; at2 := at2 lineup; at3 := at3 lineup;
             at4 := at4 lineup; at5 := at5 lineup; at6 := val |}
  end.

(** [Object.values(lineup)]: the values in ascending key order. *)
Definition values (lineup : Lineup) : list string :=
  [at1 lineup; at2 lineup; at3 lineup; at4 lineup; at5 lineup; at6 lineup].

(** The [useState] cells of the form ([errorMsg] is recomputed by the effect
    after every change, see [errorMsg] below). *)
Record Form : Type := mkForm {
  matchName : string;
  myName : string;
  opName : string;
  firstServe : TeamSide;
  myLineup : Lineup;
  opLineup : Lineup;
  myLibero : string;
  opLibero : string
}.

Definition emptyLineup : Lineup :=
  {| at1 := ""; at2 := ""; at3 := ""; at4 := ""; at5 := ""; at6 := "" |}.

(** The form as it is mounted without initial props. *)
Definition blankForm : Form :=
  {| matchName := ""; myName := ""; opName := ""; firstServe := me;
     myLineup := emptyLineup; opLineup := emptyLineup;
     myLibero := ""; opLibero := "" |}.

(** The input of position [pos] passes [pos.toString()] and the handler
    reads it back with [parseInt]; the position itself is used here. *)
Definition handlePlayerChange (f : Form) (isMyTeam : bool) (pos : Position)
  (value : string) : Form :=
  match sanitizeInput value with
  | None => f
  | Some val =>
      if isMyTeam then
        {| matchName := matchName f; myName := myName f; opName := opName f;
           firstServe := firstServe f;
           myLineup := setAt (myLineup f) pos val; opLineup := opLineup f;
           myLibero := myLibero f; opLibero := opLibero f |}
      else
        {| matchName := matchName f; myName := myName f; opName := opName f;
           firstServe := firstServe f;
           myLineup := myLineup f; opLineup := setAt (opLineup f) pos val;
           myLibero := myLibero f; opLibero := opLibero f |}
  end.

Definition handleLiberoChange (f : Form) (isMyTeam : bool) (value : string)
  : Form :=
  match sanitizeInput value with
  | None => f
  | Some val =>
      if isMyTeam then
        {| matchName := matchName f; myName := myName f; opName := opName f;
           firstServe := firstServe f;
           myLineup := myLineup f; opLineup := opLineup f;
           myLibero := val; opLibero := opLibero f |}
      else
        {| matchName := matchName f; myName := myName f; opName := opName f;
           firstServe := firstServe f;
           myLineup := myLineup f; opLineup := opLineup f;
           myLibero := myLibero f; opLibero := val |}
  end.

(** A JavaScript [Set] of strings: the members in insertion order. *)
Definition setHas (s : list string) (n : string) : bool :=
  existsb (String.eqb n) s.

Definition setAdd (s : list string) (n : string) : list string :=
  if setHas s n then s else s ++ [n].

Section Validation.

(** [String.prototype.trim], left abstract: the properties below hold
    whatever it removes. *)
Variable trim : string -> string.

Definition blank (n : string) : bool := String.eqb (trim n) "".

(** The identifiers [getDuplicates] looks at. *)
Definition nums (lineup : Lineup) (libero : string) : list string :=
  filter (fun n => negb (blank n)) (values lineup ++ [libero]).

(** The body of the [forEach]: the sets [seen] and [duplicates] after [n]. *)
Definition track (sets : list string * list string) (n : string)
  : list string * list string :=
  let '(seen, duplicates) := sets in
  let duplicates := if setHas seen n then setAdd duplicates n else duplicates in
  (setAdd seen n, duplicates).

Definition getDuplicates (lineup : Lineup) (libero : string) : list string :=
  snd (fold_left track (nums lineup libero) ([], [])).

Definition hasEmptyFields (lineup : Lineup) : bool :=
  existsb blank (values lineup).

(** [dups.join(', ')] *)
Definition join (l : list string) : string := String.concat ", " l.

(** The message the effect stores after a change of the lineups or the
    Liberos. *)
Definition errorMsg (f : Form) : option string :=
  let myDups := getDuplicates (myLineup f) (myLibero f) in
  let opDups := getDuplicates (opLineup f) (opLibero f) in
  let myEmpty := hasEmptyFields (myLineup f) in
  let opEmpty := hasEmptyFields (opLineup f) in
  if myEmpty then Some "請輸入我方所有先發背號"
  else if opEmpty then Some "請輸入對手所有先發背號"
  else if (0 <? List.length myDups)%nat
  then Some ("我方隊伍背號重複: " ++ join myDups)
  else if (0 <? List.length opDups)%nat
  then Some ("對手隊伍背號重複: " ++ join opDups)
  else None.

(** The arguments of one call of [onStart]. *)
Record StartCall : Type := onStart {
  config : TeamConfig;
  startMyLineup : Lineup;
  startOpLineup : Lineup;
  startMyLibero : string;
  startOpLibero : string;
  startFirstServe : TeamSide
}.

(** [s || d] on strings: the empty string is falsy. *)
Definition orDefault (s d : string) : string :=
  if String.eqb s "" then d else s.

(** [if (errorMsg)]: [null] and the empty string are falsy. *)
Definition truthy (m : option string) : bool :=
  match m with
  | Some s => negb (String.eqb s "")
  | None => false
  end.

Definition startGame (f : Form) : option StartCall :=
  let finalMyName := orDefault (trim (myName f)) "我方球隊" in
  let finalOpName := orDefault (trim (opName f)) "對手球隊" in
  if truthy (errorMsg f) then None
  else
    Some (onStart
            {| Types.matchName := matchName f; Types.myName := finalMyName;
               Types.opName := finalOpName |}
            (myLineup f) (opLineup f) (myLibero f) (opLibero f)
            (firstServe f)).

End Validation.

(** What the operator can do to the form. *)
Inductive Edit : Type :=
| PlayerChange (isMyTeam : bool) (pos : Position) (value : string)
| LiberoChange (isMyTeam : bool) (value : string)
| TestFill
| SetMatchName (value : string)
| SetMyName (value : string)
| SetOpName (value : string)
| SetFirstServe (side : TeamSide).

Definition handleTestFill (f : Form) : Form :=
  {| matchName := "練習賽 G1"; myName := "主場隊伍"; opName := "客場隊伍";
     firstServe := firstServe f;
     myLineup := {| at1 := "1"; at2 := "2"; at3 := "3";
                    at4 := "4"; at5 := "5"; at6 := "6" |};
     opLineup := {| at1 := "11"; at2 := "12"; at3 := "13";
                    at4 := "14"; at5 := "15"; at6 := "16" |};
     myLibero := "99"; opLibero := "88" |}.

Definition edit (f : Form) (e : Edit) : Form :=
  match e with
  | PlayerChange isMyTeam pos value => handlePlayerChange f isMyTeam pos value
  | LiberoChange isMyTeam value => handleLiberoChange f isMyTeam value
  | TestFill => handleTestFill f
  | SetMatchName v =>
      {| matchName := v; myName := myName f; opName := opName f;
         firstServe := firstServe f; myLineup := myLineup f;
         opLineup := opLineup f; myLibero := myLibero f;
         opLibero := opLibero f |}
  | SetMyName v =>
      {| matchName := matchName f; myName := v; opName := opName f;
         firstServe := firstServe f; myLineup := myLineup f;
         opLineup := opLineup f; myLibero := myLibero f;
         opLibero := opLibero f |}
  | SetOpName v =>
      {| matchName := matchName f; myName := myName f; opName := v;
         firstServe := firstServe f; myLineup := myLineup f;
         opLineup := opLineup f; myLibero := myLibero f;
         opLibero := opLibero f |}
  | SetFirstServe side =>
      {| matchName := matchName f; myName := myName f; opName := opName f;
         firstServe := side; myLineup := myLineup f;
         opLineup := opLineup f; myLibero := myLibero f;
         opLibero := opLibero f |}
  end.

(** A jersey number as the form accepts it: one or two digits, the first
    one not 0. *)
Definition allDigits (s : string) : bool :=
  forallb isDigit (list_ascii_of_string s).

Definition jersey (s : string) : bool :=
  (1 <=? String.length s)%nat && (String.length s <=? 2)%nat
  && allDigits s && negb (prefix "0" s).

(** The first digit of the text typed. *)
Definition firstDigit (value : string) : option Ascii.ascii :=
  match keepDigits value with
  | EmptyString => None
  | String c _ => Some c
  end.

(** White space of the ASCII range removed at both ends: what [trim] does
    on a string of one-byte characters. *)
Definition isSpace (c : Ascii.ascii) : bool :=
  let n := Ascii.nat_of_ascii c in
  ((9 <=? n)%nat && (n <=? 13)%nat) || (n =? 32)%nat.

Fixpoint trimStart (s : string) : string :=
  match s with
  | EmptyString => EmptyString
  | String c rest => if isSpace c then trimStart rest else s
  end.

Fixpoint trimEnd (s : string) : string :=
  match s with
  | EmptyString => EmptyString
  | String c rest =>
      match trimEnd rest with
      | EmptyString => if isSpace c then EmptyString else String c EmptyString
      | r => String c r
      end
  end.

Definition asciiTrim (s : string) : string := trimEnd (trimStart s).

(** Every entry of the form is empty or a jersey number. *)
Definition entries (f : Form) : list string :=
  values (myLineup f) ++ values (opLineup f) ++ [myLibero f; opLibero f].

Definition entriesValid (f : Form) : Prop :=
  forall v, In v (entries f) -> v = "" \/ jersey v = true.

(** A form with which the match can start: no blank starter and no
    identifier twice within a team (a blank Libero does not count). *)
Definition ready (trim : string -> string) (f : Form) : Prop :=
  hasEmptyFields trim (myLineup f) = false /\
  hasEmptyFields trim (opLineup f) = false /\
  NoDup (nums trim (myLineup f) (myLibero f)) /\
  NoDup (nums trim (opLineup f) (opLibero f)).

(** The sets of [getDuplicates] after the identifiers [done]. *)
Definition tracks (done : list string) (sets : list string * list string)
  : Prop :=
  (forall x, In x (fst sets) <-> In x done) /\
  (forall x, In x (snd sets) <-> (2 <= count_occ string_dec done x)%nat) /\
  NoDup (snd sets).

End SetupView.

(* ================================================================== *)
(** ** Substitution and the long press on a player button (component
       [GameView], continued) *)

Module Roster.
Import Types GameView.
Local Open Scope string_scope.

(** The [useState] cells of the substitution modal. *)
Record SubState : Type := mkSubState {
  showSubModal : bool;
  subNumber : string;
  subTarget : option (TeamSide * PlayerPos)
}.

Section Confirm.

(** [String.prototype.trim], left abstract as in [SetupView]. *)
Variable trim : string -> string.
Variable props : GameViewProps.

(** Returns the modal's cells after the handler and the call of
    [onGameAction] it made, if any. *)
Definition handleSubConfirm (m : SubState) : SubState * option GameAction :=
  match subTarget m with
  | Some (side, pos) =>
      if String.eqb (trim (subNumber m)) "" then
        ({| showSubModal := false; subNumber := subNumber m;
            subTarget := subTarget m |}, None)
      else
        let isMyTeam := TeamSide_eqb side me in
        let currentLineup :=
          if isMyTeam then initialMyLineup props else initialOpLineup props in
        let '(currentLineup, newLiberoVal) :=
          match pos with
          | L => (currentLineup, Some (subNumber m))
          | Slot p => (SetupView.setAt currentLineup p (subNumber m), None)
          end in
        ({| showSubModal := false; subNumber := subNumber m;
            subTarget := None |},
         Some (onGameAction None None
                 (Some {| isMyTeam := isMyTeam; newLineup := currentLineup;
                          newLibero := newLiberoVal |})
                 None))
  | None =>
      ({| showSubModal := false; subNumber := subNumber m;
          subTarget := subTarget m |}, None)
  end.

End Confirm.

(** The slot a player stands in after one rotation. *)
Definition slotAfterRotation (p : Position) : Position :=
  match p with
  | P2 => P1 | P1 => P6 | P6 => P5 | P5 => P4 | P4 => P3 | P3 => P2
  end.

(** *** The long press *)

(** The two refs of the component. *)
Record PressRefs : Type := mkPressRefs {
  longPressTimer : option nat;
  isLongPress : bool
}.

(** The timers of the window: the pending callbacks of [handlePlayerDown]
    (each one remembers the button it was set for) and the next identifier
    [setTimeout] hands out.  Identifiers are positive. *)
Record Timers : Type := mkTimers {
  pending : list (nat * (TeamSide * PlayerPos));
  nextId : nat
}.

Record Panel : Type := mkPanel {
  hooks : Hooks;
  sub : SubState;
  refs : PressRefs;
  timers : Timers
}.

Definition clearTimeout (id : nat)
  (l : list (nat * (TeamSide * PlayerPos)))
  : list (nat * (TeamSide * PlayerPos)) :=
  filter (fun t => negb (Nat.eqb (fst t) id)) l.

Definition handlePlayerDown (p : Panel) (side : TeamSide) (pos : PlayerPos)
  : Panel :=
  let id := nextId (timers p) in
  {| hooks := hooks p;
     sub := sub p;
     refs := {| longPressTimer := Some id; isLongPress := false |};
     timers := {| pending := pending (timers p) ++ [(id, (side, pos))];
                  nextId := S id |} |}.

(** The callback of the timer [id], run by the window once 1.5 s have
    passed, if the timer is still pending. *)
Definition timerFires (p : Panel) (id : nat) : Panel :=
  match find (fun t => Nat.eqb (fst t) id) (pending (timers p)) with
  | Some (_, target) =>
      {| hooks := hooks p;
         sub := {| showSubModal := true; subNumber := "";
                   subTarget := Some target |};
         refs := {| longPressTimer := longPressTimer (refs p);
                    isLongPress := true |};
         timers := {| pending := clearTimeout id (pending (timers p));
                      nextId := nextId (timers p) |} |}
  | None => p
  end.

Definition handlePlayerUp (p : Panel) (side : TeamSide) (pos : PlayerPos)
  : Panel :=
  let '(ref, kept) :=
    match longPressTimer (refs p) with
    | Some id =>
        if Nat.eqb id 0 then (Some id, pending (timers p))
        else (None, clearTimeout id (pending (timers p)))
    | None => (None, pending (timers p))
    end in
  {| hooks :=
       if negb (isLongPress (refs p))
       then handlePlayerSelect (hooks p) side pos (* normal click *)
       else hooks p;
     sub := sub p;
     refs := {| longPressTimer := ref; isLongPress := isLongPress (refs p) |};
     timers := {| pending := kept; nextId := nextId (timers p) |} |}.

(** The identifiers in use are positive and below the next one. *)
Definition timersFresh (t : Timers) : Prop :=
  (0 < nextId t)%nat /\
  forall e, In e (pending t) -> (fst e < nextId t)%nat.

Definition mounted (h : Hooks) : Panel :=
  {| hooks := h;
     sub := {| showSubModal := false; subNumber := ""; subTarget := None |};
     refs := {| longPressTimer := None; isLongPress := false |};
     timers := {| pending := []; nextId := 1 |} |}.

End Roster.

(* ================================================================== *)
(** ** Observations on runs of the screen *)

Module Trace.
Import Types.

(** A release of the pointer on the court, and the mouse leaving the court
    without one.  Both run the release handler of the Court. *)
Definition isRelease (i : Screen.Input) : bool :=
  match i with
  | Screen.PointerUp => true
  | _ => false
  end.

Definition isLeave (i : Screen.Input) : bool :=
  match i with
  | Screen.PointerLeave => true
  | _ => false
  end.

Definition isCommit (o : Screen.Output) : bool :=
  match o with
  | Screen.DrawingComplete _ _ => true
  | _ => false
  end.

(** How many times the pointer was released, how many times the mouse left
    the court, and how many times the Court called [onDrawingComplete]. *)
Definition releases (inputs : list Screen.Input) : nat :=
  List.length (filter isRelease inputs).

Definition leaves (inputs : list Screen.Input) : nat :=
  List.length (filter isLeave inputs).

Definition commits (out : list Screen.Output) : nat :=
  List.length (filter isCommit out).

(** A log entry with both ends of its trajectory. *)
Definition complete (e : Log.LogEntry) : Prop :=
  Log.startCoord e <> None /\ Log.endCoord e <> None.

(** The text [handleScoreAdjust] puts into the note of its entry. *)
Definition manualNote (delta : Z) : string :=
  ("Manual Adjust " ++ (if (delta >? 0)%Z then "+" else "")
     ++ toString delta)%string.

(** A log entry as [handleScoreAdjust] synthesizes it: no player, no
    trajectory, action Attack in slot 1. *)
Definition manual (e : Log.LogEntry) : Prop :=
  Log.startCoord e = None /\ Log.endCoord e = None /\
  Log.playerNumber e = EmptyString /\
  Log.action e = ATTACK /\ Log.position e = Slot P1 /\
  exists delta : Z, Log.note e = manualNote delta.

(** While an outcome is awaited, [GameView] holds both ends of the
    trajectory. *)
Definition pendingHasTrajectory (h : GameView.Hooks) : Prop :=
  GameView.state h = GameView.RESULT_PENDING ->
  GameView.startCoord h <> None /\ GameView.endCoord h <> None.

(** The screens the operator can bring about after the mount. *)
Definition reachable (impl : Screen.CourtImpl) (s : Screen.Screen) : Prop :=
  exists snap inputs, s = fst (Screen.run impl (Screen.start snap) inputs).

(** While a capture is drawn or awaits its outcome the court holds a start
    point, and the action modal is up for a chosen player only. *)
Definition showsStart (s : Screen.Screen) : Prop :=
  (Court.capturing (GameView.state (Screen.hooks s)) = true ->
   Court.startPos (Screen.court s) <> None) /\
  (GameView.state (Screen.hooks s) = GameView.PLAYER_SELECTED ->
   GameView.selectedPos (Screen.hooks s) <> None).

(** The end point the Court holds after a tap at [pt] during a capture: a
    tap on one of the two ends grabs it and places nothing. *)
Definition tapEnd (t : Court.Trajectory) (pt : Court.Point)
  : option Court.Point :=
  if Court.hits pt (Court.endPos t) then Court.endPos t
  else if Court.hits pt (Court.startPos t) then Court.endPos t
  else Some pt.

(** The change of a side's score a call carries. *)
Definition deltaOf (side : TeamSide) (a : GameView.GameAction) : Z :=
  match GameView.scoreUpdate a, side with
  | Some u, me => GameView.myDelta u
  | Some u, op => GameView.opDelta u
  | None, _ => 0%Z
  end.

(** The entry records the set, the scores and the serving side as they are
    once the deltas of the call [a] are applied to the snapshot [props]. *)
Definition recordsAfter (props : GameView.GameViewProps)
  (a : GameView.GameAction) (e : Log.LogEntry) : Prop :=
  Log.setNumber e = GameView.currentSet props /\
  Log.myScore e = (GameView.myScore props + deltaOf me a)%Z /\
  Log.opScore e = (GameView.opScore props + deltaOf op a)%Z /\
  Log.servingTeam e
    = orElse (GameView.servingTeamUpdate a) (GameView.servingTeam props).

(** The entry [e], appended to [logs], is listed for [side] and not for the
    other side. *)
Definition filedUnder (cfg : TeamConfig) (logs : list Log.LogEntry)
  (e : Log.LogEntry) (side : TeamSide) : Prop :=
  StatsOverlay.getTeamLogs (logs ++ [e]) cfg side
    = StatsOverlay.getTeamLogs logs cfg side ++ [e] /\
  StatsOverlay.getTeamLogs (logs ++ [e]) cfg (Owner.opponent side)
    = StatsOverlay.getTeamLogs logs cfg (Owner.opponent side).

End Trace.

(* ================================================================== *)
(** ** The shot chart of the overlay ([renderShotChart]) *)

Module ShotChart.
Import Types.
Local Open Scope R_scope.

Inductive Orientation : Type := landscape | portrait.

Definition isPortrait (o : Orientation) : bool :=
  match o with portrait => true | landscape => false end.

(** Only attacks and serves that carry both coordinates are drawn. *)
Definition drawLogs (logsToUse : list Log.LogEntry) : list Log.LogEntry :=
  filter
    (fun l =>
       (ActionType_eqb (Log.action l) ATTACK
        || ActionType_eqb (Log.action l) SERVE)
       && match Log.startCoord l with Some _ => true | None => false end
       && match Log.endCoord l with Some _ => true | None => false end)
    logsToUse.

(** The long axis (18 m) is 200 units, the short one (9 m) 100 units. *)
Definition mapX (o : Orientation) (percentX percentY : R) : R :=
  if isPortrait o then percentY else percentX * 2.

Definition mapY (o : Orientation) (percentX percentY : R) : R :=
  if isPortrait o then percentX * 2 else percentY.

(** Where the chart draws a stored coordinate. *)
Definition plot (o : Orientation) (c : Coordinate) : Coordinate :=
  {| x := mapX o (x c) (y c); y := mapY o (x c) (y c) |}.

(** The view boxes ["-40 -40 280 180"] and ["-40 -40 180 280"], and the
    court rectangle drawn at the origin (200 by 100, or 100 by 200). *)
Definition inChartViewBox (o : Orientation) (p : Coordinate) : Prop :=
  if isPortrait o
  then -40 <= x p <= -40 + 180 /\ -40 <= y p <= -40 + 280
  else -40 <= x p <= -40 + 280 /\ -40 <= y p <= -40 + 180.

Definition inChartCourt (o : Orientation) (p : Coordinate) : Prop :=
  if isPortrait o
  then 0 <= x p <= 100 /\ 0 <= y p <= 200
  else 0 <= x p <= 200 /\ 0 <= y p <= 100.

End ShotChart.

(* ================================================================== *)
(** ** The court as a figure *)

Module Geometry.
Import Types.
Local Open Scope R_scope.

(** The point reflection of the court through its centre (9, 4.5). *)
Definition reflect (p : Court.Point) : Court.Point :=
  {| x := 18 - x p; y := 9 - y p |}.

End Geometry.

(* ================================================================== *)
(** ** The player list of the overlay and its top scorers
       ([activePlayersList]) *)

Module Ranking.
Import Types StatsOverlay.
Local Open Scope Z_scope.

(** The team test of [getTeamLogs]: the note of the entry is my team's
    name. *)
Definition isMine (cfg : TeamConfig) (l : Log.LogEntry) : bool :=
  String.eqb (Log.note l) (myName cfg).

Definition isPoint (l : Log.LogEntry) : bool :=
  ResultType_eqb (Log.result l) POINT.

(** [{ number: p, points: ... }] *)
Record PlayerPoints : Type := mkPlayerPoints {
  number : string;
  points : Z
}.

(** [Array.from(new Set(l))]: the first occurrences, in order. *)
Definition unique (l : list string) : list string :=
  fold_left SetupView.setAdd l [].

(** [[...l].sort((a, b) => b.points - a.points)]: the sort is stable, so
    with this comparator its result is the one of inserting the elements
    from the last to the first, each before the first element that has not
    more points. *)
Fixpoint insertByPoints (a : PlayerPoints) (l : list PlayerPoints)
  : list PlayerPoints :=
  match l with
  | [] => [a]
  | b :: rest =>
      if points a <? points b then b :: insertByPoints a rest
      else a :: l
  end.

Definition sortByPoints (l : list PlayerPoints) : list PlayerPoints :=
  fold_right insertByPoints [] l.

(** [sorted[i]?.points > 0 ? sorted[i].number : null] *)
Definition topAt (i : nat) (sorted : list PlayerPoints) : option string :=
  match nth_error sorted i with
  | Some a => if points a >? 0 then Some (number a) else None
  | None => None
  end.

Record PlayersList : Type := mkPlayersList {
  players : list string;
  top1 : option string;
  top2 : option string
}.

Section List.

(** [Array.prototype.sort] with the comparator
    [parseInt(a) - parseInt(b)], left abstract: the comparator is not a
    number on every identifier (the empty one of a manual entry), and the
    order the sort then produces is up to the engine. *)
Variable sortPlayers : list string -> list string.

Variable logs : list Log.LogEntry.
Variable teamConfig : TeamConfig.

Definition pointsOf (teamLogs : list Log.LogEntry) (p : string) : Z :=
  totalPoints
    (calculateStats
       (filter (fun l => String.eqb (Log.playerNumber l) p) teamLogs)).

Definition activePlayersList (activeTab : TeamSide) : PlayersList :=
  let teamLogs := getTeamLogs logs teamConfig activeTab in
  let players := sortPlayers (unique (map Log.playerNumber teamLogs)) in
  let playerPoints :=
    map (fun p => {| number := p; points := pointsOf teamLogs p |}) players in
  let sortedByPoints := sortByPoints playerPoints in
  {| players := players;
     top1 := topAt 0 sortedByPoints;
     top2 := topAt 1 sortedByPoints |}.

End List.

(** [a] is the first element of [l] with the most points: everything before
    it has fewer points, nothing after it has more. *)
Definition firstBest (a : PlayerPoints) (l : list PlayerPoints) : Prop :=
  exists before after,
    l = before ++ a :: after /\
    (forall b, In b before -> points b < points a) /\
    (forall b, In b after -> points b <= points a).

(** The sum of [f] over the players of a list. *)
Definition total (f : string -> Z) (l : list string) : Z :=
  fold_right (fun p acc => f p + acc) 0 l.

End Ranking.

(* ================================================================== *)
(** * Properties *)

(** ** Rotation engine and score/serve ledger *)

Module LedgerFacts.
Import Types GameView Owner.
Local Open Scope Z_scope.

Lemma TeamSide_eqb_eq (a b : TeamSide) : TeamSide_eqb a b = true <-> a = b.
Proof. destruct a, b; simpl; split; congruence. Qed.

Lemma TeamSide_eqb_neq (a b : TeamSide) : TeamSide_eqb a b = false <-> a <> b.
Proof. destruct a, b; simpl; split; congruence. Qed.

Lemma opponent_differs (side : TeamSide) : opponent side <> side.
Proof. destruct side; discriminate. Qed.

(** Six rotations bring every player back to the slot it started from. *)
Lemma rotation_order_six (lineup : Lineup) :
  Nat.iter 6 getRotatedLineup lineup = lineup.
Proof. destruct lineup; reflexivity. Qed.

Lemma leavesLibero_frame (s : GameViewProps) (a : GameAction) :
  leavesLibero a ->
  initialMyLibero (applyGameAction s a) = initialMyLibero s /\
  initialOpLibero (applyGameAction s a) = initialOpLibero s.
Proof.
  unfold leavesLibero, applyGameAction; simpl.
  destruct (lineupUpdate a) as [[mine nl lib]|]; simpl; [|tauto].
  intros ->; destruct mine; simpl; tauto.
Qed.

Lemma handleScoreAdjust_leavesLibero s now1 now2 mine delta :
  leavesLibero (handleScoreAdjust s now1 now2 mine delta).
Proof.
  unfold leavesLibero, handleScoreAdjust.
  destruct (delta >? 0), mine, (servingTeam s); simpl; trivial.
Qed.

Lemma handleResult_leavesLibero s now1 now2 h r a :
  snd (handleResult s now1 now2 h r) = Some a -> leavesLibero a.
Proof.
  unfold leavesLibero, handleResult.
  destruct (selectedPos h), (selectedAction h); simpl; try discriminate.
  destruct r, (activeSide h), (servingTeam s); simpl;
    intros [= <-]; simpl; trivial.
Qed.

(** C3: one application of the rotation engine to a six-slot lineup yields
    the relabeling new[1]=old[2], new[6]=old[1], new[5]=old[6],
    new[4]=old[5], new[3]=old[4], new[2]=old[3]; it is defined on every
    lineup, and neither the manual rotation request nor a rotation caused by
    a serve change carries or changes a Libero identifier. *)
Theorem rotation_engine_relabels :
  forall (lineup : Lineup) (s : GameViewProps) (mine : bool),
    (exists rotated : Lineup,
        getRotatedLineup lineup = rotated /\
        lineupAt rotated P1 = lineupAt lineup P2 /\
        lineupAt rotated P6 = lineupAt lineup P1 /\
        lineupAt rotated P5 = lineupAt lineup P6 /\
        lineupAt rotated P4 = lineupAt lineup P5 /\
        lineupAt rotated P3 = lineupAt lineup P4 /\
        lineupAt rotated P2 = lineupAt lineup P3) /\
    (let side := if mine then me else op in
     let a := handleRotation s mine in
     let s' := applyGameAction s a in
     lineupUpdate a =
       Some {| isMyTeam := mine;
               newLineup := getRotatedLineup (lineupOf s side);
               newLibero := None |} /\
     newLog a = None /\ scoreUpdate a = None /\ servingTeamUpdate a = None /\
     lineupOf s' side = getRotatedLineup (lineupOf s side) /\
     lineupOf s' (opponent side) = lineupOf s (opponent side) /\
     liberoOf s' me = liberoOf s me /\ liberoOf s' op = liberoOf s op) /\
    (forall now1 now2 delta,
        let a := handleScoreAdjust s now1 now2 mine delta in
        leavesLibero a /\
        liberoOf (applyGameAction s a) me = liberoOf s me /\
        liberoOf (applyGameAction s a) op = liberoOf s op) /\
    (forall now1 now2 h r a,
        snd (handleResult s now1 now2 h r) = Some a ->
        leavesLibero a /\
        liberoOf (applyGameAction s a) me = liberoOf s me /\
        liberoOf (applyGameAction s a) op = liberoOf s op).
Proof.
  intros lineup s mine. split; [|split; [|split]].
  - exists (getRotatedLineup lineup). repeat split.
  - destruct mine; simpl; repeat split.
  - intros now1 now2 delta a.
    pose proof (handleScoreAdjust_leavesLibero s now1 now2 mine delta) as H.
    split; [exact H|]. exact (leavesLibero_frame s _ H).
  - intros now1 now2 h r a Ha.
    pose proof (handleResult_leavesLibero _ _ _ _ _ _ Ha) as H.
    split; [exact H|]. exact (leavesLibero_frame s _ H).
Qed.

(** C5: an outcome selected while no player slot or no action is selected
    is rejected: the handler makes no call of [onGameAction] (no event, no
    score, serve or lineup delta), keeps the capture state, and the snapshot
    stays as it was. *)
Theorem outcome_without_context_rejected :
  forall (s : GameViewProps) (now1 now2 : Z) (h : Hooks) (r : ResultType),
    selectedPos h = None \/ selectedAction h = None ->
    handleResult s now1 now2 h r = (h, None) /\
    applyCall s (snd (handleResult s now1 now2 h r)) = s.
Proof.
  intros s now1 now2 h r H.
  assert (E : handleResult s now1 now2 h r = (h, None)).
  { unfold handleResult. destruct H as [-> | ->]; [reflexivity|].
    destruct (selectedPos h); reflexivity. }
  rewrite E. split; reflexivity.
Qed.

Lemma outcome_without_context_rejected_witness :
  handleResult (Scenario.kickoff me) 7 7 initialHooks POINT
    = (initialHooks, None) /\
  applyCall (Scenario.kickoff me)
    (snd (handleResult (Scenario.kickoff me) 7 7 initialHooks POINT))
    = Scenario.kickoff me.
Proof.
  apply (outcome_without_context_rejected
           (Scenario.kickoff me) 7 7 initialHooks POINT).
  left; reflexivity.
Defined.

(** C2: an outcome confirmed in RESULT_PENDING with a player slot and an
    action selected emits one event; for Point the acting side's score grows
    by exactly 1 and the other side's score is unchanged, for Error the
    opposing side's score grows by exactly 1 and the acting side's score is
    unchanged, for Normal no score delta is emitted and neither score
    changes.  The event's score snapshot is the score after the event. *)
Theorem outcome_updates_score :
  forall (s : GameViewProps) (now1 now2 : Z) (h : Hooks) (r : ResultType)
         (pos : PlayerPos) (act : ActionType),
    state h = RESULT_PENDING ->
    selectedPos h = Some pos ->
    selectedAction h = Some act ->
    exists (a : GameAction) (e : Log.LogEntry),
      snd (handleResult s now1 now2 h r) = Some a /\
      newLog a = Some e /\
      let s' := applyGameAction s a in
      let acting := activeSide h in
      Log.myScore e = myScore s' /\ Log.opScore e = opScore s' /\
      match r with
      | POINT =>
          scoreOf s' acting = scoreOf s acting + 1 /\
          scoreOf s' (opponent acting) = scoreOf s (opponent acting)
      | ERROR =>
          scoreOf s' (opponent acting) = scoreOf s (opponent acting) + 1 /\
          scoreOf s' acting = scoreOf s acting
      | NORMAL =>
          scoreUpdate a = None /\
          scoreOf s' me = scoreOf s me /\ scoreOf s' op = scoreOf s op
      end.
Proof.
  intros s now1 now2 h r pos act _ Hpos Hact.
  unfold handleResult. rewrite Hpos, Hact.
  destruct r, (activeSide h), (servingTeam s); simpl;
    eexists; eexists; (split; [reflexivity|]); (split; [reflexivity|]);
    simpl; repeat split; lia.
Qed.

Lemma outcome_updates_score_witness :
  exists (a : GameAction) (e : Log.LogEntry),
    snd (handleResult (Scenario.kickoff me) 7 7 Scenario.attackPending POINT)
      = Some a /\
    newLog a = Some e /\
    let s' := applyGameAction (Scenario.kickoff me) a in
    Log.myScore e = myScore s' /\ Log.opScore e = opScore s' /\
    scoreOf s' me = scoreOf (Scenario.kickoff me) me + 1 /\
    scoreOf s' op = scoreOf (Scenario.kickoff me) op.
Proof.
  exact (outcome_updates_score (Scenario.kickoff me) 7 7
           Scenario.attackPending POINT (Slot P3) ATTACK
           eq_refl eq_refl eq_refl).
Defined.

(** C1: on the full-capture path (outcome Point or Error confirmed with a
    player slot and an action selected) and on the manual path (a positive
    score adjustment), the point-winning side (acting side for Point,
    opposing side for Error, incremented side for the adjustment) gains serve
    and has its lineup replaced by one rotation of it if and only if it
    differs from the serving side; if it already held serve, no serve delta
    and no lineup delta is emitted and serving team and both lineups stay as
    they were. *)
Theorem serve_transfer_rule :
  forall (s : GameViewProps) (now1 now2 : Z),
    (forall (h : Hooks) (r : ResultType) (pos : PlayerPos)
            (act : ActionType) (winner : TeamSide),
        selectedPos h = Some pos ->
        selectedAction h = Some act ->
        pointWinnerOf (activeSide h) r = Some winner ->
        exists a : GameAction,
          snd (handleResult s now1 now2 h r) = Some a /\
          serveRule s winner a) /\
    (forall (mine : bool) (delta : Z),
        delta > 0 ->
        serveRule s (if mine then me else op)
          (handleScoreAdjust s now1 now2 mine delta)).
Proof.
  intros s now1 now2. split.
  - intros h r pos act winner Hpos Hact Hw.
    unfold handleResult. rewrite Hpos, Hact.
    unfold serveRule, transfersServe, keepsServe.
    destruct r, (activeSide h); simpl in Hw; inversion Hw; subst winner;
      destruct s as [cfg cs ml ol mlib olib ms os srv lg];
      destruct srv; simpl;
      eexists; (split; [reflexivity|]); simpl;
      repeat split; intros; try congruence; try tauto;
      repeat match goal with
             | H : _ /\ _ |- _ => destruct H
             end; try congruence.
  - intros mine delta Hd.
    unfold serveRule, transfersServe, keepsServe, handleScoreAdjust.
    assert (E : (delta >? 0) = true) by (apply Z.gtb_lt; lia).
    rewrite E.
    destruct s as [cfg cs ml ol mlib olib ms os srv lg];
      destruct mine, srv; simpl;
      repeat split; intros; try congruence; try tauto;
      repeat match goal with
             | H : _ /\ _ |- _ => destruct H
             end; try congruence.
Qed.

Lemma serve_transfer_rule_witness :
  (exists a : GameAction,
      snd (handleResult (Scenario.kickoff op) 7 7
             Scenario.attackPending POINT) = Some a /\
      serveRule (Scenario.kickoff op) me a) /\
  serveRule (Scenario.kickoff op) me
    (handleScoreAdjust (Scenario.kickoff op) 7 7 true 1).
Proof.
  split.
  - exact (proj1 (serve_transfer_rule (Scenario.kickoff op) 7 7)
             Scenario.attackPending POINT (Slot P3) ATTACK me
             eq_refl eq_refl eq_refl).
  - exact (proj2 (serve_transfer_rule (Scenario.kickoff op) 7 7)
             true 1 eq_refl).
Defined.

(** C10: a manual adjustment with a negative delta emits no lineup delta and
    no serve delta; after the owner has applied the call, serving team, both
    lineups and both Liberos are as before, the adjusted side's score has
    moved by the delta (one point down for the two decrement buttons, which
    pass -1) and the other score is unchanged; the synthesized log entry has
    result Normal and records the unchanged serving team. *)
Theorem score_decrement_frame :
  forall (s : GameViewProps) (now1 now2 : Z) (mine : bool) (delta : Z),
    delta < 0 ->
    let a := handleScoreAdjust s now1 now2 mine delta in
    let s' := applyGameAction s a in
    let side := if mine then me else op in
    lineupUpdate a = None /\ servingTeamUpdate a = None /\
    scoreUpdate a =
      Some {| myDelta := if mine then delta else 0;
              opDelta := if mine then 0 else delta |} /\
    (exists e : Log.LogEntry,
        newLog a = Some e /\
        Log.result e = NORMAL /\
        Log.servingTeam e = servingTeam s /\
        Log.myScore e = myScore s' /\ Log.opScore e = opScore s' /\
        logs s' = logs s ++ [e]) /\
    servingTeam s' = servingTeam s /\
    lineupOf s' me = lineupOf s me /\ lineupOf s' op = lineupOf s op /\
    liberoOf s' me = liberoOf s me /\ liberoOf s' op = liberoOf s op /\
    scoreOf s' side = scoreOf s side + delta /\
    scoreOf s' (opponent side) = scoreOf s (opponent side) /\
    (delta = -1 -> scoreOf s' side = scoreOf s side - 1) /\
    teamConfig s' = teamConfig s /\ currentSet s' = currentSet s.
Proof.
  intros s now1 now2 mine delta Hd.
  assert (E : (delta >? 0) = false) by (rewrite Z.gtb_ltb; apply Z.ltb_ge; lia).
  unfold handleScoreAdjust. rewrite E.
  destruct mine; simpl; repeat split; try lia;
    eexists; repeat split; simpl; lia.
Qed.

Lemma score_decrement_frame_witness :
  let s := Scenario.kickoff op in
  let a := clickScoreButton s 7 7 MyMinus in
  let s' := applyGameAction s a in
  lineupUpdate a = None /\ servingTeamUpdate a = None /\
  servingTeam s' = op /\ scoreOf s' me = -1 /\ scoreOf s' op = 0.
Proof.
  pose proof (score_decrement_frame (Scenario.kickoff op) 7 7 true (-1)
                eq_refl) as H.
  cbv zeta in H.
  destruct H as (H1 & H2 & _ & _ & H5 & _ & _ & _ & _ & H10 & H11 & _).
  repeat split; assumption.
Defined.

(** The spec's scenario A: my slot 3 scores while my side serves. *)
Lemma scenario_A :
  exists (a : GameAction) (e : Log.LogEntry),
    snd (handleResult (Scenario.kickoff me) 7 7 Scenario.attackPending POINT)
      = Some a /\
    newLog a = Some e /\
    Log.action e = ATTACK /\ Log.result e = POINT /\
    Log.playerNumber e = "3"%string /\
    let s' := applyGameAction (Scenario.kickoff me) a in
    myScore s' = 1 /\ opScore s' = 0 /\ servingTeam s' = me /\
    initialMyLineup s' = Scenario.myLineup /\
    logs s' = [e].
Proof. eexists; eexists; repeat split. Qed.

(** The spec's scenario B: the same point while the opponent serves. *)
Lemma scenario_B :
  exists a : GameAction,
    snd (handleResult (Scenario.kickoff op) 7 7 Scenario.attackPending POINT)
      = Some a /\
    let s' := applyGameAction (Scenario.kickoff op) a in
    myScore s' = 1 /\ servingTeam s' = me /\
    initialMyLineup s' =
      {| at1 := "4"; at2 := "3"; at3 := "2";
         at4 := "7"; at5 := "6"; at6 := "5" |}%string /\
    initialOpLineup s' = Scenario.opLineup.
Proof. eexists; repeat split. Qed.

End LedgerFacts.

(** ** Coordinates, hit testing and the pointer handlers *)

Module CourtFacts.
Import Types Court.
Local Open Scope R_scope.

Lemma Rltb_true (a b : R) : Rltb a b = true <-> a < b.
Proof. unfold Rltb. destruct (Rlt_dec a b); split; intros; try easy. Qed.

Lemma Rltb_false (a b : R) : Rltb a b = false <-> ~ a < b.
Proof. unfold Rltb. destruct (Rlt_dec a b); split; intros; try easy. Qed.

Lemma HIT_RADIUS_sqrt : sqrt (HIT_RADIUS ^ 2) = HIT_RADIUS.
Proof. apply sqrt_pow2. unfold HIT_RADIUS. lra. Qed.

Lemma squares_nonneg (a b : R) : 0 <= a ^ 2 + b ^ 2.
Proof. nra. Qed.

(** The hit test compares squared distances. *)
Lemma withinRadius_squares (pt c : Point) :
  withinRadius pt c <->
  (x pt - x c) ^ 2 + (y pt - y c) ^ 2 < HIT_RADIUS ^ 2.
Proof.
  unfold withinRadius, getDistance. split; intros H.
  - apply sqrt_lt_0_alt. rewrite HIT_RADIUS_sqrt. exact H.
  - rewrite <- HIT_RADIUS_sqrt. apply sqrt_lt_1_alt.
    split; [apply squares_nonneg | exact H].
Qed.

Lemma hits_true (pt : Point) (candidate : option Point) :
  hits pt candidate = true <->
  exists c, candidate = Some c /\ withinRadius pt c.
Proof.
  unfold hits, withinRadius. destruct candidate as [c|].
  - rewrite Rltb_true. split.
    + intros H; exists c; auto.
    + intros (c' & [= <-] & H); exact H.
  - split; [discriminate | intros (c & [=] & _)].
Qed.

Lemma hits_false (pt : Point) (candidate : option Point) :
  hits pt candidate = false <->
  forall c, candidate = Some c -> ~ withinRadius pt c.
Proof.
  unfold hits, withinRadius. destruct candidate as [c|].
  - rewrite Rltb_false. split.
    + intros H c' [= <-]; exact H.
    + intros H; apply H; reflexivity.
  - split; [intros _ c [=] | reflexivity].
Qed.

Lemma normalize_in_range (pt : Point) :
  inCourtBounds pt <-> inPercentRange (normalize pt).
Proof.
  unfold inCourtBounds, inPercentRange, normalize; simpl. lra.
Qed.


Lemma far_not_hit (pt c : Point) :
  HIT_RADIUS ^ 2 <= (x pt - x c) ^ 2 + (y pt - y c) ^ 2 ->
  hits pt (Some c) = false.
Proof.
  intros H. apply hits_false. intros c' [= <-] Hw.
  apply withinRadius_squares in Hw. lra.
Qed.

Lemma near_hit (pt c : Point) :
  (x pt - x c) ^ 2 + (y pt - y c) ^ 2 < HIT_RADIUS ^ 2 ->
  hits pt (Some c) = true.
Proof.
  intros H. apply hits_true. exists c. split; [reflexivity|].
  apply withinRadius_squares. exact H.
Qed.

(** *** The three exits of [handlePointerDown] *)

Lemma down_grabs_end (props : CourtProps) (t : Trajectory) (pt : Point) :
  capturing (state props) = true ->
  hits pt (endPos t) = true ->
  handlePointerDown props t pt =
    ({| startPos := startPos t; endPos := endPos t;
        dragMode := Some DragEnd |}, []).
Proof. intros Hc He. unfold handlePointerDown. rewrite Hc, He. reflexivity. Qed.

Lemma down_grabs_start (props : CourtProps) (t : Trajectory) (pt : Point) :
  capturing (state props) = true ->
  hits pt (endPos t) = false ->
  hits pt (startPos t) = true ->
  handlePointerDown props t pt =
    ({| startPos := startPos t; endPos := endPos t;
        dragMode := Some DragStart |}, []).
Proof.
  intros Hc He Hs. unfold handlePointerDown. rewrite Hc, He, Hs. reflexivity.
Qed.

Lemma down_places_end (props : CourtProps) (t : Trajectory) (pt : Point) :
  capturing (state props) = true ->
  hits pt (endPos t) = false ->
  hits pt (startPos t) = false ->
  handlePointerDown props t pt =
    ({| startPos := startPos t; endPos := Some pt;
        dragMode := Some DragEnd |}, []).
Proof.
  intros Hc He Hs. unfold handlePointerDown. rewrite Hc, He, Hs. reflexivity.
Qed.

Lemma down_ignored (props : CourtProps) (t : Trajectory) (pt : Point) :
  capturing (state props) = false ->
  handlePointerDown props t pt = (t, []).
Proof. intros Hc. unfold handlePointerDown. rewrite Hc. reflexivity. Qed.

(** The hit test on an optional endpoint, by squared Euclidean distance. *)
Lemma hits_near (pt c : Point) (candidate : option Point) :
  candidate = Some c ->
  (x pt - x c) ^ 2 + (y pt - y c) ^ 2 < 1.5 ^ 2 ->
  hits pt candidate = true.
Proof. intros -> H. apply near_hit. exact H. Qed.

Lemma hits_far (pt : Point) (candidate : option Point) :
  (forall c, candidate = Some c ->
             1.5 ^ 2 <= (x pt - x c) ^ 2 + (y pt - y c) ^ 2) ->
  hits pt candidate = false.
Proof.
  intros H. destruct candidate as [c|]; [|reflexivity].
  apply far_not_hit. apply H. reflexivity.
Qed.

(** C8: on a pointer-down during trajectory capture, with the hit radius
    taken as the Euclidean distance 1.5 in court units (a point is within
    the radius of an endpoint when the squares of the two coordinate
    differences add up to less than 1.5 squared): a point within the radius
    of the stored end point grabs the end point, also when the start point
    is within the radius too (end-point priority); a point within the
    radius of the stored start point and of no stored end point grabs the
    start point; in both cases the stored endpoints stay as they are (no new
    end point is placed) and nothing is committed.  A new end point is
    placed at the pointer exactly in the remaining case, when no stored
    endpoint is within the radius.  Distances are compared as real numbers;
    the doubles of the source round the square root, so a pointer whose
    distance from an endpoint is within rounding of 1.5 may fall on either
    side there. *)
Theorem pointer_down_grabs_endpoint :
  forall (props : CourtProps) (t : Trajectory) (pt : Point),
    capturing (state props) = true ->
    (forall e, endPos t = Some e ->
       (x pt - x e) ^ 2 + (y pt - y e) ^ 2 < 1.5 ^ 2 ->
       handlePointerDown props t pt =
         ({| startPos := startPos t; endPos := endPos t;
             dragMode := Some DragEnd |}, [])) /\
    (forall s, startPos t = Some s ->
       (x pt - x s) ^ 2 + (y pt - y s) ^ 2 < 1.5 ^ 2 ->
       (forall e, endPos t = Some e ->
                  1.5 ^ 2 <= (x pt - x e) ^ 2 + (y pt - y e) ^ 2) ->
       handlePointerDown props t pt =
         ({| startPos := startPos t; endPos := endPos t;
             dragMode := Some DragStart |}, [])) /\
    (forall s e, startPos t = Some s -> endPos t = Some e ->
       (x pt - x s) ^ 2 + (y pt - y s) ^ 2 < 1.5 ^ 2 ->
       (x pt - x e) ^ 2 + (y pt - y e) ^ 2 < 1.5 ^ 2 ->
       handlePointerDown props t pt =
         ({| startPos := Some s; endPos := Some e;
             dragMode := Some DragEnd |}, [])) /\
    ((forall s, startPos t = Some s ->
                1.5 ^ 2 <= (x pt - x s) ^ 2 + (y pt - y s) ^ 2) ->
     (forall e, endPos t = Some e ->
                1.5 ^ 2 <= (x pt - x e) ^ 2 + (y pt - y e) ^ 2) ->
     handlePointerDown props t pt =
       ({| startPos := startPos t; endPos := Some pt;
           dragMode := Some DragEnd |}, [])).
Proof.
  intros props t pt Hc. repeat split.
  - intros e He Hw. apply down_grabs_end; [exact Hc|].
    apply (hits_near pt e); assumption.
  - intros s Hs Hw Hn. apply down_grabs_start; [exact Hc| |].
    + apply hits_far. exact Hn.
    + apply (hits_near pt s); assumption.
  - intros s e Hs He Hws Hwe. rewrite <- Hs, <- He.
    apply down_grabs_end; [exact Hc|].
    apply (hits_near pt e); assumption.
  - intros Hs He.
    apply down_places_end; [exact Hc| |]; apply hits_far; assumption.
Qed.

Lemma pointer_down_grabs_endpoint_witness :
  handlePointerDown Scenario.drawingProps Scenario.shortArrow
    Scenario.betweenEnds =
  ({| startPos := Some {| x := 7.5; y := 4.5 |};
      endPos := Some {| x := 8; y := 4.5 |};
      dragMode := Some DragEnd |}, []).
Proof.
  apply (proj1 (proj2 (proj2 (pointer_down_grabs_endpoint
                                Scenario.drawingProps Scenario.shortArrow
                                Scenario.betweenEnds eq_refl)))
           {| x := 7.5; y := 4.5 |} {| x := 8; y := 4.5 |}
           eq_refl eq_refl);
    simpl; lra.
Defined.

(** *** Release-only commit in the Court component *)

(** In [Court], pointer-down and pointer-move never call
    [onDrawingComplete]; a move changes at most the endpoint being dragged;
    the release hands over the normalized endpoints when both exist. *)
Lemma court_commits_on_release_only (props : CourtProps) (t : Trajectory)
  (pt : Point) :
  snd (handlePointerDown props t pt) = [] /\
  snd (handlePointerMove props t pt) = [] /\
  dragMode (fst (handlePointerMove props t pt)) = dragMode t /\
  (startPos (fst (handlePointerMove props t pt)) = startPos t \/
   endPos (fst (handlePointerMove props t pt)) = endPos t) /\
  (forall s e, startPos t = Some s -> endPos t = Some e ->
     snd (handlePointerUp props t) = [(normalize s, normalize e)]) /\
  (startPos t = None \/ endPos t = None ->
     snd (handlePointerUp props t) = []).
Proof.
  repeat split.
  - unfold handlePointerDown.
    destruct (capturing (state props)), (hits pt (endPos t)),
      (hits pt (startPos t)); reflexivity.
  - unfold handlePointerMove. destruct (dragMode t) as [[]|]; reflexivity.
  - unfold handlePointerMove.
    destruct (dragMode t) as [[]|] eqn:E; simpl; congruence.
  - unfold handlePointerMove. destruct (dragMode t) as [[]|]; simpl; auto.
  - intros s e Hs He. unfold handlePointerUp. rewrite Hs, He. reflexivity.
  - intros [H|H]; unfold handlePointerUp; rewrite H; simpl;
      [|destruct (startPos t)]; reflexivity.
Qed.

(** On the screen, a pointer-move over [Court] leaves the capture state of
    [GameView] where it is. *)
Lemma court_move_keeps_state (s : Screen.Screen) (pt : Point) :
  Screen.hooks (fst (Screen.step Screen.currentCourt s (Screen.PointerMove pt)))
    = Screen.hooks s /\
  snd (Screen.step Screen.currentCourt s (Screen.PointerMove pt)) = [].
Proof.
  unfold Screen.step, Screen.pointer; simpl.
  destruct (court_commits_on_release_only
              (Screen.courtProps (Screen.hooks s)) (Screen.court s) pt)
    as (_ & -> & _).
  split; reflexivity.
Qed.

(** *** The exits of [handlePointerDown] in the earlier Court *)

Lemma early_down_places_end (props : CourtProps) (t : Trajectory)
  (pt : Point) :
  capturing (state props) = true ->
  hits pt (endPos t) = false ->
  hits pt (startPos t) = false ->
  CourtEarly.handlePointerDown props t pt =
    ({| startPos := startPos t; endPos := Some pt;
        dragMode := Some DragEnd |},
     match startPos t with
     | Some s => [(normalize s, normalize pt)]
     | None => []
     end).
Proof.
  intros Hc He Hs. unfold CourtEarly.handlePointerDown.
  rewrite Hc, He, Hs. reflexivity.
Qed.

Lemma early_down_grabs_end (props : CourtProps) (t : Trajectory)
  (pt : Point) :
  capturing (state props) = true ->
  hits pt (endPos t) = true ->
  CourtEarly.handlePointerDown props t pt =
    ({| startPos := startPos t; endPos := endPos t;
        dragMode := Some DragEnd |}, []).
Proof.
  intros Hc He. unfold CourtEarly.handlePointerDown.
  rewrite Hc, He. reflexivity.
Qed.

(** *** Whole captures on the screen *)

Lemma deepCorner_far : Scenario.farFromSlot3 Scenario.deepCorner.
Proof. unfold Scenario.farFromSlot3, HIT_RADIUS; simpl; lra. Qed.

Lemma behindEndLine_far : Scenario.farFromSlot3 Scenario.behindEndLine.
Proof. unfold Scenario.farFromSlot3, HIT_RADIUS; simpl; lra. Qed.

(** With [Court], tap-and-release hands the trajectory over once, on the
    release. *)
Lemma attack_capture (snap : GameView.GameViewProps) (target : Point) :
  Scenario.farFromSlot3 target ->
  Screen.run Screen.currentCourt (Screen.start snap)
    (Scenario.attackTo target) =
  (Scenario.attackDrawn snap target None,
   [Screen.DrawingComplete (normalize Scenario.slot3Center)
      (normalize target)]).
Proof.
  intros Hfar. unfold Scenario.attackTo.
  cbn -[handlePointerDown normalize].
  rewrite down_places_end;
    [|reflexivity|reflexivity|apply far_not_hit; exact Hfar].
  reflexivity.
Qed.

(** With [Court], tap-and-drag without release hands nothing over and the
    capture stays in DRAWING. *)
Lemma drag_capture (snap : GameView.GameViewProps) (first next : Point) :
  Scenario.farFromSlot3 first ->
  Screen.run Screen.currentCourt (Screen.start snap)
    (Scenario.dragTo first next) =
  (Scenario.attackDragging snap next, []).
Proof.
  intros Hfar. unfold Scenario.dragTo.
  cbn -[handlePointerDown normalize].
  rewrite down_places_end;
    [|reflexivity|reflexivity|apply far_not_hit; exact Hfar].
  reflexivity.
Qed.

(** With the earlier Court, the same tap-and-drag has already handed the
    trajectory over twice, once on the tap and once on the move. *)
Lemma early_drag_capture (snap : GameView.GameViewProps)
  (first next : Point) :
  Scenario.farFromSlot3 first ->
  Screen.run Screen.earlyCourt (Screen.start snap)
    (Scenario.dragTo first next) =
  (Scenario.attackDrawn snap next (Some DragEnd),
   [Screen.DrawingComplete (normalize Scenario.slot3Center)
      (normalize first);
    Screen.DrawingComplete (normalize Scenario.slot3Center)
      (normalize next)]).
Proof.
  intros Hfar. unfold Scenario.dragTo.
  cbn -[CourtEarly.handlePointerDown normalize].
  rewrite early_down_places_end;
    [|reflexivity|reflexivity|apply far_not_hit; exact Hfar].
  reflexivity.
Qed.

Lemma run_app (impl : Screen.CourtImpl) (s : Screen.Screen)
  (xs ys : list Screen.Input) :
  Screen.run impl s (xs ++ ys) =
  (fst (Screen.run impl (fst (Screen.run impl s xs)) ys),
   snd (Screen.run impl s xs)
     ++ snd (Screen.run impl (fst (Screen.run impl s xs)) ys)).
Proof.
  revert s. induction xs as [|i xs IH]; intros s; simpl.
  - destruct (Screen.run impl s ys); reflexivity.
  - destruct (Screen.step impl s i) as [s1 o1].
    rewrite IH.
    destruct (Screen.run impl s1 xs) as [s2 o2]; simpl.
    destruct (Screen.run impl s2 ys) as [s3 o3]; simpl.
    rewrite app_assoc. reflexivity.
Qed.

(** With the earlier Court, tap-and-release hands the trajectory over on the
    tap; the release adds nothing. *)
Lemma early_attack_capture (snap : GameView.GameViewProps) (target : Point) :
  Scenario.farFromSlot3 target ->
  Screen.run Screen.earlyCourt (Screen.start snap)
    (Scenario.attackTo target) =
  (Scenario.attackDrawn snap target None,
   [Screen.DrawingComplete (normalize Scenario.slot3Center)
      (normalize target)]).
Proof.
  intros Hfar. unfold Scenario.attackTo.
  cbn -[CourtEarly.handlePointerDown normalize].
  rewrite early_down_places_end;
    [|reflexivity|reflexivity|apply far_not_hit; exact Hfar].
  reflexivity.
Qed.

Lemma hits_itself (pt : Point) : hits pt (Some pt) = true.
Proof. apply near_hit. unfold HIT_RADIUS. nra. Qed.

(** With the earlier Court, a capture started again over an unresolved one
    is in DRAWING with the old end point grabbed. *)
Lemma early_redraw (snap : GameView.GameViewProps) (first : Point) :
  Scenario.farFromSlot3 first ->
  fst (Screen.run Screen.earlyCourt (Screen.start snap)
         (Scenario.redrawTo first)) =
  Scenario.redrawGrabbed snap first.
Proof.
  intros Hfar. unfold Scenario.redrawTo.
  rewrite run_app, (early_attack_capture snap first Hfar).
  cbn -[CourtEarly.handlePointerDown normalize].
  rewrite early_down_grabs_end; [reflexivity|reflexivity|apply hits_itself].
Qed.

(** C4, on the earlier Court component: after my slot 3 and Attack are
    chosen, a tap on the court followed by one drag-move, with the pointer
    still down, has called the drawing-complete commit twice (on the tap and
    on the move) and [GameView] is already in RESULT_PENDING; a drag-move in
    DRAWING moves [GameView] to RESULT_PENDING; the release never commits.
    On the same inputs the Court component commits nothing and the capture
    stays in DRAWING. *)
Theorem early_court_commits_during_drag :
  let snap := Scenario.kickoff me in
  let inputs := Scenario.dragTo Scenario.deepCorner Scenario.behindEndLine in
  let early := Screen.run Screen.earlyCourt (Screen.start snap) inputs in
  let current := Screen.run Screen.currentCourt (Screen.start snap) inputs in
  let again :=
    fst (Screen.run Screen.earlyCourt (Screen.start snap)
           (Scenario.redrawTo Scenario.deepCorner)) in
  let moved :=
    Screen.step Screen.earlyCourt again
      (Screen.PointerMove Scenario.behindEndLine) in
  (GameView.state (Screen.hooks (fst early)) = GameView.RESULT_PENDING /\
   snd early =
     [Screen.DrawingComplete (normalize Scenario.slot3Center)
        (normalize Scenario.deepCorner);
      Screen.DrawingComplete (normalize Scenario.slot3Center)
        (normalize Scenario.behindEndLine)]) /\
  (GameView.state (Screen.hooks again) = GameView.DRAWING /\
   GameView.state (Screen.hooks (fst moved)) = GameView.RESULT_PENDING /\
   snd moved =
     [Screen.DrawingComplete (normalize Scenario.slot3Center)
        (normalize Scenario.behindEndLine)]) /\
  (forall props t, snd (CourtEarly.handlePointerUp props t) = []) /\
  (GameView.state (Screen.hooks (fst current)) = GameView.DRAWING /\
   snd current = []).
Proof.
  cbv zeta.
  rewrite (early_drag_capture _ _ _ deepCorner_far).
  rewrite (drag_capture _ _ _ deepCorner_far).
  rewrite (early_redraw _ _ deepCorner_far).
  repeat split.
Qed.

(** C7: [normalize] scales the two axes linearly by 100/18 and 100/9; it is
    invertible: [denormalize] undoes it on every point (so in particular on
    the court, and within every positive tolerance), and two points with the
    same normalization are the same point. *)
Theorem normalize_linear_invertible :
  forall p : Point,
    x (normalize p) = x p * (100 / 18) /\
    y (normalize p) = y p * (100 / 9) /\
    denormalize (normalize p) = p /\
    (forall eps : R, 0 < eps ->
       Rabs (x (denormalize (normalize p)) - x p) < eps /\
       Rabs (y (denormalize (normalize p)) - y p) < eps) /\
    (forall q : Point, normalize p = normalize q -> p = q).
Proof.
  intros [px py].
  assert (E : denormalize (normalize {| x := px; y := py |})
              = {| x := px; y := py |}).
  { unfold denormalize, normalize; simpl. f_equal; field. }
  repeat split.
  - simpl. field.
  - simpl. field.
  - exact E.
  - rewrite E. simpl. replace (px - px) with 0 by ring.
    rewrite Rabs_R0. assumption.
  - rewrite E. simpl. replace (py - py) with 0 by ring.
    rewrite Rabs_R0. assumption.
  - intros [qx qy]. unfold normalize; simpl. intros [= Hx Hy].
    f_equal; lra.
Qed.

(** The zone centres lie on the court; the serve anchors lie beside it. *)
Lemma zone_center_on_court (action : option ActionType) (side : TeamSide)
  (pos : PlayerPos) :
  inCourtBounds (getPositionCenter action side pos true) /\
  (isServe action = false ->
   inCourtBounds (getPositionCenter action side pos false)) /\
  (isServe action = true ->
   ~ inCourtBounds (getPositionCenter action side pos false)).
Proof.
  unfold inCourtBounds, getPositionCenter.
  split; [|split]; try intros ->;
    destruct side, pos as [[]|]; simpl; lra.
Qed.

(** The claim C6 fails: an attack drawn to a point of the margin behind the
    end line is stored with a coordinate above 100. *)
Lemma stored_coordinate_beyond_range :
  let s :=
    fst (Screen.run Screen.currentCourt (Screen.start (Scenario.kickoff me))
           (Scenario.attackTo Scenario.behindEndLine
              ++ [Screen.ChooseResult 7 7 NORMAL])) in
  inViewBox Scenario.behindEndLine /\
  exists (e : Log.LogEntry) (c : Coordinate),
    GameView.logs (Screen.snapshot s) = [e] /\
    Log.endCoord e = Some c /\
    ~ inPercentRange c.
Proof.
  cbv zeta. split.
  - unfold inViewBox; simpl; lra.
  - rewrite run_app, (attack_capture _ _ behindEndLine_far).
    cbn -[normalize].
    eexists; eexists. split; [reflexivity|]. split; [reflexivity|].
    unfold inPercentRange; simpl. lra.
Qed.

(** C6, amended: every coordinate handed over on release is the
    normalization of a stored trajectory endpoint, and it has both components
    in [0,100] exactly when that endpoint lies within the court's bounds
    0..18 by 0..9.  Endpoints outside these bounds are stored: a tap in the
    margin of the drawing surface around the court places the end point
    there, and the release hands it over with a component outside [0,100];
    for a Serve the start point is seeded at the serve anchor beside the end
    line, which lies on the drawing surface and outside the court for every
    side and position, and the release hands it over with a component
    outside [0,100]. *)
Theorem committed_coordinates_in_range :
  (forall (props : CourtProps) (t : Trajectory) (s e : Coordinate),
      In (s, e) (snd (handlePointerUp props t)) ->
      exists ps pe : Point,
        startPos t = Some ps /\ endPos t = Some pe /\
        s = normalize ps /\ e = normalize pe /\
        (inPercentRange s <-> inCourtBounds ps) /\
        (inPercentRange e <-> inCourtBounds pe)) /\
  (forall (props : CourtProps) (t : Trajectory) (ps pt : Point),
      capturing (state props) = true ->
      startPos t = Some ps ->
      1.5 ^ 2 <= (x pt - x ps) ^ 2 + (y pt - y ps) ^ 2 ->
      (forall pe, endPos t = Some pe ->
                  1.5 ^ 2 <= (x pt - x pe) ^ 2 + (y pt - y pe) ^ 2) ->
      inViewBox pt -> ~ inCourtBounds pt ->
      snd (handlePointerUp props (fst (handlePointerDown props t pt)))
        = [(normalize ps, normalize pt)] /\
      ~ inPercentRange (normalize pt)) /\
  (forall (props : CourtProps) (t : Trajectory) (side : TeamSide)
          (pos : PlayerPos) (pe : Point),
      state props = GameView.DRAWING ->
      activeSide props = Some side ->
      selectedPos props = Some pos ->
      action props = Some SERVE ->
      endPos t = Some pe ->
      let anchor := getPositionCenter (Some SERVE) side pos false in
      startPos (autoStart props t) = Some anchor /\
      inViewBox anchor /\ ~ inCourtBounds anchor /\
      snd (handlePointerUp props (autoStart props t))
        = [(normalize anchor, normalize pe)] /\
      ~ inPercentRange (normalize anchor)).
Proof.
  split; [|split].
  - intros props t s e. unfold handlePointerUp; simpl.
    destruct (startPos t) as [ps|], (endPos t) as [pe|]; simpl;
      try contradiction.
    intros [[= <- <-]|[]]. exists ps, pe.
    split; [reflexivity|]. split; [reflexivity|].
    split; [reflexivity|]. split; [reflexivity|].
    split; symmetry; apply normalize_in_range.
  - intros props t ps pt Hc Hs Hfs Hfe Hv Hout.
    rewrite down_places_end;
      [|exact Hc|apply hits_far; exact Hfe
       |rewrite Hs; apply far_not_hit; exact Hfs].
    unfold handlePointerUp. cbn [fst snd startPos endPos]. rewrite Hs.
    split; [reflexivity|].
    intros Hr. apply Hout, normalize_in_range, Hr.
  - intros props t side pos pe Hst Hside Hpos Hact He anchor.
    assert (Hseed : autoStart props t
                    = {| startPos := Some anchor; endPos := endPos t;
                         dragMode := dragMode t |}).
    { unfold autoStart. rewrite Hst, Hside, Hpos, Hact. reflexivity. }
    assert (Hout : ~ inCourtBounds anchor).
    { unfold anchor, inCourtBounds, getPositionCenter.
      destruct side, pos as [[]|]; simpl; lra. }
    rewrite Hseed. cbn [startPos]. split; [reflexivity|].
    split.
    { unfold anchor, inViewBox, getPositionCenter.
      destruct side, pos as [[]|]; simpl; lra. }
    split; [exact Hout|].
    unfold handlePointerUp. cbn [fst snd startPos endPos]. rewrite He.
    split; [reflexivity|].
    intros Hr. apply Hout, normalize_in_range, Hr.
Qed.

Lemma committed_coordinates_in_range_witness :
  snd (handlePointerUp Scenario.drawingProps
         (fst (handlePointerDown Scenario.drawingProps Scenario.shortArrow
                 Scenario.behindEndLine)))
    = [(normalize {| x := 7.5; y := 4.5 |},
        normalize Scenario.behindEndLine)] /\
  ~ inPercentRange (normalize Scenario.behindEndLine).
Proof.
  apply (proj1 (proj2 committed_coordinates_in_range)
           Scenario.drawingProps Scenario.shortArrow
           {| x := 7.5; y := 4.5 |} Scenario.behindEndLine
           eq_refl eq_refl).
  - simpl; lra.
  - intros pe [= <-]. simpl; lra.
  - unfold inViewBox; simpl; lra.
  - unfold inCourtBounds; simpl; lra.
Defined.

End CourtFacts.

(** ** The statistics aggregator *)

Module StatsFacts.
Import Types StatsOverlay.
Local Open Scope Z_scope.

Lemma countIf_cons (f : Log.LogEntry -> bool) (l : Log.LogEntry)
  (ls : list Log.LogEntry) :
  countIf f (l :: ls) = bump (f l) + countIf f ls.
Proof.
  unfold countIf, bump; simpl filter.
  destruct (f l); [simpl List.length; rewrite Nat2Z.inj_succ|]; lia.
Qed.

(** What one entry adds to each counter. *)
Lemma tally_counters (stats : StatSummary) (l : Log.LogEntry) :
  attackTotal (tally stats l)
    = attackTotal stats + bump (isAction ATTACK l) /\
  attackKills (tally stats l)
    = attackKills stats + bump (isOutcome ATTACK POINT l) /\
  blocks (tally stats l) = blocks stats + bump (isOutcome BLOCK POINT l) /\
  serveAces (tally stats l)
    = serveAces stats + bump (isOutcome SERVE POINT l) /\
  serveErrors (tally stats l)
    = serveErrors stats + bump (isOutcome SERVE ERROR l) /\
  digs (tally stats l) = digs stats + bump (isAction DIG l).
Proof.
  unfold tally, isAction, isOutcome, bump.
  destruct (Log.action l), (Log.result l); simpl; repeat split; lia.
Qed.

(** The counters after the whole [forEach]. *)
Lemma forEach_counters (ls : list Log.LogEntry) :
  forall stats : StatSummary,
    let final := fold_left tally ls stats in
    attackTotal final = attackTotal stats + countIf (isAction ATTACK) ls /\
    attackKills final
      = attackKills stats + countIf (isOutcome ATTACK POINT) ls /\
    blocks final = blocks stats + countIf (isOutcome BLOCK POINT) ls /\
    serveAces final = serveAces stats + countIf (isOutcome SERVE POINT) ls /\
    serveErrors final
      = serveErrors stats + countIf (isOutcome SERVE ERROR) ls /\
    digs final = digs stats + countIf (isAction DIG) ls.
Proof.
  induction ls as [|l ls IH]; intros stats; cbv zeta.
  - unfold countIf; simpl. repeat split; lia.
  - simpl fold_left. specialize (IH (tally stats l)). cbv zeta in IH.
    destruct IH as (I1 & I2 & I3 & I4 & I5 & I6).
    destruct (tally_counters stats l) as (T1 & T2 & T3 & T4 & T5 & T6).
    rewrite !countIf_cons. repeat split; lia.
Qed.

Lemma Math_round_nearest (q : Q) :
  (q - (1 # 2) < inject_Z (Math_round q) /\
   inject_Z (Math_round q) <= q + (1 # 2))%Q.
Proof.
  unfold Math_round. split.
  - pose proof (Qlt_floor (q + (1 # 2))) as H.
    rewrite inject_Z_plus in H. change (inject_Z 1) with 1%Q in H.
    Lqa.lra.
  - apply Qfloor_le.
Qed.

(** C9: on every list of log entries the aggregator counts attack attempts
    (action Attack) and kills (Attack with result Point), counts a block only
    when the action is Block and the result is Point, counts serve aces
    (Serve with Point) and serve errors (Serve with Error), and sets total
    points to kills + blocks + aces; the attack efficiency shown is 0 when
    there is no attempt and otherwise kills divided by attempts, as a whole
    percentage at most one half away from 100 * kills / attempts. *)
Theorem stats_aggregation :
  forall filteredLogs : list Log.LogEntry,
    let stats := calculateStats filteredLogs in
    let kills := countIf (isOutcome ATTACK POINT) filteredLogs in
    let attempts := countIf (isAction ATTACK) filteredLogs in
    attackTotal stats = attempts /\
    attackKills stats = kills /\
    blocks stats = countIf (isOutcome BLOCK POINT) filteredLogs /\
    serveAces stats = countIf (isOutcome SERVE POINT) filteredLogs /\
    serveErrors stats = countIf (isOutcome SERVE ERROR) filteredLogs /\
    digs stats = countIf (isAction DIG) filteredLogs /\
    totalPoints stats = attackKills stats + blocks stats + serveAces stats /\
    (attempts = 0 -> attackRate stats = 0) /\
    (attempts > 0 ->
       let ratio := (inject_Z kills / inject_Z attempts)%Q in
       (ratio * 100 - (1 # 2) <= inject_Z (attackRate stats))%Q /\
       (inject_Z (attackRate stats) <= ratio * 100 + (1 # 2))%Q).
Proof.
  intros filteredLogs. cbv zeta.
  pose proof (forEach_counters filteredLogs
                {| attackKills := 0; attackTotal := 0; blocks := 0;
                   serveAces := 0; serveErrors := 0; digs := 0;
                   totalPoints := 0 |}) as H.
  cbv zeta in H. simpl in H.
  destruct H as (H1 & H2 & H3 & H4 & H5 & H6).
  unfold attackRate, calculateStats; simpl.
  rewrite H1, H2.
  repeat split; try assumption.
  - intros ->. reflexivity.
  - replace (countIf (isAction ATTACK) filteredLogs >? 0) with true
      by (symmetry; apply Z.gtb_lt; lia).
    apply Qlt_le_weak, Math_round_nearest.
  - replace (countIf (isAction ATTACK) filteredLogs >? 0) with true
      by (symmetry; apply Z.gtb_lt; lia).
    apply Math_round_nearest.
Qed.

End StatsFacts.

(** ** The setup form *)

Module SetupFacts.
Import Stdlib.Strings.Ascii.
Import Types SetupView.
Local Open Scope string_scope.

Lemma keepDigits_allDigits (value : string) :
  allDigits (keepDigits value) = true.
Proof.
  unfold allDigits. induction value as [|c rest IH]; simpl; [reflexivity|].
  destruct (isDigit c) eqn:E; simpl; [rewrite E|]; exact IH.
Qed.

Lemma keepDigits_fixed (s : string) :
  allDigits s = true -> keepDigits s = s.
Proof.
  unfold allDigits. induction s as [|c rest IH]; simpl; [reflexivity|].
  intros H. apply andb_true_iff in H as [Hc Hr].
  rewrite Hc, (IH Hr). reflexivity.
Qed.

(** What [sanitizeInput] returns, by the digits of the text. *)
Lemma sanitizeInput_digits (value : string) :
  sanitizeInput value =
    match keepDigits value with
    | EmptyString => Some EmptyString
    | String a EmptyString =>
        if ascii_dec "0" a then None else Some (String a EmptyString)
    | String a (String b _) =>
        if ascii_dec "0" a then None
        else Some (String a (String b EmptyString))
    end.
Proof.
  unfold sanitizeInput.
  destruct (keepDigits value) as [|a [|b [|c r]]];
    cbn -[ascii_dec]; try reflexivity;
    destruct (ascii_dec "0" a); reflexivity.
Qed.

Lemma allDigits_cons (c : Ascii.ascii) (s : string) :
  allDigits (String c s) = isDigit c && allDigits s.
Proof. reflexivity. Qed.

(** What [sanitizeInput] lets through. *)
Lemma sanitizeInput_accepts :
  forall value r : string,
    sanitizeInput value = Some r ->
    (String.length r <= 2)%nat /\
    allDigits r = true /\
    prefix "0" r = false /\
    (r = "" \/ jersey r = true).
Proof.
  intros value r. rewrite sanitizeInput_digits.
  pose proof (keepDigits_allDigits value) as Hd.
  destruct (keepDigits value) as [|a [|b rest]].
  - intros [= <-]. repeat split; auto.
  - rewrite allDigits_cons in Hd. apply andb_true_iff in Hd as [Ha _].
    destruct (ascii_dec "0" a) as [E|E] eqn:D; [discriminate|].
    intros [= <-]. unfold jersey. cbn -[ascii_dec allDigits]. rewrite D.
    rewrite allDigits_cons, Ha. repeat split; auto.
  - rewrite !allDigits_cons in Hd.
    apply andb_true_iff in Hd as [Ha Hd].
    apply andb_true_iff in Hd as [Hb _].
    destruct (ascii_dec "0" a) as [E|E] eqn:D; [discriminate|].
    intros [= <-]. unfold jersey. cbn -[ascii_dec allDigits]. rewrite D.
    rewrite !allDigits_cons, Ha, Hb. repeat split; auto.
Qed.

(** X1: whatever is typed, a value [sanitizeInput] lets through has at most
    two characters, all of them digits, and does not start with 0: it is
    empty or a jersey number. *)
Theorem sanitizeInput_shape :
  forall value r : string,
    sanitizeInput value = Some r ->
    (String.length r <= 2)%nat /\
    allDigits r = true /\
    prefix "0" r = false /\
    (r = "" \/ jersey r = true).
Proof.
  intros value r H. exact (sanitizeInput_accepts value r H).
Qed.

Lemma sanitizeInput_shape_witness :
  (String.length "10" <= 2)%nat /\
  allDigits "10" = true /\
  prefix "0" "10" = false /\
  ("10" = "" \/ jersey "10" = true).
Proof.
  apply (sanitizeInput_shape "#10a7" "10"). reflexivity.
Defined.

(** X2: a jersey number (and the empty text) passes [sanitizeInput]
    unchanged, and sanitizing a sanitized value changes nothing. *)
Theorem sanitizeInput_fixed_points :
  forall s : string,
    (s = "" \/ jersey s = true -> sanitizeInput s = Some s) /\
    (forall r, sanitizeInput s = Some r -> sanitizeInput r = Some r).
Proof.
  assert (F : forall s, s = "" \/ jersey s = true -> sanitizeInput s = Some s).
  { intros s [->|H]; [reflexivity|].
    unfold jersey in H.
    apply andb_true_iff in H as [H Hz].
    apply andb_true_iff in H as [H Hd].
    apply andb_true_iff in H as [H1 H2].
    rewrite sanitizeInput_digits, (keepDigits_fixed s Hd).
    destruct s as [|a [|b [|c r]]]; cbn -[ascii_dec] in *;
      try discriminate;
      destruct (ascii_dec "0" a); try discriminate; reflexivity. }
  intros s. split; [apply F|].
  intros r Hr. apply F.
  destruct (sanitizeInput_accepts s r Hr) as (_ & _ & _ & H). exact H.
Qed.

(** X3: [sanitizeInput] rejects a text exactly when the first digit in it
    is 0, whatever surrounds it; a rejected text leaves the form as it is. *)
Theorem sanitizeInput_rejects_leading_zero :
  forall value : string,
    (sanitizeInput value = None <-> firstDigit value = Some "0"%char) /\
    (firstDigit value = Some "0"%char ->
     forall f mine pos,
       handlePlayerChange f mine pos value = f /\
       handleLiberoChange f mine value = f).
Proof.
  intros value.
  assert (E : sanitizeInput value = None <-> firstDigit value = Some "0"%char).
  { rewrite sanitizeInput_digits. unfold firstDigit.
    destruct (keepDigits value) as [|a [|b rest]];
      try (split; discriminate);
      destruct (ascii_dec "0" a) as [<-|N];
      split; intros H; try reflexivity; try discriminate;
      injection H as H; congruence. }
  split; [exact E|].
  intros H f mine pos. apply E in H.
  unfold handlePlayerChange, handleLiberoChange. rewrite H. split; reflexivity.
Qed.

(** *** Edits keep the entries well-formed *)

Lemma values_setAt (lineup : Lineup) (pos : Position) (val v : string) :
  In v (values (setAt lineup pos val)) -> v = val \/ In v (values lineup).
Proof. destruct pos; simpl; intuition. Qed.

Lemma sanitized_entry (value val : string) :
  sanitizeInput value = Some val -> val = "" \/ jersey val = true.
Proof.
  intros H. destruct (sanitizeInput_accepts value val H) as (_ & _ & _ & E).
  exact E.
Qed.

Lemma edit_keeps_entries (f : Form) (e : Edit) :
  entriesValid f -> entriesValid (edit f e).
Proof.
  unfold entriesValid, entries. intros Hf.
  destruct e as [mine pos value|mine value| | | | |];
    cbn [edit myLineup opLineup myLibero opLibero]; try exact Hf.
  - unfold handlePlayerChange.
    destruct (sanitizeInput value) as [val|] eqn:E; [|exact Hf].
    pose proof (sanitized_entry _ _ E) as Hv.
    destruct mine; cbn [myLineup opLineup myLibero opLibero];
      intros v Hin; rewrite !in_app_iff in Hin;
      destruct Hin as [Hin|[Hin|Hin]];
      try (apply values_setAt in Hin as [->|Hin]; [exact Hv|]);
      apply Hf; rewrite !in_app_iff; auto.
  - unfold handleLiberoChange.
    destruct (sanitizeInput value) as [val|] eqn:E; [|exact Hf].
    pose proof (sanitized_entry _ _ E) as Hv.
    destruct mine; cbn [myLineup opLineup myLibero opLibero];
      intros v Hin; rewrite !in_app_iff in Hin; cbn [In] in Hin;
      destruct Hin as [Hin|[Hin|[Hin|[Hin|[]]]]];
      try (subst v; exact Hv);
      apply Hf; rewrite !in_app_iff; cbn [In]; auto.
  - intros v Hin. right. simpl in Hin.
    repeat (destruct Hin as [<-|Hin]; [reflexivity|]). contradiction.
Qed.

Lemma fold_edit_valid (edits : list Edit) :
  forall f, entriesValid f -> entriesValid (fold_left edit edits f).
Proof.
  induction edits as [|e rest IH]; intros f Hf; simpl; [exact Hf|].
  apply IH, edit_keeps_entries, Hf.
Qed.

Lemma blankForm_valid : entriesValid blankForm.
Proof.
  intros v Hin. left. simpl in Hin.
  repeat (destruct Hin as [<-|Hin]; [reflexivity|]). contradiction.
Qed.

(** X4: starting from the blank form, after any sequence of edits (typing
    into a player or Libero field, the test fill, names, first serve) every
    player and Libero field holds the empty text or a jersey number of one
    or two digits without leading zero. *)
Theorem edits_keep_entries_valid :
  forall edits : list Edit, entriesValid (fold_left edit edits blankForm).
Proof.
  intros edits. apply fold_edit_valid, blankForm_valid.
Qed.

(** *** Duplicates *)

Lemma setHas_In (s : list string) (n : string) :
  setHas s n = true <-> In n s.
Proof.
  unfold setHas. rewrite existsb_exists. split.
  - intros (x & Hx & E). apply String.eqb_eq in E. subst. exact Hx.
  - intros H. exists n. split; [exact H|apply String.eqb_refl].
Qed.

Lemma setAdd_In (s : list string) (n x : string) :
  In x (setAdd s n) <-> In x s \/ x = n.
Proof.
  unfold setAdd. destruct (setHas s n) eqn:E.
  - apply setHas_In in E. split; [auto|]. intros [H| ->]; assumption.
  - rewrite in_app_iff. simpl. intuition.
Qed.

Lemma setAdd_NoDup (s : list string) (n : string) :
  NoDup s -> NoDup (setAdd s n).
Proof.
  unfold setAdd. intros H. destruct (setHas s n) eqn:E; [exact H|].
  apply NoDup_app; [exact H|repeat constructor; auto|].
  intros x Hx [<-|[]].
  apply setHas_In in Hx. congruence.
Qed.

Lemma count_occ_snoc (done : list string) (n x : string) :
  count_occ string_dec (done ++ [n]) x =
  (count_occ string_dec done x + if string_dec n x then 1 else 0)%nat.
Proof.
  rewrite count_occ_app. simpl. destruct (string_dec n x); reflexivity.
Qed.

Lemma track_tracks (done : list string) (sets : list string * list string)
  (n : string) :
  tracks done sets -> tracks (done ++ [n]) (track sets n).
Proof.
  destruct sets as [seen dups]. unfold tracks, track; simpl.
  intros (Hs & Hd & Hn). split; [|split].
  - intros k. rewrite setAdd_In, in_app_iff, Hs. simpl. intuition.
  - intros k. rewrite count_occ_snoc. split; intros Hk.
    + destruct (setHas seen n) eqn:E.
      * apply setAdd_In in Hk as [Hk| ->].
        -- apply Hd in Hk. lia.
        -- apply setHas_In, Hs in E.
           apply (count_occ_In string_dec) in E.
           destruct (string_dec n n); [lia|congruence].
      * apply Hd in Hk. lia.
    + destruct (setHas seen n) eqn:E.
      * apply setAdd_In. destruct (string_dec n k) as [->|N].
        -- right; reflexivity.
        -- left. apply Hd. lia.
      * destruct (string_dec n k) as [->|N].
        -- assert (~ In k done) as Hnot.
           { intros Hin. apply Hs, setHas_In in Hin. congruence. }
           apply (count_occ_not_In string_dec) in Hnot. lia.
        -- apply Hd. lia.
  - destruct (setHas seen n); [apply setAdd_NoDup|]; exact Hn.
Qed.

Lemma fold_tracks (rest : list string) :
  forall done sets,
    tracks done sets -> tracks (done ++ rest) (fold_left track rest sets).
Proof.
  induction rest as [|n rest IH]; intros done sets H; simpl.
  - rewrite app_nil_r. exact H.
  - replace (done ++ n :: rest)%list with ((done ++ [n]) ++ rest)%list
      by (rewrite <- app_assoc; reflexivity).
    apply IH, track_tracks, H.
Qed.

Lemma getDuplicates_tracks (trim : string -> string) (lineup : Lineup)
  (libero : string) :
  (forall d, In d (getDuplicates trim lineup libero) <->
             (2 <= count_occ string_dec (nums trim lineup libero) d)%nat) /\
  NoDup (getDuplicates trim lineup libero).
Proof.
  assert (T : tracks (nums trim lineup libero)
                (fold_left track (nums trim lineup libero) ([], []))).
  { apply (fold_tracks (nums trim lineup libero) [] ([], [])).
    repeat split; simpl; try tauto.
    - lia.
    - constructor. }
  destruct T as (_ & Hd & Hn). split; [exact Hd|exact Hn].
Qed.

Lemma getDuplicates_nil (trim : string -> string) (lineup : Lineup)
  (libero : string) :
  getDuplicates trim lineup libero = [] <-> NoDup (nums trim lineup libero).
Proof.
  destruct (getDuplicates_tracks trim lineup libero) as [Hd _].
  rewrite (NoDup_count_occ string_dec). split.
  - intros E k.
    destruct (le_lt_dec (count_occ string_dec (nums trim lineup libero) k) 1)
      as [L|L]; [exact L|].
    apply Hd in L. rewrite E in L. contradiction.
  - intros H. destruct (getDuplicates trim lineup libero) as [|d rest];
      [reflexivity|].
    specialize (H d). assert (In d (d :: rest)) as Hin by (left; reflexivity).
    apply Hd in Hin. lia.
Qed.

(** X5: [getDuplicates] returns exactly the identifiers that occur at least
    twice among the non-blank identifiers of a team (six slots and Libero),
    each of them once; it returns the empty list exactly when those
    identifiers are pairwise different. *)
Theorem getDuplicates_spec :
  forall (trim : string -> string) (lineup : Lineup) (libero : string),
    let ids := nums trim lineup libero in
    let dups := getDuplicates trim lineup libero in
    (forall d, In d dups <-> (2 <= count_occ string_dec ids d)%nat) /\
    NoDup dups /\
    (dups = [] <-> NoDup ids).
Proof.
  intros trim lineup libero. cbv zeta.
  destruct (getDuplicates_tracks trim lineup libero) as [Hd Hn].
  split; [exact Hd|]. split; [exact Hn|]. apply getDuplicates_nil.
Qed.

(** *** Starting the match *)

Lemma errorMsg_none (trim : string -> string) (f : Form) :
  truthy (errorMsg trim f) = false <-> ready trim f.
Proof.
  unfold errorMsg, ready.
  pose proof (getDuplicates_nil trim (myLineup f) (myLibero f)) as Hm.
  pose proof (getDuplicates_nil trim (opLineup f) (opLibero f)) as Ho.
  destruct (hasEmptyFields trim (myLineup f));
    [split; [discriminate|intros (H & _); discriminate]|].
  destruct (hasEmptyFields trim (opLineup f));
    [split; [discriminate|intros (_ & H & _); discriminate]|].
  destruct (getDuplicates trim (myLineup f) (myLibero f)) as [|d1 r1].
  - destruct (getDuplicates trim (opLineup f) (opLibero f)) as [|d2 r2].
    + simpl. split; [|reflexivity]. intros _.
      repeat split; [apply Hm|apply Ho]; reflexivity.
    + simpl. split; [discriminate|]. intros (_ & _ & _ & H).
      apply Ho in H. discriminate.
  - simpl. split; [discriminate|]. intros (_ & _ & H & _).
    apply Hm in H. discriminate.
Qed.

(** X6: [startGame] calls [onStart] exactly when neither lineup has a blank
    slot and neither team has an identifier twice among its non-blank
    identifiers; the call hands over the lineups, the Liberos and the first
    serve as entered, and the trimmed team names, each replaced by its
    default when blank. *)
Theorem startGame_guard :
  forall (trim : string -> string) (f : Form),
    (startGame trim f = None <-> ~ ready trim f) /\
    (forall call, startGame trim f = Some call ->
       ready trim f /\
       startMyLineup call = myLineup f /\ startOpLineup call = opLineup f /\
       startMyLibero call = myLibero f /\ startOpLibero call = opLibero f /\
       startFirstServe call = firstServe f /\
       Types.matchName (config call) = matchName f /\
       Types.myName (config call) =
         (if blank trim (myName f) then "我方球隊" else trim (myName f)) /\
       Types.opName (config call) =
         (if blank trim (opName f) then "對手球隊" else trim (opName f))).
Proof.
  intros trim f. pose proof (errorMsg_none trim f) as E.
  unfold startGame.
  destruct (truthy (errorMsg trim f)).
  - split.
    + split; [|reflexivity]. intros _ H. apply E in H. discriminate.
    + intros call [=].
  - split.
    + split; [discriminate|]. intros H. exfalso. apply H, E. reflexivity.
    + intros call [= <-]. simpl. split; [apply E; reflexivity|].
      repeat split.
Qed.

Lemma startGame_guard_witness :
  ready asciiTrim (handleTestFill blankForm) /\
  startMyLineup
    (onStart {| Types.matchName := "G"; Types.myName := "H";
                Types.opName := "V" |}
       (myLineup (handleTestFill blankForm))
       (opLineup (handleTestFill blankForm)) "99" "88" me)
    = myLineup (handleTestFill blankForm).
Proof.
  pose proof (proj2 (startGame_guard asciiTrim (handleTestFill blankForm))
                _ eq_refl) as H.
  split; [exact (proj1 H)|reflexivity].
Defined.

Lemma In_values (lineup : Lineup) (v : string) :
  In v (values lineup) <-> exists p, lineupAt lineup p = v.
Proof.
  split.
  - simpl. intros [H|[H|[H|[H|[H|[H|[]]]]]]];
      [exists P1|exists P2|exists P3|exists P4|exists P5|exists P6]; exact H.
  - intros (p & <-). destruct p; simpl; auto 7.
Qed.

Lemma filter_all {A : Type} (g : A -> bool) (l : list A) :
  (forall a, In a l -> g a = true) -> filter g l = l.
Proof.
  induction l as [|a l IH]; intros H; simpl; [reflexivity|].
  rewrite (H a (or_introl eq_refl)), IH; [reflexivity|].
  intros b Hb. apply H. right. exact Hb.
Qed.

Lemma ready_team (trim : string -> string) (lineup : Lineup)
  (libero : string) :
  hasEmptyFields trim lineup = false ->
  NoDup (nums trim lineup libero) ->
  (forall v, In v (values lineup) -> blank trim v = false) /\
  NoDup (values lineup) /\
  (blank trim libero = false -> ~ In libero (values lineup)).
Proof.
  unfold hasEmptyFields, nums. intros He Hn.
  assert (Hb : forall v, In v (values lineup) -> blank trim v = false).
  { intros v Hv. destruct (blank trim v) eqn:B; [|reflexivity].
    assert (existsb (blank trim) (values lineup) = true) as C
      by (apply existsb_exists; exists v; auto).
    congruence. }
  rewrite filter_app, (filter_all _ (values lineup)) in Hn
    by (intros a Ha; rewrite (Hb a Ha); reflexivity).
  split; [exact Hb|]. split.
  - apply NoDup_app_remove_r in Hn. exact Hn.
  - intros Hl Hin. cbn [filter] in Hn. rewrite Hl in Hn. cbn [negb] in Hn.
    apply NoDup_remove_2 in Hn. apply Hn. rewrite app_nil_r. exact Hin.
Qed.

(** X7: whatever the operator typed into the blank form, a match that
    starts has six jersey numbers (one or two digits, no leading zero) in
    each lineup, no number twice within a lineup, and a Libero that is
    empty or a jersey number and, unless blank, differs from the six
    starters of its team. *)
Theorem started_match_rosters :
  forall (trim : string -> string),
    trim "" = "" ->
    forall (edits : list Edit) (call : StartCall),
      startGame trim (fold_left edit edits blankForm) = Some call ->
      (forall p, jersey (lineupAt (startMyLineup call) p) = true) /\
      (forall p, jersey (lineupAt (startOpLineup call) p) = true) /\
      NoDup (values (startMyLineup call)) /\
      NoDup (values (startOpLineup call)) /\
      (startMyLibero call = "" \/ jersey (startMyLibero call) = true) /\
      (startOpLibero call = "" \/ jersey (startOpLibero call) = true) /\
      (blank trim (startMyLibero call) = false ->
       ~ In (startMyLibero call) (values (startMyLineup call))) /\
      (blank trim (startOpLibero call) = false ->
       ~ In (startOpLibero call) (values (startOpLineup call))).
Proof.
  intros trim Ht edits call Hs.
  pose proof (fold_edit_valid edits blankForm blankForm_valid) as Hv.
  set (f := fold_left edit edits blankForm) in *.
  assert (R : ready trim f /\
              startMyLineup call = myLineup f /\
              startOpLineup call = opLineup f /\
              startMyLibero call = myLibero f /\
              startOpLibero call = opLibero f).
  { unfold startGame in Hs. pose proof (errorMsg_none trim f) as E.
    destruct (truthy (errorMsg trim f)); [discriminate|].
    injection Hs as <-. simpl. split; [apply E; reflexivity|].
    repeat split. }
  destruct R as ((Hme & Hoe & Hmn & Hon) & -> & -> & -> & ->).
  destruct (ready_team trim _ _ Hme Hmn) as (Bm & Nm & Lm).
  destruct (ready_team trim _ _ Hoe Hon) as (Bo & No & Lo).
  assert (J : forall lineup,
             (forall v, In v (values lineup) -> In v (entries f)) ->
             (forall v, In v (values lineup) -> blank trim v = false) ->
             forall p, jersey (lineupAt lineup p) = true).
  { intros lineup Hin Hb p.
    assert (In (lineupAt lineup p) (values lineup)) as Hp
      by (apply In_values; exists p; reflexivity).
    destruct (Hv _ (Hin _ Hp)) as [E|E]; [|exact E].
    specialize (Hb _ Hp). unfold blank in Hb. rewrite E, Ht in Hb.
    discriminate. }
  unfold entries in J.
  repeat split; try assumption.
  - apply J; [|exact Bm]. intros v Hin. rewrite !in_app_iff. auto.
  - apply J; [|exact Bo]. intros v Hin. rewrite !in_app_iff. auto.
  - apply Hv. unfold entries. rewrite !in_app_iff. simpl. auto.
  - apply Hv. unfold entries. rewrite !in_app_iff. simpl. auto.
Qed.

Lemma started_match_rosters_witness :
  asciiTrim "" = "" /\
  NoDup (values (myLineup (fold_left edit [TestFill; SetFirstServe op]
                             blankForm))).
Proof.
  split; [reflexivity|].
  assert (S : exists call,
             startGame asciiTrim
               (fold_left edit [TestFill; SetFirstServe op] blankForm)
             = Some call /\
             startMyLineup call =
               myLineup (fold_left edit [TestFill; SetFirstServe op]
                           blankForm)).
  { eexists. split; reflexivity. }
  destruct S as (call & Hc & <-).
  exact (proj1 (proj2 (proj2 (started_match_rosters asciiTrim eq_refl
                                  [TestFill; SetFirstServe op] call Hc)))).
Defined.

End SetupFacts.

(** ** Rotation, substitution and the long press *)

Module RosterFacts.
Import Types GameView SetupView Roster.
Local Open Scope string_scope.

Lemma distinct_six (a b c d e f : string) :
  NoDup [a; b; c; d; e; f] ->
  a <> b /\ a <> c /\ a <> d /\ a <> e /\ a <> f.
Proof.
  intros H. apply NoDup_cons_iff in H as [H _]. simpl in H.
  repeat split; intros ->; apply H; auto 6.
Qed.

(** X8: one rotation only moves the six players around (the rotated lineup
    holds the same identifiers, each player going to the slot
    [slotAfterRotation] of its slot); six rotations give the lineup back,
    and with six different players no smaller number of rotations does. *)
Theorem rotation_permutation_order_six :
  forall lineup : Lineup,
    Permutation (values (getRotatedLineup lineup)) (values lineup) /\
    (forall p, lineupAt (getRotatedLineup lineup) (slotAfterRotation p)
               = lineupAt lineup p) /\
    Nat.iter 6 getRotatedLineup lineup = lineup /\
    (NoDup (values lineup) ->
     forall k, (0 < k < 6)%nat -> Nat.iter k getRotatedLineup lineup <> lineup).
Proof.
  intros [a b c d e f]. split; [|split; [|split]].
  - unfold values; simpl.
    apply Permutation_sym.
    change [a; b; c; d; e; f] with ([a] ++ [b; c; d; e; f])%list.
    change [b; c; d; e; f; a] with ([b; c; d; e; f] ++ [a])%list.
    apply Permutation_app_comm.
  - intros []; reflexivity.
  - reflexivity.
  - unfold values; simpl. intros Hn k Hk.
    destruct (distinct_six _ _ _ _ _ _ Hn) as (H1 & H2 & H3 & H4 & H5).
    destruct k as [|[|[|[|[|[|k]]]]]]; try lia; simpl; intros [=]; congruence.
Qed.

Lemma rotation_permutation_order_six_witness :
  NoDup (values Scenario.myLineup) /\
  Nat.iter 3 getRotatedLineup Scenario.myLineup <> Scenario.myLineup.
Proof.
  assert (Hn : NoDup (values Scenario.myLineup)).
  { unfold values; simpl.
    repeat (constructor; [simpl; intuition discriminate|]). constructor. }
  split; [exact Hn|].
  apply (proj2 (proj2 (proj2
           (rotation_permutation_order_six Scenario.myLineup))) Hn 3%nat).
  lia.
Defined.

(** X9: writing a slot and reading slots: the written slot holds the new
    identifier and every other slot is untouched; substituting and then
    rotating is the same as rotating and then substituting at the slot the
    player has moved to. *)
Theorem setAt_lookup_and_rotation :
  forall (lineup : Lineup) (p : Position) (n : string),
    lineupAt (setAt lineup p n) p = n /\
    (forall q, q <> p -> lineupAt (setAt lineup p n) q = lineupAt lineup q) /\
    getRotatedLineup (setAt lineup p n)
      = setAt (getRotatedLineup lineup) (slotAfterRotation p) n.
Proof.
  intros lineup p n. split; [|split].
  - destruct p; reflexivity.
  - intros q Hq. destruct p, q; try reflexivity; congruence.
  - destruct p; reflexivity.
Qed.

(** X10: a confirmed substitution with a non-blank number makes one call
    that carries no event, no score delta and no serve change; for a slot
    it replaces exactly that slot of the side's current lineup by the number
    as typed and names no Libero; for the Libero it names the number as the
    new Libero and hands the lineup over unchanged.  The modal is closed and
    its target cleared.  With no target or a blank number no call is made
    and the modal is closed. *)
Theorem handleSubConfirm_effect :
  forall (trim : string -> string) (props : GameViewProps) (m : SubState),
    (forall side pos,
        subTarget m = Some (side, pos) ->
        trim (subNumber m) <> "" ->
        exists u : LineupUpdate,
          handleSubConfirm trim props m =
            ({| showSubModal := false; subNumber := subNumber m;
                subTarget := None |},
             Some (onGameAction None None (Some u) None)) /\
          isMyTeam u = TeamSide_eqb side me /\
          match pos with
          | Slot p =>
              newLibero u = None /\
              lineupAt (newLineup u) p = subNumber m /\
              forall q, q <> p ->
                lineupAt (newLineup u) q
                  = lineupAt (Owner.lineupOf props side) q
          | L =>
              newLibero u = Some (subNumber m) /\
              newLineup u = Owner.lineupOf props side
          end) /\
    (subTarget m = None \/ trim (subNumber m) = "" ->
     handleSubConfirm trim props m =
       ({| showSubModal := false; subNumber := subNumber m;
           subTarget := subTarget m |}, None)).
Proof.
  intros trim props m. split.
  - intros side pos Ht Hn. unfold handleSubConfirm. rewrite Ht.
    apply String.eqb_neq in Hn. rewrite Hn.
    destruct pos as [p|]; eexists; (split; [reflexivity|]);
      (split; [reflexivity|]); destruct side; simpl.
    + split; [reflexivity|]. split; [destruct p; reflexivity|].
      intros q Hq. destruct p, q; try reflexivity; congruence.
    + split; [reflexivity|]. split; [destruct p; reflexivity|].
      intros q Hq. destruct p, q; try reflexivity; congruence.
    + split; reflexivity.
    + split; reflexivity.
  - intros [H|H]; unfold handleSubConfirm.
    + rewrite H. reflexivity.
    + destruct (subTarget m) as [[side pos]|]; [|reflexivity].
      rewrite H. reflexivity.
Qed.

(** X11: substitution checks nothing against the lineup: giving slot [p]
    the number that stands in another slot [q] is accepted, and the lineup
    handed to the owner then holds that number twice. *)
Theorem substitution_accepts_duplicate :
  forall (trim : string -> string) (props : GameViewProps) (m : SubState)
         (side : TeamSide) (p q : Position),
    p <> q ->
    subTarget m = Some (side, Slot p) ->
    subNumber m = lineupAt (Owner.lineupOf props side) q ->
    trim (subNumber m) <> "" ->
    exists u : LineupUpdate,
      snd (handleSubConfirm trim props m)
        = Some (onGameAction None None (Some u) None) /\
      lineupAt (newLineup u) p = lineupAt (newLineup u) q /\
      ~ NoDup (values (newLineup u)).
Proof.
  intros trim props m side p q Hpq Ht Hs Hn.
  unfold handleSubConfirm. rewrite Ht.
  apply String.eqb_neq in Hn. rewrite Hn. simpl.
  eexists. split; [reflexivity|]. simpl.
  assert (E : lineupAt
                (setAt (if TeamSide_eqb side me then initialMyLineup props
                        else initialOpLineup props) p (subNumber m)) p
              = lineupAt
                  (setAt (if TeamSide_eqb side me then initialMyLineup props
                          else initialOpLineup props) p (subNumber m)) q).
  { rewrite Hs. destruct side; simpl;
      destruct p, q; try reflexivity; congruence. }
  split; [exact E|].
  intros Hnd. revert E Hnd.
  generalize (setAt (if TeamSide_eqb side me then initialMyLineup props
                     else initialOpLineup props) p (subNumber m)).
  intros [a b c d e f]. unfold values; simpl. intros E Hnd.
  rewrite !NoDup_cons_iff in Hnd. simpl in Hnd.
  destruct p, q; simpl in E; try congruence; subst; intuition.
Qed.

Lemma substitution_accepts_duplicate_witness :
  exists u : LineupUpdate,
    snd (handleSubConfirm asciiTrim (Scenario.kickoff me)
           {| showSubModal := true; subNumber := "4";
              subTarget := Some (me, Slot P1) |})
      = Some (onGameAction None None (Some u) None) /\
    lineupAt (newLineup u) P1 = lineupAt (newLineup u) P2 /\
    ~ NoDup (values (newLineup u)).
Proof.
  apply (substitution_accepts_duplicate asciiTrim (Scenario.kickoff me)
           {| showSubModal := true; subNumber := "4";
              subTarget := Some (me, Slot P1) |} me P1 P2).
  - discriminate.
  - reflexivity.
  - reflexivity.
  - discriminate.
Defined.

(** *** The long press *)

Lemma clearTimeout_fresh (id : nat)
  (l : list (nat * (TeamSide * PlayerPos))) :
  (forall e, In e l -> (fst e < id)%nat) -> clearTimeout id l = l.
Proof.
  intros H. unfold clearTimeout. apply SetupFacts.filter_all.
  intros e He. apply negb_true_iff, Nat.eqb_neq.
  specialize (H e He). lia.
Qed.

Lemma clearTimeout_last (id : nat) (target : TeamSide * PlayerPos)
  (l : list (nat * (TeamSide * PlayerPos))) :
  (forall e, In e l -> (fst e < id)%nat) ->
  clearTimeout id (l ++ [(id, target)]) = l.
Proof.
  intros H. unfold clearTimeout. rewrite filter_app. simpl.
  rewrite Nat.eqb_refl. simpl. rewrite app_nil_r.
  apply (clearTimeout_fresh id l H).
Qed.

Lemma find_last (id : nat) (target : TeamSide * PlayerPos)
  (l : list (nat * (TeamSide * PlayerPos))) :
  (forall e, In e l -> (fst e < id)%nat) ->
  find (fun t => Nat.eqb (fst t) id) (l ++ [(id, target)])
    = Some (id, target).
Proof.
  intros H. induction l as [|e l IH]; simpl.
  - rewrite Nat.eqb_refl. reflexivity.
  - assert (fst e < id)%nat as He by (apply H; left; reflexivity).
    apply Nat.lt_neq, Nat.eqb_neq in He. rewrite He.
    apply IH. intros e' He'. apply H. right. exact He'.
Qed.

(** X12: one press of a player button does exactly one of two things.
    Released before its timer has fired, it selects the player (the normal
    click), leaves the substitution modal alone and its timer is gone, so it
    can never open the modal.  Released after the timer has fired, the
    modal is open for that button and the player is not selected. *)
Theorem press_selects_or_substitutes :
  forall (p : Panel) (side : TeamSide) (pos : PlayerPos),
    timersFresh (timers p) ->
    let short := handlePlayerUp (handlePlayerDown p side pos) side pos in
    let long :=
      handlePlayerUp
        (timerFires (handlePlayerDown p side pos) (nextId (timers p)))
        side pos in
    (hooks short = handlePlayerSelect (hooks p) side pos /\
     sub short = sub p /\
     pending (timers short) = pending (timers p)) /\
    (hooks long = hooks p /\
     sub long = {| showSubModal := true; subNumber := "";
                   subTarget := Some (side, pos) |} /\
     pending (timers long) = pending (timers p)).
Proof.
  intros p side pos [Hpos Hfresh]. cbv zeta.
  assert (Z : Nat.eqb (nextId (timers p)) 0 = false)
    by (apply Nat.eqb_neq; lia).
  split.
  - unfold handlePlayerUp, handlePlayerDown. simpl. rewrite Z. simpl.
    repeat split. apply clearTimeout_last. exact Hfresh.
  - unfold timerFires, handlePlayerDown. simpl.
    rewrite (find_last _ _ _ Hfresh).
    unfold handlePlayerUp. simpl. rewrite Z. simpl.
    repeat split.
    rewrite (clearTimeout_last _ _ _ Hfresh).
    apply clearTimeout_fresh. exact Hfresh.
Qed.

Lemma press_selects_or_substitutes_witness :
  hooks (handlePlayerUp
           (handlePlayerDown (mounted initialHooks) me (Slot P3))
           me (Slot P3))
    = handlePlayerSelect initialHooks me (Slot P3).
Proof.
  apply (press_selects_or_substitutes (mounted initialHooks) me (Slot P3)).
  split; [simpl; lia|intros e []].
Defined.

(** X13: pressing a second button before the first is released loses the
    first timer: after both buttons were released as normal clicks, the
    timer of the first press is still pending, and when it fires the
    substitution modal opens for the first button. *)
Theorem overlapping_presses_leak_timer :
  forall (p : Panel) (s1 s2 : TeamSide) (b1 b2 : PlayerPos),
    timersFresh (timers p) ->
    let released :=
      handlePlayerUp
        (handlePlayerUp
           (handlePlayerDown (handlePlayerDown p s1 b1) s2 b2) s2 b2)
        s1 b1 in
    hooks released
      = handlePlayerSelect (handlePlayerSelect (hooks p) s2 b2) s1 b1 /\
    pending (timers released)
      = (pending (timers p) ++ [(nextId (timers p), (s1, b1))])%list /\
    sub (timerFires released (nextId (timers p)))
      = {| showSubModal := true; subNumber := "";
           subTarget := Some (s1, b1) |}.
Proof.
  intros p s1 s2 b1 b2 [Hpos Hfresh]. cbv zeta.
  assert (Hfresh' : forall e,
             In e (pending (timers p) ++ [(nextId (timers p), (s1, b1))])%list
             -> (fst e < S (nextId (timers p)))%nat).
  { intros e He. apply in_app_iff in He as [He|[<-|[]]].
    - specialize (Hfresh e He). lia.
    - simpl. lia. }
  assert (E : pending
                (timers
                   (handlePlayerUp
                      (handlePlayerUp
                         (handlePlayerDown (handlePlayerDown p s1 b1) s2 b2)
                         s2 b2) s1 b1))
              = (pending (timers p) ++ [(nextId (timers p), (s1, b1))])%list).
  { unfold handlePlayerUp, handlePlayerDown. simpl.
    apply clearTimeout_last. exact Hfresh'. }
  split; [reflexivity|]. split; [exact E|].
  unfold timerFires. rewrite E, (find_last _ _ _ Hfresh). reflexivity.
Qed.

Lemma overlapping_presses_leak_timer_witness :
  pending
    (timers
       (handlePlayerUp
          (handlePlayerUp
             (handlePlayerDown
                (handlePlayerDown (mounted initialHooks) me (Slot P3))
                op (Slot P2))
             op (Slot P2))
          me (Slot P3)))
    = [(1%nat, (me, Slot P3))].
Proof.
  apply (overlapping_presses_leak_timer (mounted initialHooks)
           me op (Slot P3) (Slot P2)).
  split; [simpl; lia|intros e []].
Defined.

End RosterFacts.

(** ** Runs of the screen *)

Module ScreenFacts.
Import Types Trace.

Lemma deliver_nil (h : GameView.Hooks) : Screen.deliver h [] = h.
Proof. reflexivity. Qed.

Lemma deliver_pending (commits : list Court.Commit) :
  forall h, pendingHasTrajectory h ->
            pendingHasTrajectory (Screen.deliver h commits).
Proof.
  unfold Screen.deliver.
  induction commits as [|c rest IH]; intros h Hh; simpl; [exact Hh|].
  apply IH. intros _. simpl. split; discriminate.
Qed.

Lemma handleResult_cases (snap : GameView.GameViewProps) (n1 n2 : Z)
  (h : GameView.Hooks) (r : ResultType) :
  GameView.handleResult snap n1 n2 h r = (h, None) \/
  exists a e,
    GameView.handleResult snap n1 n2 h r = (GameView.resetFlow h, Some a) /\
    GameView.newLog a = Some e /\
    GameView.startCoord h = Log.startCoord e /\
    GameView.endCoord h = Log.endCoord e.
Proof.
  unfold GameView.handleResult.
  destruct (GameView.selectedPos h) as [pos|];
    [destruct (GameView.selectedAction h) as [act|]|]; auto.
  right.
  destruct r, (TeamSide_eqb (GameView.activeSide h) me),
    (GameView.servingTeam snap); simpl;
    eexists; eexists; repeat split.
Qed.

Lemma handleScoreAdjust_manual (snap : GameView.GameViewProps) (n1 n2 : Z)
  (mine : bool) (delta : Z) :
  exists e,
    GameView.newLog (GameView.handleScoreAdjust snap n1 n2 mine delta)
      = Some e /\
    manual e /\
    Log.note e = manualNote delta /\
    Log.result e = (if (delta >? 0)%Z then POINT else NORMAL).
Proof.
  unfold GameView.handleScoreAdjust, manual.
  destruct (delta >? 0)%Z eqn:D, mine, (GameView.servingTeam snap);
    cbn -[toString];
    eexists; (split; [reflexivity|]); cbn -[toString]; repeat split;
    try (exists delta); unfold manualNote; rewrite D; reflexivity.
Qed.

(** One step keeps the trajectory of a pending outcome, and the events it
    emits are complete captures or manual adjustments. *)
Lemma step_events (impl : Screen.CourtImpl) (s : Screen.Screen)
  (i : Screen.Input) :
  pendingHasTrajectory (Screen.hooks s) ->
  pendingHasTrajectory (Screen.hooks (fst (Screen.step impl s i))) /\
  forall a e,
    In (Screen.GameActionCall a) (snd (Screen.step impl s i)) ->
    GameView.newLog a = Some e ->
    complete e \/ manual e.
Proof.
  intros Hs.
  destruct i as [side pos|act| |pt|pt| | |n1 n2 r|n1 n2 mine d|mine].
  - simpl. split; [intros [=]|intros a e []].
  - simpl. destruct (GameView.state (Screen.hooks s)) eqn:E; simpl;
      (split; [|intros a e []]); try exact Hs.
    intros [=].
  - simpl. destruct (GameView.state (Screen.hooks s)) eqn:E; simpl;
      (split; [|intros a e []]); try exact Hs.
    intros [=].
  - simpl. split; [apply deliver_pending, Hs|].
    intros a e Hin. unfold Screen.drawn in Hin.
    apply in_map_iff in Hin as (c & [=] & _).
  - simpl. split; [apply deliver_pending, Hs|].
    intros a e Hin. unfold Screen.drawn in Hin.
    apply in_map_iff in Hin as (c & [=] & _).
  - simpl. split; [apply deliver_pending, Hs|].
    intros a e Hin. unfold Screen.drawn in Hin.
    apply in_map_iff in Hin as (c & [=] & _).
  - simpl. split; [apply deliver_pending, Hs|].
    intros a e Hin. unfold Screen.drawn in Hin.
    apply in_map_iff in Hin as (c & [=] & _).
  - unfold Screen.step.
    destruct (GameView.state (Screen.hooks s)) eqn:E;
      try (split; [exact Hs|intros a e []]).
    destruct (Hs E) as [H1 H2].
    destruct (handleResult_cases (Screen.snapshot s) n1 n2 (Screen.hooks s) r)
      as [->|(a0 & e0 & -> & Hl & Hsc & Hec)]; simpl.
    + split; [exact Hs|intros a e []].
    + split; [intros [=]|].
      intros a e [[= <-]|[]] He. rewrite Hl in He. injection He as <-.
      left. split; [rewrite <- Hsc|rewrite <- Hec]; assumption.
  - simpl. split; [exact Hs|].
    intros a e [[= <-]|[]] He. right.
    destruct (handleScoreAdjust_manual (Screen.snapshot s) n1 n2 mine d)
      as (e' & He' & Hm & _).
    rewrite He' in He. injection He as <-. exact Hm.
  - simpl. split; [exact Hs|].
    intros a e [[= <-]|[]]. simpl. intros [=].
Qed.

Lemma run_events (impl : Screen.CourtImpl) (inputs : list Screen.Input) :
  forall s,
    pendingHasTrajectory (Screen.hooks s) ->
    pendingHasTrajectory (Screen.hooks (fst (Screen.run impl s inputs))) /\
    forall a e,
      In (Screen.GameActionCall a) (snd (Screen.run impl s inputs)) ->
      GameView.newLog a = Some e ->
      complete e \/ manual e.
Proof.
  induction inputs as [|i rest IH]; intros s Hs; simpl.
  - split; [exact Hs|intros a e []].
  - destruct (step_events impl s i Hs) as [H1 H2].
    destruct (Screen.step impl s i) as [s1 o1]; simpl in *.
    destruct (IH s1 H1) as [H3 H4].
    destruct (Screen.run impl s1 rest) as [s2 o2]; simpl in *.
    split; [exact H3|].
    intros a e Hin. apply in_app_iff in Hin as [Hin|Hin]; eauto.
Qed.

(** X14: whatever the operator does, with either Court, every event handed
    to the owner is a complete capture (it carries both ends of its
    trajectory) or a manual score adjustment (no player, no trajectory). *)
Theorem logged_events_complete_or_manual :
  forall (impl : Screen.CourtImpl) (snap : GameView.GameViewProps)
         (inputs : list Screen.Input) (a : GameView.GameAction)
         (e : Log.LogEntry),
    In (Screen.GameActionCall a)
       (snd (Screen.run impl (Screen.start snap) inputs)) ->
    GameView.newLog a = Some e ->
    complete e \/ manual e.
Proof.
  intros impl snap inputs a e.
  apply (run_events impl inputs (Screen.start snap)).
  intros [=].
Qed.

Lemma logged_events_complete_or_manual_witness :
  exists e : Log.LogEntry,
    GameView.newLog
      (GameView.handleScoreAdjust (Scenario.kickoff me) 7 7 true 1) = Some e /\
    (complete e \/ manual e).
Proof.
  eexists. split; [reflexivity|].
  apply (logged_events_complete_or_manual Screen.currentCourt
           (Scenario.kickoff me) [Screen.PressScore 7 7 true 1]
           (GameView.handleScoreAdjust (Scenario.kickoff me) 7 7 true 1)).
  - left. reflexivity.
  - reflexivity.
Defined.

(** *** Commits, releases and mouse-leaves with the Court component *)

Lemma filter_length_le {A : Type} (g : A -> bool) (l : list A) :
  (List.length (filter g l) <= List.length l)%nat.
Proof.
  induction l as [|a l IH]; simpl; [lia|].
  destruct (g a); simpl; lia.
Qed.

Lemma step_commits (s : Screen.Screen) (i : Screen.Input) :
  (commits (snd (Screen.step Screen.currentCourt s i))
   <= releases [i] + leaves [i])%nat /\
  (isRelease i = false -> isLeave i = false ->
   GameView.state (Screen.hooks s) <> GameView.RESULT_PENDING ->
   GameView.state (Screen.hooks (fst (Screen.step Screen.currentCourt s i)))
     <> GameView.RESULT_PENDING).
Proof.
  unfold commits, releases, leaves.
  destruct i as [side pos|act| |pt|pt| | |n1 n2 r|n1 n2 mine d|mine]; simpl.
  - split; [lia|]. intros _ _ _ [=].
  - destruct (GameView.state (Screen.hooks s)) eqn:E; simpl;
      (split; [lia|]); intros _ _ H; try exact H; try (rewrite E; exact H).
    intros [=].
  - destruct (GameView.state (Screen.hooks s)) eqn:E; simpl;
      (split; [lia|]); intros _ _ H; try exact H; try (rewrite E; exact H).
    intros [=].
  - destruct (CourtFacts.court_commits_on_release_only
                (Screen.courtProps (Screen.hooks s)) (Screen.court s) pt)
      as (-> & _). simpl. split; [lia|]. intros _ _ H. exact H.
  - destruct (CourtFacts.court_commits_on_release_only
                (Screen.courtProps (Screen.hooks s)) (Screen.court s) pt)
      as (_ & -> & _). simpl. split; [lia|]. intros _ _ H. exact H.
  - split; [|discriminate].
    destruct (Court.startPos (Screen.court s)),
      (Court.endPos (Screen.court s)); simpl; lia.
  - split; [|intros _; discriminate].
    destruct (Court.startPos (Screen.court s)),
      (Court.endPos (Screen.court s)); simpl; lia.
  - destruct (GameView.state (Screen.hooks s)) eqn:E; simpl;
      try (split; [lia|]; intros _ _ H; rewrite E; exact H).
    split; [|intros _ _ H; congruence].
    destruct (GameView.handleResult (Screen.snapshot s) n1 n2
                (Screen.hooks s) r) as [h [a|]]; simpl; lia.
  - split; [lia|]. intros _ _ H. exact H.
  - split; [lia|]. intros _ _ H. exact H.
Qed.

Lemma filter_app_length {A : Type} (g : A -> bool) (l1 l2 : list A) :
  List.length (filter g (l1 ++ l2))
  = (List.length (filter g l1) + List.length (filter g l2))%nat.
Proof. rewrite filter_app, length_app. reflexivity. Qed.

(** The release handler of [Court] hands the trajectory over whenever both
    ends are on the court, on a release and on a mouse-leave alike. *)
Lemma up_or_leave_commits (s : Screen.Screen) (i : Screen.Input)
  (a e : Court.Point) :
  i = Screen.PointerUp \/ i = Screen.PointerLeave ->
  Court.startPos (Screen.court s) = Some a ->
  Court.endPos (Screen.court s) = Some e ->
  snd (Screen.step Screen.currentCourt s i)
    = [Screen.DrawingComplete (Court.normalize a) (Court.normalize e)] /\
  GameView.state (Screen.hooks (fst (Screen.step Screen.currentCourt s i)))
    = GameView.RESULT_PENDING.
Proof.
  intros Hi Ha He.
  destruct Hi as [-> | ->]; unfold Screen.step, Screen.pointer;
    cbn [Screen.onPointerUp Screen.currentCourt Court.handlePointerUp
         fst snd];
    rewrite Ha, He; split; reflexivity.
Qed.

(** X15: with the Court component, the trajectory is handed over only by
    the release handler, which runs on a release of the pointer and also
    when the mouse leaves the court.  On every sequence of inputs the number
    of calls of [onDrawingComplete] is at most the number of releases plus
    the number of mouse-leaves; a sequence with neither makes no such call
    and never brings [GameView] into RESULT_PENDING; and with both ends on
    the court a mouse-leave alone, like a release, makes the call and
    brings [GameView] into RESULT_PENDING. *)
Theorem commits_bounded_by_releases_and_leaves :
  forall (inputs : list Screen.Input) (s : Screen.Screen),
    (commits (snd (Screen.run Screen.currentCourt s inputs))
     <= releases inputs + leaves inputs)%nat /\
    (releases inputs = 0%nat -> leaves inputs = 0%nat ->
     GameView.state (Screen.hooks s) <> GameView.RESULT_PENDING ->
     GameView.state
       (Screen.hooks (fst (Screen.run Screen.currentCourt s inputs)))
       <> GameView.RESULT_PENDING) /\
    (forall (i : Screen.Input) (a e : Court.Point),
        i = Screen.PointerUp \/ i = Screen.PointerLeave ->
        Court.startPos (Screen.court s) = Some a ->
        Court.endPos (Screen.court s) = Some e ->
        snd (Screen.step Screen.currentCourt s i)
          = [Screen.DrawingComplete (Court.normalize a)
               (Court.normalize e)] /\
        GameView.state
          (Screen.hooks (fst (Screen.step Screen.currentCourt s i)))
          = GameView.RESULT_PENDING).
Proof.
  induction inputs as [|i rest IH]; intros s.
  - simpl. split; [unfold commits, releases, leaves; simpl; lia|].
    split; [intros _ _ H; exact H|].
    intros i a e. apply up_or_leave_commits.
  - split; [|split; [|intros j a e; apply up_or_leave_commits]].
    + destruct (step_commits s i) as [C1 _].
      simpl. destruct (Screen.step Screen.currentCourt s i) as [s1 o1].
      destruct (IH s1) as [I1 _].
      destruct (Screen.run Screen.currentCourt s1 rest) as [s2 o2].
      simpl in *. unfold commits, releases, leaves in *. simpl in *.
      rewrite filter_app_length.
      destruct (isRelease i), (isLeave i); simpl in *; lia.
    + destruct (step_commits s i) as [_ C2].
      simpl. destruct (Screen.step Screen.currentCourt s i) as [s1 o1].
      destruct (IH s1) as (_ & I2 & _).
      destruct (Screen.run Screen.currentCourt s1 rest) as [s2 o2].
      simpl in *. unfold releases, leaves in *. simpl in *.
      intros Hr Hl Hs.
      destruct (isRelease i) eqn:R; simpl in Hr; [lia|].
      destruct (isLeave i) eqn:Lv; simpl in Hl; [lia|].
      apply I2; [exact Hr|exact Hl|].
      apply C2; [reflexivity|reflexivity|exact Hs].
Qed.

Lemma commits_bounded_by_releases_and_leaves_witness :
  snd (Screen.step Screen.currentCourt
         (Scenario.attackDrawn (Scenario.kickoff me) Scenario.deepCorner None)
         Screen.PointerLeave)
    = [Screen.DrawingComplete (Court.normalize Scenario.slot3Center)
         (Court.normalize Scenario.deepCorner)].
Proof.
  apply (proj2 (proj2 (commits_bounded_by_releases_and_leaves []
                         (Scenario.attackDrawn (Scenario.kickoff me)
                            Scenario.deepCorner None)))
           Screen.PointerLeave Scenario.slot3Center Scenario.deepCorner
           (or_intror eq_refl) eq_refl eq_refl).
Defined.

End ScreenFacts.

(** ** Zone centres and the shot chart *)

Module ChartFacts.
Import Types Court ShotChart Geometry.
Local Open Scope R_scope.

Lemma point_eq (a b c d : R) :
  a = c -> b = d -> {| x := a; y := b |} = {| x := c; y := d |}.
Proof. intros -> ->. reflexivity. Qed.

(** X16: the anchors of the two teams mirror each other: the centre of a
    slot on the opponent's side is the point reflection through the court
    centre (9, 4.5) of the centre of the same slot on my side, with or
    without the serve offset, in both Court components; the Libero is
    anchored at slot 6; my anchors lie left of the net line x = 9 and the
    opponent's right of it. *)
Theorem zone_centers_mirror :
  forall (action : option ActionType) (pos : PlayerPos)
         (ignoreAction : bool),
    getPositionCenter action op pos ignoreAction
      = reflect (getPositionCenter action me pos ignoreAction) /\
    CourtEarly.getPositionCenter action op pos ignoreAction
      = reflect (CourtEarly.getPositionCenter action me pos ignoreAction) /\
    (forall side,
        getPositionCenter action side L ignoreAction
          = getPositionCenter action side (Slot P6) ignoreAction) /\
    x (getPositionCenter action me pos ignoreAction) < 9 /\
    9 < x (getPositionCenter action op pos ignoreAction).
Proof.
  intros action pos ign. unfold reflect.
  repeat split.
  - unfold getPositionCenter.
    destruct pos as [[]|], (negb ign && isServe action); simpl;
      apply point_eq; lra.
  - unfold CourtEarly.getPositionCenter.
    destruct pos as [[]|], (negb ign && isServe action); simpl;
      apply point_eq; lra.
  - unfold getPositionCenter.
    destruct pos as [[]|], (negb ign && isServe action); simpl; lra.
  - unfold getPositionCenter.
    destruct pos as [[]|], (negb ign && isServe action); simpl; lra.
Qed.

(** X17: the chart draws a stored court point at a uniform scale: in
    landscape both logical axes are multiplied by 100/9 (so the 2:1 court is
    not distorted, unlike in the stored percentages), and portrait is the
    transposed picture.  A point of the court lands in the drawn court
    rectangle and only such a point does; every point of the drawable
    surface of the Court component, out-of-bounds margin included, lands
    inside the chart's view box. *)
Theorem chart_maps_court :
  forall (pt : Point) (o : Orientation),
    plot landscape (normalize pt)
      = {| x := x pt * (100 / 9); y := y pt * (100 / 9) |} /\
    plot portrait (normalize pt)
      = {| x := y pt * (100 / 9); y := x pt * (100 / 9) |} /\
    (inCourtBounds pt <-> inChartCourt o (plot o (normalize pt))) /\
    (inViewBox pt -> inChartViewBox o (plot o (normalize pt))).
Proof.
  intros [px py] o. split; [|split; [|split]].
  - unfold plot, mapX, mapY, normalize; simpl. apply point_eq; field.
  - unfold plot, mapX, mapY, normalize; simpl. apply point_eq; field.
  - unfold inCourtBounds, inChartCourt, plot, mapX, mapY, normalize.
    destruct o; simpl; lra.
  - unfold inViewBox, inChartViewBox, plot, mapX, mapY, normalize.
    destruct o; simpl; lra.
Qed.

Lemma chart_maps_court_witness :
  inChartViewBox landscape (plot landscape (normalize Scenario.behindEndLine)).
Proof.
  apply (chart_maps_court Scenario.behindEndLine landscape).
  unfold inViewBox; simpl; lra.
Defined.

End ChartFacts.

(** ** Team statistics *)

Module TeamStatsFacts.
Import Types StatsOverlay Ranking.
Local Open Scope Z_scope.

(** The counters of [calculateStats] as counts over the list. *)
Lemma stats_counts (ls : list Log.LogEntry) :
  attackTotal (calculateStats ls) = countIf (isAction ATTACK) ls /\
  attackKills (calculateStats ls) = countIf (isOutcome ATTACK POINT) ls /\
  blocks (calculateStats ls) = countIf (isOutcome BLOCK POINT) ls /\
  serveAces (calculateStats ls) = countIf (isOutcome SERVE POINT) ls /\
  serveErrors (calculateStats ls) = countIf (isOutcome SERVE ERROR) ls /\
  digs (calculateStats ls) = countIf (isAction DIG) ls /\
  totalPoints (calculateStats ls)
    = countIf (isOutcome ATTACK POINT) ls
      + countIf (isOutcome BLOCK POINT) ls
      + countIf (isOutcome SERVE POINT) ls.
Proof.
  pose proof (StatsFacts.forEach_counters ls
                {| attackKills := 0; attackTotal := 0; blocks := 0;
                   serveAces := 0; serveErrors := 0; digs := 0;
                   totalPoints := 0 |}) as H.
  cbv zeta in H. simpl in H.
  destruct H as (H1 & H2 & H3 & H4 & H5 & H6).
  unfold calculateStats; simpl. rewrite H2, H3, H4.
  repeat split; assumption.
Qed.

Lemma countIf_nil (f : Log.LogEntry -> bool) : countIf f [] = 0.
Proof. reflexivity. Qed.

Lemma countIf_app (f : Log.LogEntry -> bool) (l1 l2 : list Log.LogEntry) :
  countIf f (l1 ++ l2) = countIf f l1 + countIf f l2.
Proof.
  unfold countIf. rewrite filter_app, length_app. lia.
Qed.

Lemma countIf_nonneg (f : Log.LogEntry -> bool) (ls : list Log.LogEntry) :
  0 <= countIf f ls.
Proof. unfold countIf. lia. Qed.

(** Splitting a list by a test splits every count. *)
Lemma countIf_split (f g : Log.LogEntry -> bool) (ls : list Log.LogEntry) :
  countIf f ls
  = countIf f (filter g ls) + countIf f (filter (fun l => negb (g l)) ls).
Proof.
  induction ls as [|l ls IH]; [reflexivity|].
  rewrite StatsFacts.countIf_cons, IH. simpl.
  destruct (g l); simpl; rewrite StatsFacts.countIf_cons; lia.
Qed.

Lemma countIf_le (f g : Log.LogEntry -> bool) (ls : list Log.LogEntry) :
  (forall l, f l = true -> g l = true) -> countIf f ls <= countIf g ls.
Proof.
  intros H. induction ls as [|l ls IH]; [reflexivity|].
  rewrite !StatsFacts.countIf_cons.
  destruct (f l) eqn:F; [rewrite (H l F)|destruct (g l)];
    unfold bump; lia.
Qed.

Lemma getTeamLogs_me (logs : list Log.LogEntry) (cfg : TeamConfig) :
  getTeamLogs logs cfg me = filter (isMine cfg) logs.
Proof.
  unfold getTeamLogs, isMine. apply filter_ext. intros l.
  destruct (String.eqb (Log.note l) (myName cfg)); reflexivity.
Qed.

Lemma getTeamLogs_op (logs : list Log.LogEntry) (cfg : TeamConfig) :
  getTeamLogs logs cfg op = filter (fun l => negb (isMine cfg l)) logs.
Proof.
  unfold getTeamLogs, isMine. apply filter_ext. intros l.
  destruct (String.eqb (Log.note l) (myName cfg)); reflexivity.
Qed.

Lemma length_split (g : Log.LogEntry -> bool) (ls : list Log.LogEntry) :
  (List.length (filter g ls) + List.length (filter (fun l => negb (g l)) ls)
   = List.length ls)%nat.
Proof.
  induction ls as [|l ls IH]; [reflexivity|].
  simpl. destruct (g l); simpl; lia.
Qed.

(** X18: the two team lists split the log: every entry is in exactly one of
    them (in my team's list exactly when its note is my team's name), and
    every counter of the whole log, total points included, is the sum of
    the two teams' counters. *)
Theorem team_stats_add_up :
  forall (logs : list Log.LogEntry) (cfg : TeamConfig),
    let mine := getTeamLogs logs cfg me in
    let theirs := getTeamLogs logs cfg op in
    let sum (field : StatSummary -> Z) :=
      field (calculateStats mine) + field (calculateStats theirs) in
    (forall l, In l mine <-> In l logs /\ Log.note l = myName cfg) /\
    (forall l, In l theirs <-> In l logs /\ Log.note l <> myName cfg) /\
    (List.length mine + List.length theirs = List.length logs)%nat /\
    attackTotal (calculateStats logs) = sum attackTotal /\
    attackKills (calculateStats logs) = sum attackKills /\
    blocks (calculateStats logs) = sum blocks /\
    serveAces (calculateStats logs) = sum serveAces /\
    serveErrors (calculateStats logs) = sum serveErrors /\
    digs (calculateStats logs) = sum digs /\
    totalPoints (calculateStats logs) = sum totalPoints.
Proof.
  intros logs cfg. cbv zeta.
  rewrite getTeamLogs_me, getTeamLogs_op.
  split; [|split; [|split]].
  - intros l. rewrite filter_In. unfold isMine.
    rewrite String.eqb_eq. reflexivity.
  - intros l. rewrite filter_In. unfold isMine.
    rewrite negb_true_iff, String.eqb_neq. reflexivity.
  - apply length_split.
  - destruct (stats_counts logs) as (A1 & A2 & A3 & A4 & A5 & A6 & A7).
    destruct (stats_counts (filter (isMine cfg) logs))
      as (M1 & M2 & M3 & M4 & M5 & M6 & M7).
    destruct (stats_counts (filter (fun l => negb (isMine cfg l)) logs))
      as (O1 & O2 & O3 & O4 & O5 & O6 & O7).
    rewrite A1, A2, A3, A4, A5, A6, A7, M1, M2, M3, M4, M5, M6, M7,
      O1, O2, O3, O4, O5, O6, O7.
    rewrite (countIf_split (isAction ATTACK) (isMine cfg) logs),
      (countIf_split (isOutcome ATTACK POINT) (isMine cfg) logs),
      (countIf_split (isOutcome BLOCK POINT) (isMine cfg) logs),
      (countIf_split (isOutcome SERVE POINT) (isMine cfg) logs),
      (countIf_split (isOutcome SERVE ERROR) (isMine cfg) logs),
      (countIf_split (isAction DIG) (isMine cfg) logs).
    repeat split; lia.
Qed.

Lemma points_le_point_entries (ls : list Log.LogEntry) :
  countIf (isOutcome ATTACK POINT) ls + countIf (isOutcome BLOCK POINT) ls
    + countIf (isOutcome SERVE POINT) ls
  <= countIf isPoint ls.
Proof.
  induction ls as [|l ls IH]; [reflexivity|].
  rewrite !StatsFacts.countIf_cons.
  set (c1 := countIf (isOutcome ATTACK POINT) ls) in *.
  set (c2 := countIf (isOutcome BLOCK POINT) ls) in *.
  set (c3 := countIf (isOutcome SERVE POINT) ls) in *.
  set (c4 := countIf isPoint ls) in *.
  clearbody c1 c2 c3 c4.
  unfold isOutcome, isPoint, bump.
  destruct (Log.action l), (Log.result l); cbn -[Z.add]; lia.
Qed.

Lemma ratio_bounds (k t : Z) :
  0 <= k <= t -> 0 < t ->
  (0 <= inject_Z k / inject_Z t <= 1)%Q.
Proof.
  intros [Hk Hkt] Ht.
  assert (0 < inject_Z t)%Q as Hq
    by (change 0%Q with (inject_Z 0); rewrite <- Zlt_Qlt; exact Ht).
  split.
  - apply Qle_shift_div_l; [exact Hq|].
    rewrite Qmult_0_l. change 0%Q with (inject_Z 0).
    rewrite <- Zle_Qle. exact Hk.
  - apply Qle_shift_div_r; [exact Hq|].
    rewrite Qmult_1_l. rewrite <- Zle_Qle. exact Hkt.
Qed.

(** X19: on every list of entries the kills are at most the attempts, the
    attempts at most the number of entries, the total points at most the
    number of entries with result Point, and the attack rate shown is a
    percentage between 0 and 100. *)
Theorem stats_bounds :
  forall ls : list Log.LogEntry,
    let stats := calculateStats ls in
    0 <= attackKills stats <= attackTotal stats /\
    attackTotal stats <= Z.of_nat (List.length ls) /\
    0 <= totalPoints stats <= countIf isPoint ls /\
    0 <= attackRate stats <= 100.
Proof.
  intros ls. cbv zeta.
  destruct (stats_counts ls) as (A1 & A2 & A3 & A4 & A5 & A6 & A7).
  assert (K : 0 <= attackKills (calculateStats ls)
              <= attackTotal (calculateStats ls)).
  { rewrite A1, A2. split; [apply countIf_nonneg|].
    apply countIf_le. unfold isOutcome, isAction.
    intros l H. apply andb_true_iff in H. tauto. }
  split; [exact K|]. split; [|split].
  - rewrite A1. unfold countIf.
    apply Nat2Z.inj_le, ScreenFacts.filter_length_le.
  - rewrite A7. split; [|apply points_le_point_entries].
    pose proof (countIf_nonneg (isOutcome ATTACK POINT) ls).
    pose proof (countIf_nonneg (isOutcome BLOCK POINT) ls).
    pose proof (countIf_nonneg (isOutcome SERVE POINT) ls). lia.
  - unfold attackRate.
    destruct (attackTotal (calculateStats ls) >? 0) eqn:T; [|lia].
    apply Z.gtb_lt in T.
    destruct (ratio_bounds _ _ K T) as [R0 R1].
    unfold Math_round.
    set (q := (inject_Z (attackKills (calculateStats ls))
               / inject_Z (attackTotal (calculateStats ls)))%Q) in *.
    assert (L : (0 <= q * 100 + (1 # 2))%Q) by Lqa.lra.
    assert (U : (q * 100 + (1 # 2) <= 100 + (1 # 2))%Q) by Lqa.lra.
    apply Qfloor_resp_le in L, U. split; [exact L|exact U].
Qed.

(** X20: an entry synthesized by a manual score adjustment is counted for
    the opponent, whichever side the adjustment was for (unless my team's
    name is the note text itself): it joins the opponent's list, adds one
    attack attempt to the opponent's statistics and, for a positive
    adjustment, one attack kill and one total point; my team's list does
    not change, and the shot chart never draws the entry. *)
Theorem manual_adjustment_counts_for_opponent :
  forall (snap : GameView.GameViewProps) (now1 now2 : Z) (mine : bool)
         (delta : Z) (cfg : TeamConfig) (logs : list Log.LogEntry),
    myName cfg <> Trace.manualNote delta ->
    exists e : Log.LogEntry,
      GameView.newLog (GameView.handleScoreAdjust snap now1 now2 mine delta)
        = Some e /\
      getTeamLogs (logs ++ [e]) cfg me = getTeamLogs logs cfg me /\
      getTeamLogs (logs ++ [e]) cfg op = getTeamLogs logs cfg op ++ [e] /\
      let before := calculateStats (getTeamLogs logs cfg op) in
      let after := calculateStats (getTeamLogs (logs ++ [e]) cfg op) in
      let gain := if delta >? 0 then 1 else 0 in
      attackTotal after = attackTotal before + 1 /\
      attackKills after = attackKills before + gain /\
      totalPoints after = totalPoints before + gain /\
      ShotChart.drawLogs [e] = [].
Proof.
  intros snap now1 now2 mine delta cfg logs Hname.
  destruct (ScreenFacts.handleScoreAdjust_manual snap now1 now2 mine delta)
    as (e & He & (Hs & _ & _ & Ha & _ & _) & Hnote & Hres).
  exists e. split; [exact He|].
  assert (Hm : isMine cfg e = false).
  { unfold isMine. apply String.eqb_neq. rewrite Hnote. congruence. }
  assert (Eme : getTeamLogs (logs ++ [e]) cfg me = getTeamLogs logs cfg me).
  { rewrite !getTeamLogs_me, filter_app. simpl. rewrite Hm.
    apply app_nil_r. }
  assert (Eop : getTeamLogs (logs ++ [e]) cfg op
                = getTeamLogs logs cfg op ++ [e]).
  { rewrite !getTeamLogs_op, filter_app. simpl. rewrite Hm. reflexivity. }
  split; [exact Eme|]. split; [exact Eop|]. cbv zeta. rewrite Eop.
  destruct (stats_counts (getTeamLogs logs cfg op ++ [e]))
    as (A1 & A2 & _ & _ & _ & _ & A7).
  destruct (stats_counts (getTeamLogs logs cfg op))
    as (B1 & B2 & _ & _ & _ & _ & B7).
  rewrite A1, A2, A7, B1, B2, B7, !countIf_app.
  unfold countIf, isAction, isOutcome, ShotChart.drawLogs. simpl.
  rewrite Ha, Hres, Hs. simpl.
  destruct (delta >? 0); simpl; repeat split; lia.
Qed.

Lemma manual_adjustment_counts_for_opponent_witness :
  exists e : Log.LogEntry,
    GameView.newLog
      (GameView.handleScoreAdjust (Scenario.kickoff me) 7 7 true 1) = Some e /\
    getTeamLogs ([] ++ [e]) Scenario.config op = [] ++ [e].
Proof.
  destruct (manual_adjustment_counts_for_opponent (Scenario.kickoff me) 7 7
              true 1 Scenario.config [])
    as (e & He & _ & Hop & _).
  - discriminate.
  - exists e. split; [exact He|exact Hop].
Defined.

End TeamStatsFacts.

(** ** The top scorers *)

Module RankingFacts.
Import Types StatsOverlay Ranking.
Local Open Scope Z_scope.

Lemma insertByPoints_In (a b : PlayerPoints) (l : list PlayerPoints) :
  In b (insertByPoints a l) <-> b = a \/ In b l.
Proof.
  induction l as [|c l IH]; simpl; [intuition|].
  destruct (points a <? points c); simpl; rewrite ?IH; intuition.
Qed.

Lemma sortByPoints_In (b : PlayerPoints) (l : list PlayerPoints) :
  In b (sortByPoints l) <-> In b l.
Proof.
  induction l as [|a l IH]; simpl; [reflexivity|].
  rewrite insertByPoints_In, IH. intuition.
Qed.

Lemma insertByPoints_cons (a : PlayerPoints) (l : list PlayerPoints) :
  insertByPoints a l <> [].
Proof. destruct l as [|b l]; simpl; [|destruct (points a <? points b)]; discriminate. Qed.

(** The head of the sorted list is the first element with the most
    points. *)
Lemma sortByPoints_head (l : list PlayerPoints) :
  forall h rest, sortByPoints l = h :: rest -> firstBest h l.
Proof.
  induction l as [|a l IH]; intros h rest; simpl; [discriminate|].
  destruct (sortByPoints l) as [|b r] eqn:E.
  - destruct l as [|c l]; [|exfalso; exact (insertByPoints_cons _ _ E)].
    simpl. intros [= <- <-]. exists [], []. repeat split;
      intros b [].
  - destruct (IH b r eq_refl) as (before & after & -> & Hb & Ha).
    simpl. destruct (points a <? points b) eqn:C.
    + apply Z.ltb_lt in C. intros [= <- <-].
      exists (a :: before), after. repeat split; [|exact Ha].
      intros c [<-|Hc]; [exact C|apply Hb, Hc].
    + apply Z.ltb_ge in C. intros [= <- <-].
      exists [], (before ++ b :: after)%list. repeat split; [intros c []|].
      intros c Hc. apply in_app_iff in Hc as [Hc|[<-|Hc]].
      * specialize (Hb c Hc). lia.
      * exact C.
      * specialize (Ha c Hc). lia.
Qed.

Lemma pointsOf_nonneg (teamLogs : list Log.LogEntry) (p : string) :
  0 <= pointsOf teamLogs p.
Proof.
  unfold pointsOf.
  destruct (TeamStatsFacts.stats_counts
              (filter (fun l => String.eqb (Log.playerNumber l) p) teamLogs))
    as (_ & _ & _ & _ & _ & _ & ->).
  pose proof (TeamStatsFacts.countIf_nonneg (isOutcome ATTACK POINT)
                (filter (fun l => String.eqb (Log.playerNumber l) p)
                   teamLogs)).
  pose proof (TeamStatsFacts.countIf_nonneg (isOutcome BLOCK POINT)
                (filter (fun l => String.eqb (Log.playerNumber l) p)
                   teamLogs)).
  pose proof (TeamStatsFacts.countIf_nonneg (isOutcome SERVE POINT)
                (filter (fun l => String.eqb (Log.playerNumber l) p)
                   teamLogs)).
  lia.
Qed.

(** The ranking of a list of players by a score. *)
Lemma ranking_top (pts : string -> Z) (players : list string) :
  let sorted :=
    sortByPoints
      (map (fun p => {| number := p; points := pts p |}) players) in
  (forall p, topAt 0 sorted = Some p ->
     0 < pts p /\
     exists before after,
       players = (before ++ p :: after)%list /\
       (forall q, In q before -> pts q < pts p) /\
       (forall q, In q after -> pts q <= pts p)) /\
  (topAt 0 sorted = None -> forall q, In q players -> pts q <= 0) /\
  (forall q, topAt 1 sorted = Some q ->
     In q players /\ 0 < pts q /\
     exists p, topAt 0 sorted = Some p /\ pts q <= pts p).
Proof.
  cbv zeta.
  set (f := fun p => {| number := p; points := pts p |}).
  assert (D : forall h rest,
             sortByPoints (map f players) = h :: rest ->
             exists before after,
               players = (before ++ number h :: after)%list /\
               points h = pts (number h) /\
               (forall q, In q before -> pts q < points h) /\
               (forall q, In q after -> pts q <= points h)).
  { intros h rest E.
    destruct (sortByPoints_head _ _ _ E) as (b & a & Hl & Hb & Ha).
    apply map_eq_app in Hl as (pb & pr & -> & <- & Hr).
    apply map_eq_cons in Hr as (ph & pa & -> & <- & <-).
    exists pb, pa. simpl. repeat split.
    - intros q Hq. apply (Hb (f q)). apply in_map. exact Hq.
    - intros q Hq. apply (Ha (f q)). apply in_map. exact Hq. }
  unfold topAt.
  destruct (sortByPoints (map f players)) as [|h1 rest] eqn:E; simpl.
  - split; [intros p [=]|]. split; [|intros q [=]].
    intros _ q Hq. exfalso.
    assert (In (f q) (sortByPoints (map f players))) as Hin
      by (apply sortByPoints_In, in_map; exact Hq).
    rewrite E in Hin. exact Hin.
  - destruct (D h1 rest eq_refl) as (before & after & Hp & Hh & Hb & Ha).
    assert (M : forall q, In q players -> pts q <= points h1).
    { intros q Hq. rewrite Hp in Hq.
      apply in_app_iff in Hq as [Hq|[<-|Hq]].
      - specialize (Hb q Hq). lia.
      - lia.
      - apply Ha, Hq. }
    split; [|split].
    + destruct (points h1 >? 0) eqn:C; [|intros p [=]].
      apply Z.gtb_lt in C. intros p [= <-].
      split; [lia|]. exists before, after. rewrite <- Hh. auto.
    + destruct (points h1 >? 0) eqn:C; [intros [=]|].
      intros _ q Hq. specialize (M q Hq).
      assert (~ 0 < points h1) by (rewrite <- Z.gtb_lt; congruence). lia.
    + destruct rest as [|h2 rest]; simpl; [intros q [=]|].
      destruct (points h2 >? 0) eqn:C; [|intros q [=]].
      apply Z.gtb_lt in C. intros q [= <-].
      assert (In h2 (map f players)) as Hin.
      { apply sortByPoints_In. rewrite E. right. left. reflexivity. }
      apply in_map_iff in Hin as (q & <- & Hq). simpl in *.
      specialize (M q Hq).
      split; [exact Hq|]. split; [exact C|].
      exists (number h1).
      replace (points h1 >? 0) with true
        by (symmetry; apply Z.gtb_lt; lia).
      split; [reflexivity|lia].
Qed.

(** X21: the first highlighted player of the overlay is the first player of
    the list, in the order shown, that has the most total points, and it is
    highlighted only with at least one point; when none is highlighted every
    player of the list has zero points.  The second highlighted player is a
    player of the list with at least one point and not more points than the
    first. *)
Theorem top_scorers :
  forall (sortPlayers : list string -> list string)
         (logs : list Log.LogEntry) (cfg : TeamConfig) (tab : TeamSide),
    let shown := activePlayersList sortPlayers logs cfg tab in
    let pts := pointsOf (getTeamLogs logs cfg tab) in
    (forall p, top1 shown = Some p ->
       0 < pts p /\
       exists before after,
         players shown = (before ++ p :: after)%list /\
         (forall q, In q before -> pts q < pts p) /\
         (forall q, In q after -> pts q <= pts p)) /\
    (top1 shown = None -> forall q, In q (players shown) -> pts q = 0) /\
    (forall q, top2 shown = Some q ->
       In q (players shown) /\ 0 < pts q /\
       exists p, top1 shown = Some p /\ pts q <= pts p).
Proof.
  intros sortPlayers logs cfg tab. cbv zeta.
  unfold activePlayersList; simpl.
  destruct (ranking_top (pointsOf (getTeamLogs logs cfg tab))
              (sortPlayers
                 (unique (map Log.playerNumber (getTeamLogs logs cfg tab)))))
    as (H1 & H2 & H3).
  split; [exact H1|]. split; [|exact H3].
  intros Hn q Hq. specialize (H2 Hn q Hq).
  pose proof (pointsOf_nonneg (getTeamLogs logs cfg tab) q). lia.
Qed.

End RankingFacts.

(** ** The capture on the screen, from the action to the outcome *)

Module CaptureFacts.
Import Types Trace.

Lemma rerender_changed (impl : Screen.CourtImpl) (old new : GameView.Hooks)
  (t : Court.Trajectory) :
  GameView.state old <> GameView.state new ->
  Screen.rerender impl old new t
    = Screen.onEffect impl (Screen.courtProps new) t.
Proof.
  intros H. unfold Screen.rerender.
  destruct (Screen.CourtProps_eq_dec (Screen.courtProps old)
              (Screen.courtProps new)) as [E|N]; [|reflexivity].
  exfalso. apply H. injection E. auto.
Qed.

(** X22: choosing an action after a player seeds the start of the
    trajectory at the anchor of that player (the serve anchor beside the
    court when the action is Serve) and puts the capture into DRAWING,
    whatever was on the screen before; an outcome confirmed for a selected
    player and action returns the capture to IDLE with player, action and
    trajectory dropped, and both ends removed from the court. *)
Theorem capture_seeds_and_clears :
  forall (s : Screen.Screen) (side : TeamSide) (pos : PlayerPos)
         (act : ActionType),
    (let drawing :=
       fst (Screen.run Screen.currentCourt s
              [Screen.PressPlayer side pos; Screen.ChooseAction act]) in
     GameView.state (Screen.hooks drawing) = GameView.DRAWING /\
     GameView.selectedPos (Screen.hooks drawing) = Some pos /\
     GameView.selectedAction (Screen.hooks drawing) = Some act /\
     Court.startPos (Screen.court drawing)
       = Some (Court.getPositionCenter (Some act) side pos false)) /\
    (forall now1 now2 r,
        GameView.state (Screen.hooks s) = GameView.RESULT_PENDING ->
        GameView.selectedPos (Screen.hooks s) = Some pos ->
        GameView.selectedAction (Screen.hooks s) = Some act ->
        let idle :=
          fst (Screen.step Screen.currentCourt s
                 (Screen.ChooseResult now1 now2 r)) in
        Screen.hooks idle = GameView.resetFlow (Screen.hooks s) /\
        GameView.state (Screen.hooks idle) = GameView.IDLE /\
        Court.startPos (Screen.court idle) = None /\
        Court.endPos (Screen.court idle) = None).
Proof.
  intros s side pos act. split.
  - cbv zeta. cbn -[Screen.rerender Court.getPositionCenter].
    rewrite (rerender_changed Screen.currentCourt
               (GameView.handlePlayerSelect (Screen.hooks s) side pos))
      by (simpl; discriminate).
    cbn -[Court.getPositionCenter]. repeat split.
  - intros now1 now2 r Hst Hpos Hact. cbv zeta.
    unfold Screen.step. rewrite Hst.
    destruct (ScreenFacts.handleResult_cases (Screen.snapshot s) now1 now2
                (Screen.hooks s) r) as [E|(a & e & E & _)].
    + exfalso. unfold GameView.handleResult in E.
      rewrite Hpos, Hact in E.
      destruct r, (TeamSide_eqb (GameView.activeSide (Screen.hooks s)) me),
        (GameView.servingTeam (Screen.snapshot s));
        simpl in E; discriminate.
    + rewrite E. cbn -[Screen.rerender].
      rewrite rerender_changed by (simpl; rewrite Hst; discriminate).
      simpl. repeat split.
Qed.

Lemma capture_seeds_and_clears_witness :
  Court.startPos
    (Screen.court
       (fst (Screen.step Screen.currentCourt
               (Scenario.attackDrawn (Scenario.kickoff me)
                  Scenario.deepCorner None)
               (Screen.ChooseResult 7 7 POINT))))
    = None.
Proof.
  apply (proj2 (capture_seeds_and_clears
                  (Scenario.attackDrawn (Scenario.kickoff me)
                     Scenario.deepCorner None)
                  me (Slot P3) ATTACK) 7%Z 7%Z POINT eq_refl eq_refl eq_refl).
Defined.

End CaptureFacts.

(** ** What an event records, and where the overlay files it *)

Module LogFacts.
Import Types GameView StatsOverlay Trace.
Local Open Scope Z_scope.

Lemma handleResult_entry (props : GameViewProps) (n1 n2 : Z) (h h' : Hooks)
  (r : ResultType) (a : GameAction) :
  handleResult props n1 n2 h r = (h', Some a) ->
  exists e pos act,
    newLog a = Some e /\
    selectedPos h = Some pos /\ selectedAction h = Some act /\
    Log.note e = (if TeamSide_eqb (activeSide h) me
                  then myName (teamConfig props)
                  else opName (teamConfig props)) /\
    Log.playerNumber e =
      match pos with
      | L => Owner.liberoOf props (activeSide h)
      | Slot p => lineupAt (Owner.lineupOf props (activeSide h)) p
      end /\
    Log.position e = pos /\ Log.action e = act /\ Log.result e = r /\
    recordsAfter props a e.
Proof.
  unfold handleResult.
  destruct (selectedPos h) as [pos|]; [|discriminate].
  destruct (selectedAction h) as [act|]; [|discriminate].
  intros E.
  destruct r, (activeSide h), (servingTeam props) eqn:S; simpl in E;
    injection E as _ <-; eexists; exists pos, act;
    unfold recordsAfter, deltaOf; simpl; rewrite ?S;
    repeat split; try reflexivity;
    try (cbn [Log.myScore Log.opScore]; lia); destruct pos; reflexivity.
Qed.

Lemma filed_mine (cfg : TeamConfig) (logs : list Log.LogEntry)
  (e : Log.LogEntry) :
  Ranking.isMine cfg e = true -> filedUnder cfg logs e me.
Proof.
  intros Hm. unfold filedUnder. simpl Owner.opponent.
  rewrite !TeamStatsFacts.getTeamLogs_me, !TeamStatsFacts.getTeamLogs_op,
    !filter_app.
  simpl. rewrite Hm. simpl. split; [reflexivity|apply app_nil_r].
Qed.

Lemma filed_theirs (cfg : TeamConfig) (logs : list Log.LogEntry)
  (e : Log.LogEntry) :
  Ranking.isMine cfg e = false -> filedUnder cfg logs e op.
Proof.
  intros Hm. unfold filedUnder. simpl Owner.opponent.
  rewrite !TeamStatsFacts.getTeamLogs_me, !TeamStatsFacts.getTeamLogs_op,
    !filter_app.
  simpl. rewrite Hm. simpl. split; [reflexivity|apply app_nil_r].
Qed.

(** X23: an action confirmed for my team is listed by the overlay for my
    team; an action confirmed for the opponent is listed for the opponent
    when the two team names differ, and for my team, not for the opponent,
    when the two names are the same text. *)
Theorem action_filed_under_acting_side :
  forall (props : GameViewProps) (now1 now2 : Z) (h h' : Hooks)
         (r : ResultType) (a : GameAction) (e : Log.LogEntry)
         (logs : list Log.LogEntry),
    handleResult props now1 now2 h r = (h', Some a) ->
    newLog a = Some e ->
    let cfg := teamConfig props in
    (activeSide h = me -> filedUnder cfg logs e me) /\
    (activeSide h = op -> myName cfg <> opName cfg ->
     filedUnder cfg logs e op) /\
    (activeSide h = op -> myName cfg = opName cfg ->
     filedUnder cfg logs e me).
Proof.
  intros props now1 now2 h h' r a e logs Hr He cfg.
  destruct (handleResult_entry props now1 now2 h h' r a Hr)
    as (e' & pos & act & He' & _ & _ & Hnote & _).
  rewrite He' in He. injection He as ->.
  split; [|split].
  - intros Hs. rewrite Hs in Hnote. simpl in Hnote.
    apply filed_mine. unfold Ranking.isMine. rewrite Hnote.
    apply String.eqb_refl.
  - intros Hs Hn. rewrite Hs in Hnote. simpl in Hnote.
    apply filed_theirs. unfold Ranking.isMine. rewrite Hnote.
    apply String.eqb_neq. intros E. apply Hn. symmetry. exact E.
  - intros Hs Hn. rewrite Hs in Hnote. simpl in Hnote.
    apply filed_mine. unfold Ranking.isMine. rewrite Hnote.
    apply String.eqb_eq. symmetry. exact Hn.
Qed.

Lemma action_filed_under_acting_side_witness :
  exists e : Log.LogEntry,
    snd (handleResult (Scenario.kickoff me) 7 7
           {| state := RESULT_PENDING; activeSide := op;
              selectedPos := Some (Slot P2); selectedAction := Some SERVE;
              startCoord := None; endCoord := None |} ERROR)
      = Some (onGameAction (Some e)
                (Some {| myDelta := 1; opDelta := 0 |}) None None) /\
    filedUnder Scenario.config [] e op.
Proof.
  eexists. split; [reflexivity|].
  refine (proj1 (proj2 (action_filed_under_acting_side
                          (Scenario.kickoff me) 7 7
                          {| state := RESULT_PENDING; activeSide := op;
                             selectedPos := Some (Slot P2);
                             selectedAction := Some SERVE;
                             startCoord := None; endCoord := None |}
                          _ ERROR _ _ [] eq_refl eq_refl)) eq_refl _).
  discriminate.
Defined.

(** X24: the entry either handler logs records the set, both scores and the
    serving side as they are after the deltas of the same call: each
    logged score is the score of the snapshot plus the score delta the call
    carries for that side (no delta counts as 0, and a decrement is not
    clamped), and the logged serving side is the new serving side when the
    call carries one and the current one otherwise. *)
Theorem logged_entry_records_state_after_call :
  forall (props : GameViewProps) (now1 now2 : Z),
    (forall (h h' : Hooks) (r : ResultType) (a : GameAction),
        handleResult props now1 now2 h r = (h', Some a) ->
        exists e, newLog a = Some e /\ recordsAfter props a e) /\
    (forall (mine : bool) (delta : Z),
        let a := handleScoreAdjust props now1 now2 mine delta in
        exists e,
          newLog a = Some e /\ recordsAfter props a e /\
          deltaOf (if mine then me else op) a = delta /\
          deltaOf (if mine then op else me) a = 0).
Proof.
  intros props now1 now2. split.
  - intros h h' r a Hr.
    destruct (handleResult_entry props now1 now2 h h' r a Hr)
      as (e & pos & act & He & _ & _ & _ & _ & _ & _ & _ & Hafter).
    exists e. split; assumption.
  - intros mine delta. cbv zeta. unfold handleScoreAdjust.
    destruct (delta >? 0), mine, (servingTeam props) eqn:S;
      cbn -[toString Z.add]; eexists; (split; [reflexivity|]);
      unfold recordsAfter, deltaOf; cbn -[toString Z.add]; rewrite ?S;
      repeat split; try reflexivity; lia.
Qed.

End LogFacts.

(** ** The capture between action and outcome, on every run *)

Module FlowFacts.
Import Types Trace.

Lemma rerender_same (impl : Screen.CourtImpl) (h : GameView.Hooks)
  (t : Court.Trajectory) : Screen.rerender impl h h t = t.
Proof.
  unfold Screen.rerender.
  destruct (Screen.CourtProps_eq_dec (Screen.courtProps h)
              (Screen.courtProps h)) as [_|N]; [reflexivity|].
  exfalso. apply N. reflexivity.
Qed.

(** The effect of either Court does nothing while an outcome is awaited. *)
Lemma rerender_pending (impl : Screen.CourtImpl) (old new : GameView.Hooks)
  (t : Court.Trajectory) :
  impl = Screen.currentCourt \/ impl = Screen.earlyCourt ->
  GameView.state new = GameView.RESULT_PENDING ->
  Screen.rerender impl old new t = t.
Proof.
  intros Himpl Hst. unfold Screen.rerender.
  destruct (Screen.CourtProps_eq_dec (Screen.courtProps old)
              (Screen.courtProps new)) as [_|_]; [reflexivity|].
  destruct Himpl as [-> | ->]; simpl;
    [unfold Court.autoStart|unfold CourtEarly.autoStart];
    simpl; rewrite Hst; reflexivity.
Qed.

Lemma deliver_commits (commits : list Court.Commit) :
  forall h, commits <> [] ->
            GameView.state (Screen.deliver h commits)
            = GameView.RESULT_PENDING.
Proof.
  unfold Screen.deliver.
  induction commits as [|c rest IH]; intros h Hne; [congruence|].
  simpl. destruct rest as [|c' rest]; [reflexivity|].
  apply IH. discriminate.
Qed.

(** A pointer event keeps the start point on the court when the handler
    keeps it and commits only with a start point. *)
Lemma pointer_showsStart (impl : Screen.CourtImpl) (s : Screen.Screen)
  (r : Court.Trajectory * list Court.Commit) :
  impl = Screen.currentCourt \/ impl = Screen.earlyCourt ->
  showsStart s ->
  (Court.startPos (Screen.court s) <> None ->
   Court.startPos (fst r) <> None) ->
  (snd r <> [] -> Court.startPos (fst r) <> None) ->
  showsStart (fst (Screen.pointer impl s r)).
Proof.
  intros Himpl [Hc Hp] Hkeep Hcommit.
  unfold Screen.pointer, showsStart.
  cbn [fst Screen.hooks Screen.court].
  destruct (snd r) as [|c rest] eqn:E.
  - rewrite ScreenFacts.deliver_nil, rerender_same. split; [|exact Hp].
    intros H. apply Hkeep, Hc, H.
  - assert (Hst : GameView.state (Screen.deliver (Screen.hooks s) (c :: rest))
                  = GameView.RESULT_PENDING)
      by (apply deliver_commits; discriminate).
    rewrite (rerender_pending impl _ _ _ Himpl Hst). split.
    + intros _. apply Hcommit. discriminate.
    + rewrite Hst. discriminate.
Qed.

Lemma setHooks_same (impl : Screen.CourtImpl) (s : Screen.Screen) :
  Screen.setHooks impl s (Screen.hooks s) = s.
Proof.
  unfold Screen.setHooks. rewrite rerender_same. destruct s; reflexivity.
Qed.

Lemma down_keeps_start (props : Court.CourtProps) (t : Court.Trajectory)
  (pt : Court.Point) :
  Court.startPos (fst (Court.handlePointerDown props t pt))
    = Court.startPos t /\
  snd (Court.handlePointerDown props t pt) = [] /\
  Court.startPos (fst (CourtEarly.handlePointerDown props t pt))
    = Court.startPos t /\
  (snd (CourtEarly.handlePointerDown props t pt) <> [] ->
   Court.startPos t <> None).
Proof.
  unfold Court.handlePointerDown, CourtEarly.handlePointerDown.
  destruct (Court.capturing (Court.state props)),
    (Court.hits pt (Court.endPos t)), (Court.hits pt (Court.startPos t));
    simpl; repeat split; try congruence;
    destruct (Court.startPos t); intros H; try discriminate;
    exfalso; apply H; reflexivity.
Qed.

Lemma move_keeps_start (props : Court.CourtProps) (t : Court.Trajectory)
  (pt : Court.Point) :
  (Court.startPos t <> None ->
   Court.startPos (fst (Court.handlePointerMove props t pt)) <> None) /\
  snd (Court.handlePointerMove props t pt) = [] /\
  (Court.startPos t <> None ->
   Court.startPos (fst (CourtEarly.handlePointerMove props t pt)) <> None) /\
  (snd (CourtEarly.handlePointerMove props t pt) <> [] ->
   Court.startPos (fst (CourtEarly.handlePointerMove props t pt)) <> None).
Proof.
  unfold Court.handlePointerMove, CourtEarly.handlePointerMove.
  destruct (Court.dragMode t) as [[]|]; simpl; repeat split;
    try congruence; try discriminate;
    destruct (Court.startPos t); intros H; try discriminate;
    exfalso; apply H; reflexivity.
Qed.

Lemma step_showsStart (impl : Screen.CourtImpl) (s : Screen.Screen)
  (i : Screen.Input) :
  impl = Screen.currentCourt \/ impl = Screen.earlyCourt ->
  showsStart s -> showsStart (fst (Screen.step impl s i)).
Proof.
  intros Himpl Hs.
  destruct i as [side pos|act| |pt|pt| | |n1 n2 r|n1 n2 mine d|mine];
    unfold Screen.step.
  - split; simpl; discriminate.
  - destruct (GameView.state (Screen.hooks s)) eqn:E; try exact Hs.
    destruct Hs as [_ Hp]. specialize (Hp E).
    destruct (GameView.selectedPos (Screen.hooks s)) as [pos|] eqn:P;
      [|congruence].
    unfold showsStart, Screen.setHooks. cbn [fst Screen.hooks Screen.court].
    split; [intros _|simpl; discriminate].
    rewrite CaptureFacts.rerender_changed by (simpl; rewrite E; discriminate).
    destruct Himpl as [-> | ->]; simpl;
      [unfold Court.autoStart|unfold CourtEarly.autoStart];
      simpl; rewrite P; simpl; discriminate.
  - destruct (GameView.state (Screen.hooks s)) eqn:E; try exact Hs.
    split; simpl; discriminate.
  - destruct (down_keeps_start (Screen.courtProps (Screen.hooks s))
                (Screen.court s) pt) as (D1 & D2 & D3 & D4).
    apply pointer_showsStart; [exact Himpl|exact Hs| |];
      destruct Himpl as [-> | ->]; cbn [Screen.onPointerDown
        Screen.currentCourt Screen.earlyCourt];
      rewrite ?D1, ?D2, ?D3; auto; congruence.
  - destruct (move_keeps_start (Screen.courtProps (Screen.hooks s))
                (Screen.court s) pt) as (M1 & M2 & M3 & M4).
    apply pointer_showsStart; [exact Himpl|exact Hs| |];
      destruct Himpl as [-> | ->]; cbn [Screen.onPointerMove
        Screen.currentCourt Screen.earlyCourt];
      rewrite ?M2; auto; congruence.
  - apply pointer_showsStart; [exact Himpl|exact Hs| |].
    + destruct Himpl as [-> | ->]; simpl; auto.
    + destruct Himpl as [-> | ->]; simpl; [|congruence].
      destruct (Court.startPos (Screen.court s)); intros H;
        [discriminate|exfalso; apply H; reflexivity].
  - apply pointer_showsStart; [exact Himpl|exact Hs| |].
    + destruct Himpl as [-> | ->]; simpl; auto.
    + destruct Himpl as [-> | ->]; simpl; [|congruence].
      destruct (Court.startPos (Screen.court s)); intros H;
        [discriminate|exfalso; apply H; reflexivity].
  - destruct (GameView.state (Screen.hooks s)) eqn:E; try exact Hs.
    destruct (ScreenFacts.handleResult_cases (Screen.snapshot s) n1 n2
                (Screen.hooks s) r) as [->|(a & e & -> & _)].
    + rewrite setHooks_same. split; apply Hs.
    + split; simpl; discriminate.
  - exact Hs.
  - exact Hs.
Qed.

Lemma run_showsStart (impl : Screen.CourtImpl) (inputs : list Screen.Input) :
  impl = Screen.currentCourt \/ impl = Screen.earlyCourt ->
  forall s, showsStart s -> showsStart (fst (Screen.run impl s inputs)).
Proof.
  intros Himpl. induction inputs as [|i rest IH]; intros s Hs; [exact Hs|].
  simpl. pose proof (step_showsStart impl s i Himpl Hs) as H1.
  destruct (Screen.step impl s i) as [s1 o1]. simpl in H1.
  specialize (IH s1 H1).
  destruct (Screen.run impl s1 rest) as [s2 o2]. exact IH.
Qed.

Lemma reachable_showsStart (impl : Screen.CourtImpl) (s : Screen.Screen) :
  impl = Screen.currentCourt \/ impl = Screen.earlyCourt ->
  reachable impl s -> showsStart s.
Proof.
  intros Himpl (snap & inputs & ->).
  apply run_showsStart; [exact Himpl|].
  split; simpl; discriminate.
Qed.

(** X25: with either Court, whatever the operator does after the mount,
    while a capture is drawn or awaits its outcome the court holds a start
    point (the ball is on the court), and the action modal is never up
    without a chosen player. *)
Theorem capture_always_has_start_point :
  forall (snap : GameView.GameViewProps) (inputs : list Screen.Input),
    showsStart (fst (Screen.run Screen.currentCourt (Screen.start snap)
                       inputs)) /\
    showsStart (fst (Screen.run Screen.earlyCourt (Screen.start snap)
                       inputs)).
Proof.
  intros snap inputs. split.
  - apply (reachable_showsStart Screen.currentCourt); [left; reflexivity|].
    exists snap, inputs. reflexivity.
  - apply (reachable_showsStart Screen.earlyCourt); [right; reflexivity|].
    exists snap, inputs. reflexivity.
Qed.

(** X26: with the Court component, a tap and its release during DRAWING
    always end in one of two ways.  When the tap leaves an end point on the
    court (it was placed by the tap, or it was there before), the release
    makes exactly one call of [onDrawingComplete] with the normalized start
    and end points, and [GameView] awaits the outcome holding these two
    coordinates.  When the tap grabbed the start point and there is no end
    point yet, nothing is handed over and the capture stays in DRAWING. *)
Theorem tap_and_release :
  forall (s : Screen.Screen) (pt : Court.Point),
    reachable Screen.currentCourt s ->
    GameView.state (Screen.hooks s) = GameView.DRAWING ->
    exists a : Court.Point,
      Court.startPos (Screen.court s) = Some a /\
      let after :=
        Screen.run Screen.currentCourt s
          [Screen.PointerDown pt; Screen.PointerUp] in
      match tapEnd (Screen.court s) pt with
      | Some e =>
          snd after
            = [Screen.DrawingComplete (Court.normalize a)
                 (Court.normalize e)] /\
          GameView.state (Screen.hooks (fst after))
            = GameView.RESULT_PENDING /\
          GameView.startCoord (Screen.hooks (fst after))
            = Some (Court.normalize a) /\
          GameView.endCoord (Screen.hooks (fst after))
            = Some (Court.normalize e)
      | None =>
          snd after = [] /\
          Screen.hooks (fst after) = Screen.hooks s
      end.
Proof.
  intros s pt Hr Hst.
  destruct (reachable_showsStart Screen.currentCourt s
              (or_introl eq_refl) Hr) as [Hc _].
  rewrite Hst in Hc. specialize (Hc eq_refl).
  destruct s as [snap h [sp ep dm]]. simpl in Hst, Hc.
  destruct sp as [a|]; [clear Hc|congruence].
  exists a. split; [reflexivity|]. cbv zeta.
  unfold tapEnd, Screen.run, Screen.step, Screen.pointer.
  cbn [Screen.onPointerDown Screen.onPointerUp Screen.currentCourt
       Screen.hooks Screen.court Screen.snapshot].
  unfold Court.handlePointerDown.
  cbn [Court.state Screen.courtProps Court.startPos Court.endPos].
  rewrite Hst. cbn [Court.capturing negb].
  destruct (Court.hits pt ep) eqn:He;
    [|destruct (Court.hits pt (Some a)) eqn:Hs];
    cbn [fst snd]; rewrite ScreenFacts.deliver_nil, rerender_same;
    cbn [Screen.hooks Screen.court Screen.snapshot Court.handlePointerUp
         Court.startPos Court.endPos fst snd Screen.drawn map app];
    try (destruct ep as [e|]);
    cbn [fst snd Screen.drawn map app Screen.deliver fold_left];
    rewrite ?ScreenFacts.deliver_nil, ?rerender_same;
    repeat split.
Qed.

Lemma tap_and_release_witness :
  exists a : Court.Point,
    Court.startPos
      (Screen.court
         (fst (Screen.run Screen.currentCourt
                 (Screen.start (Scenario.kickoff me))
                 [Screen.PressPlayer me (Slot P3);
                  Screen.ChooseAction ATTACK])))
      = Some a.
Proof.
  destruct (tap_and_release
              (fst (Screen.run Screen.currentCourt
                      (Screen.start (Scenario.kickoff me))
                      [Screen.PressPlayer me (Slot P3);
                       Screen.ChooseAction ATTACK]))
              Scenario.deepCorner) as (a & Ha & _).
  - exists (Scenario.kickoff me),
      [Screen.PressPlayer me (Slot P3); Screen.ChooseAction ATTACK].
    reflexivity.
  - reflexivity.
  - exists a. exact Ha.
Defined.

Lemma rerender_selected (old new : GameView.Hooks) (t : Court.Trajectory) :
  GameView.state new = GameView.PLAYER_SELECTED ->
  Screen.rerender Screen.currentCourt old new t = t.
Proof.
  intros Hst. unfold Screen.rerender.
  destruct (Screen.CourtProps_eq_dec (Screen.courtProps old)
              (Screen.courtProps new)) as [_|_]; [reflexivity|].
  simpl. unfold Court.autoStart. simpl. rewrite Hst. reflexivity.
Qed.

Lemma press_step (s : Screen.Screen) (side : TeamSide) (pos : PlayerPos) :
  Screen.step Screen.currentCourt s (Screen.PressPlayer side pos)
  = ({| Screen.snapshot := Screen.snapshot s;
        Screen.hooks := GameView.handlePlayerSelect (Screen.hooks s) side pos;
        Screen.court := Screen.court s |}, []).
Proof.
  unfold Screen.step, Screen.setHooks.
  rewrite rerender_selected by reflexivity. reflexivity.
Qed.

Lemma choose_step (s : Screen.Screen) (side : TeamSide) (pos : PlayerPos)
  (act : ActionType) :
  GameView.state (Screen.hooks s) = GameView.PLAYER_SELECTED ->
  GameView.activeSide (Screen.hooks s) = side ->
  GameView.selectedPos (Screen.hooks s) = Some pos ->
  Screen.step Screen.currentCourt s (Screen.ChooseAction act)
  = ({| Screen.snapshot := Screen.snapshot s;
        Screen.hooks := GameView.handleActionSelect (Screen.hooks s) act;
        Screen.court :=
          {| Court.startPos :=
               Some (Court.getPositionCenter (Some act) side pos false);
             Court.endPos := Court.endPos (Screen.court s);
             Court.dragMode := Court.dragMode (Screen.court s) |} |}, []).
Proof.
  intros Hst Hside Hpos. unfold Screen.step, Screen.setHooks. rewrite Hst.
  rewrite CaptureFacts.rerender_changed by (simpl; rewrite Hst; discriminate).
  cbn -[Court.getPositionCenter]. unfold Court.autoStart.
  cbn -[Court.getPositionCenter]. rewrite Hside, Hpos. reflexivity.
Qed.

(** X27: selecting another player does not take the end point off the
    court.  Whatever is on the screen, after a player and an action are
    chosen the Court still holds the end point it held before, while
    [GameView] has dropped its coordinates; if there was one, the next
    release, without any tap, hands over the arrow from the new player's
    anchor to that old end point and [GameView] awaits the outcome with
    it. *)
Theorem reselection_keeps_end_point :
  forall (s : Screen.Screen) (side : TeamSide) (pos : PlayerPos)
         (act : ActionType),
    let drawing :=
      fst (Screen.run Screen.currentCourt s
             [Screen.PressPlayer side pos; Screen.ChooseAction act]) in
    Court.endPos (Screen.court drawing) = Court.endPos (Screen.court s) /\
    GameView.endCoord (Screen.hooks drawing) = None /\
    forall e : Court.Point,
      Court.endPos (Screen.court s) = Some e ->
      let released :=
        Screen.step Screen.currentCourt drawing Screen.PointerUp in
      snd released
        = [Screen.DrawingComplete
             (Court.normalize
                (Court.getPositionCenter (Some act) side pos false))
             (Court.normalize e)] /\
      GameView.state (Screen.hooks (fst released))
        = GameView.RESULT_PENDING /\
      GameView.endCoord (Screen.hooks (fst released))
        = Some (Court.normalize e).
Proof.
  intros s side pos act. cbv zeta.
  cbn [Screen.run]. rewrite press_step.
  rewrite (choose_step _ side pos act) by reflexivity.
  cbn [fst snd Screen.hooks Screen.court Screen.snapshot Court.endPos].
  split; [reflexivity|]. split; [reflexivity|].
  intros e He.
  unfold Screen.step, Screen.pointer.
  cbn [Screen.onPointerUp Screen.currentCourt Screen.hooks Screen.court
       Court.handlePointerUp Court.startPos Court.endPos fst snd].
  rewrite He.
  cbn [Screen.drawn map fst snd Screen.deliver fold_left
       GameView.handleDrawingComplete GameView.state GameView.endCoord
       Screen.hooks].
  repeat split.
Qed.

Lemma reselection_keeps_end_point_witness :
  GameView.endCoord
    (Screen.hooks
       (fst (Screen.step Screen.currentCourt
               (fst (Screen.run Screen.currentCourt
                       (Scenario.attackDrawn (Scenario.kickoff me)
                          Scenario.deepCorner None)
                       [Screen.PressPlayer op (Slot P2);
                        Screen.ChooseAction SERVE]))
               Screen.PointerUp)))
    = Some (Court.normalize Scenario.deepCorner).
Proof.
  apply (proj2 (proj2 (reselection_keeps_end_point
                         (Scenario.attackDrawn (Scenario.kickoff me)
                            Scenario.deepCorner None)
                         op (Slot P2) SERVE)) Scenario.deepCorner eq_refl).
Defined.

End FlowFacts.

(** ** Players and team in the overlay *)

Module PlayerSumFacts.
Import Types StatsOverlay Ranking.
Local Open Scope Z_scope.

Lemma total_perm (f : string -> Z) (l l' : list string) :
  Permutation l l' -> total f l = total f l'.
Proof.
  intros H. induction H; simpl; lia.
Qed.

Lemma total_plus (f g : string -> Z) (l : list string) :
  total (fun p => f p + g p) l = total f l + total g l.
Proof.
  induction l as [|p l IH]; simpl; lia.
Qed.

Lemma total_ext (f g : string -> Z) (l : list string) :
  (forall p, f p = g p) -> total f l = total g l.
Proof.
  intros H. induction l as [|p l IH]; simpl; [reflexivity|].
  rewrite H, IH. reflexivity.
Qed.

Lemma total_zero (l : list string) : total (fun _ => 0) l = 0.
Proof. induction l as [|p l IH]; simpl; [reflexivity|exact IH]. Qed.

Lemma total_absent (k : string) (c : Z) (l : list string) :
  ~ In k l -> total (fun p => if String.eqb k p then c else 0) l = 0.
Proof.
  induction l as [|p l IH]; simpl; intros H; [reflexivity|].
  destruct (String.eqb k p) eqn:E.
  - apply String.eqb_eq in E. exfalso. apply H. left. symmetry. exact E.
  - rewrite IH; [reflexivity|]. intros Hin. apply H. right. exact Hin.
Qed.

Lemma total_pick (k : string) (c : Z) (l : list string) :
  NoDup l -> In k l ->
  total (fun p => if String.eqb k p then c else 0) l = c.
Proof.
  induction l as [|p l IH]; simpl; intros Hn Hin; [contradiction|].
  inversion Hn as [|p' l' Hp Hl]; subst.
  destruct (String.eqb k p) eqn:E.
  - apply String.eqb_eq in E. subst p.
    rewrite total_absent by exact Hp. lia.
  - destruct Hin as [->|Hin]; [rewrite String.eqb_refl in E; discriminate|].
    rewrite IH by assumption. lia.
Qed.

(** Counting per player and adding up is counting once. *)
Lemma countIf_by_player (f : Log.LogEntry -> bool) (ps : list string) :
  NoDup ps ->
  forall ls : list Log.LogEntry,
    (forall l, In l ls -> In (Log.playerNumber l) ps) ->
    total
      (fun p =>
         countIf f
           (filter (fun l => String.eqb (Log.playerNumber l) p) ls)) ps
    = countIf f ls.
Proof.
  intros Hn. induction ls as [|a ls IH]; intros Hin.
  - rewrite (total_ext _ (fun _ => 0)) by (intros p; reflexivity).
    rewrite total_zero. reflexivity.
  - rewrite (total_ext _
               (fun p =>
                  (if String.eqb (Log.playerNumber a) p
                   then bump (f a) else 0)
                  + countIf f
                      (filter (fun l => String.eqb (Log.playerNumber l) p)
                         ls))).
    + rewrite total_plus, IH by (intros l Hl; apply Hin; right; exact Hl).
      rewrite total_pick by (try exact Hn; apply Hin; left; reflexivity).
      rewrite StatsFacts.countIf_cons. reflexivity.
    + intros p. cbn [filter].
      destruct (String.eqb (Log.playerNumber a) p); [|lia].
      apply StatsFacts.countIf_cons.
Qed.

Lemma fold_setAdd (l : list string) :
  forall acc,
    NoDup acc ->
    NoDup (fold_left SetupView.setAdd l acc) /\
    forall k, In k (fold_left SetupView.setAdd l acc) <-> In k acc \/ In k l.
Proof.
  induction l as [|n l IH]; intros acc Hn; simpl.
  - split; [exact Hn|]. intros k. intuition.
  - destruct (IH (SetupView.setAdd acc n) (SetupFacts.setAdd_NoDup acc n Hn))
      as [H1 H2].
    split; [exact H1|]. intros k. rewrite H2, SetupFacts.setAdd_In.
    intuition.
Qed.

Lemma unique_spec (l : list string) :
  NoDup (unique l) /\ forall k, In k (unique l) <-> In k l.
Proof.
  destruct (fold_setAdd l [] (NoDup_nil _)) as [H1 H2].
  split; [exact H1|]. intros k. unfold unique. rewrite H2. simpl. intuition.
Qed.

(** X28: the players of the overlay's list are the identifiers that occur
    in the team's entries, each once (the sort only reorders them), and the
    statistics of the players add up to the statistics of the team: for
    every counter, total points included, the sum over the listed players
    of the player's counter is the team's counter. *)
Theorem player_stats_add_up_to_team_stats :
  forall (sortPlayers : list string -> list string)
         (logs : list Log.LogEntry) (cfg : TeamConfig) (tab : TeamSide),
    (forall l, Permutation (sortPlayers l) l) ->
    let shown := players (activePlayersList sortPlayers logs cfg tab) in
    let teamLogs := getTeamLogs logs cfg tab in
    let sum (field : StatSummary -> Z) :=
      total
        (fun p => field (calculateStats (getPlayerLogs logs cfg p tab)))
        shown in
    NoDup shown /\
    (forall p, In p shown <->
               exists l, In l teamLogs /\ Log.playerNumber l = p) /\
    sum attackTotal = attackTotal (calculateStats teamLogs) /\
    sum attackKills = attackKills (calculateStats teamLogs) /\
    sum blocks = blocks (calculateStats teamLogs) /\
    sum serveAces = serveAces (calculateStats teamLogs) /\
    sum serveErrors = serveErrors (calculateStats teamLogs) /\
    sum digs = digs (calculateStats teamLogs) /\
    sum totalPoints = totalPoints (calculateStats teamLogs).
Proof.
  intros sortPlayers logs cfg tab Hsort. cbv zeta.
  unfold activePlayersList. cbn [players].
  set (teamLogs := getTeamLogs logs cfg tab).
  set (ids := unique (map Log.playerNumber teamLogs)).
  destruct (unique_spec (map Log.playerNumber teamLogs)) as [Hn Hin].
  fold ids in Hn, Hin.
  assert (Hn' : NoDup (sortPlayers ids)).
  { apply (Permutation_NoDup (Permutation_sym (Hsort ids))). exact Hn. }
  assert (Hin' : forall l, In l teamLogs ->
                           In (Log.playerNumber l) (sortPlayers ids)).
  { intros l Hl.
    apply (Permutation_in _ (Permutation_sym (Hsort ids))).
    apply Hin. apply in_map. exact Hl. }
  assert (C : forall f,
             total
               (fun p =>
                  countIf f
                    (filter (fun l => String.eqb (Log.playerNumber l) p)
                       teamLogs)) (sortPlayers ids)
             = countIf f teamLogs).
  { intros f. apply countIf_by_player; assumption. }
  destruct (TeamStatsFacts.stats_counts teamLogs)
    as (T1 & T2 & T3 & T4 & T5 & T6 & T7).
  split; [exact Hn'|]. split.
  { intros p. split.
    - intros Hp. apply (Permutation_in _ (Hsort ids)) in Hp.
      apply Hin in Hp. apply in_map_iff in Hp as (l & E & Hl).
      exists l. split; assumption.
    - intros (l & Hl & <-). apply Hin'. exact Hl. }
  unfold getPlayerLogs. fold teamLogs.
  rewrite T1, T2, T3, T4, T5, T6, T7.
  rewrite <- !C, <- !total_plus.
  repeat split; apply total_ext; intros p;
    destruct (TeamStatsFacts.stats_counts
                (filter (fun l => String.eqb (Log.playerNumber l) p)
                   teamLogs))
      as (P1 & P2 & P3 & P4 & P5 & P6 & P7); assumption.
Qed.

Lemma player_stats_add_up_to_team_stats_witness :
  total
    (fun p =>
       totalPoints
         (calculateStats
            (getPlayerLogs
               (match GameView.newLog
                        (GameView.handleScoreAdjust (Scenario.kickoff me)
                           7 7 true 1) with
                | Some e => [e]
                | None => []
                end) Scenario.config p op)))
    [EmptyString]
  = 1.
Proof.
  exact (proj2 (proj2 (proj2 (proj2 (proj2 (proj2 (proj2 (proj2
           (player_stats_add_up_to_team_stats (fun l => l)
              (match GameView.newLog
                       (GameView.handleScoreAdjust (Scenario.kickoff me)
                          7 7 true 1) with
               | Some e => [e]
               | None => []
               end) Scenario.config op
              (fun l => Permutation_refl l)))))))))).
Defined.

End PlayerSumFacts.
